(** * Noise synthesis kernel of toast: [sim_noise_timestream] and [SimNoise]

    A shallow embedding of [src/toast/future_ops/sim_tod_noise.py].

    Python integers are unbounded and are modelled as [Z].  Floating point
    values are idealised as exact rationals [Q], so the limits of the
    floating point range are outside the model; the numerical routines the
    code calls (log10, power, sqrt, the inverse real FFT, the rendering of
    a float in a message) are kept abstract behind the [Numerics]
    interface.  Python exceptions are the [Raise] case of [outcome].

    The file reads two names, [si] and [rng], that it never binds: the
    calls [si.interp1d] (line 127) and [rng.random] (line 145) raise
    [NameError] when they are reached. *)

From Stdlib Require Import ZArith QArith Qabs Qminmax Lia List Ascii String.
From stdpp Require Import gmap strings list fin_maps.

Local Open Scope Z_scope.

(** ** Exceptions and the outcome of a call *)

Inductive exn : Type :=
  | RuntimeError (msg : string)
  | ValueError (msg : string)
  | IndexError (msg : string)
  | KeyError (msg : string)
  | NotImplementedError (msg : string)
  | TraitError (msg : string)
  | NameError (msg : string)
  | ZeroDivisionError.

(** [OutOfFuel] is the result of a loop whose fuel ran out; it is shown
    unreachable for the fuel the model uses. *)
Inductive outcome (A : Type) : Type :=
  | Ok (a : A)
  | Raise (e : exn)
  | OutOfFuel.

Arguments Ok {A} a.
Arguments Raise {A} e.
Arguments OutOfFuel {A}.

Definition obind {A B} (k : A -> outcome B) (m : outcome A) : outcome B :=
  match m with
  | Ok a => k a
  | Raise e => Raise e
  | OutOfFuel => OutOfFuel
  end.

#[global] Instance outcome_ret : MRet outcome := fun A a => Ok a.
#[global] Instance outcome_bind : MBind outcome := fun A B k m => obind k m.

Definition is_runtime_error {A} (r : outcome A) : Prop :=
  match r with Raise (RuntimeError _) => True | _ => False end.

Definition is_value_error {A} (r : outcome A) : Prop :=
  match r with Raise (ValueError _) => True | _ => False end.

Definition is_ok {A} (r : outcome A) : Prop :=
  match r with Ok _ => True | _ => False end.

(** ** The names bound in the module

    What a function of the file can read besides its own locals and the
    builtins: the names imported at lines 5-19 and the two definitions of
    lines 23 and 189. *)
Definition module_globals : list string :=
  ["traitlets"; "np"; "function_timer"; "trait_docs"; "Int"; "Unicode";
   "FFTPlanReal1DStore"; "Operator"; "rate_from_times"; "Logger";
   "AlignedF64"; "tod_sim_noise_timestream"; "sim_noise_timestream";
   "SimNoise"].

(** Reading a global name: a name that is not bound raises [NameError]. *)
Definition load_global (name : string) : outcome unit :=
  if existsb (String.eqb name) module_globals then Ok tt
  else Raise (NameError ("name '" +:+ name +:+ "' is not defined")).

(** ** Transform length (lines 81-84) *)

(** [while fftlen <= (oversample * samples): fftlen *= 2] *)
Fixpoint fftlen_loop (fuel : nat) (fftlen target : Z) : option Z :=
  match fuel with
  | O => None
  | S fuel' =>
      if fftlen <=? target
      then fftlen_loop fuel' (fftlen * 2) target
      else Some fftlen
  end.

Definition fft_fuel (target : Z) : nat := S (Z.to_nat (Z.log2 target)).

(** [fftlen = 2] followed by the loop. *)
Definition fft_length (oversample samples : Z) : option Z :=
  fftlen_loop (fft_fuel (oversample * samples)) 2 (oversample * samples).

(** [npsd = fftlen // 2 + 1] *)
Definition npsd_of (fftlen : Z) : Z := fftlen / 2 + 1.

(** The spec's wording of the transform length: the smallest power of two
    that is greater than or equal to the target. *)
Definition smallest_pow2_geq (target n : Z) : Prop :=
  (exists k, 0 <= k /\ n = 2 ^ k) /\ target <= n /\
  (forall j, 0 <= j -> target <= 2 ^ j -> n <= 2 ^ j).

(** What the loop computes: the smallest power of two, with exponent at
    least one, strictly greater than the target. *)
Definition smallest_pow2_gt (target n : Z) : Prop :=
  (exists k, 1 <= k /\ n = 2 ^ k) /\ target < n /\
  (forall j, 1 <= j -> target < 2 ^ j -> n <= 2 ^ j).

(** ** Python and numpy primitives on one-dimensional arrays *)

Definition Qltb (x y : Q) : bool := negb (Qle_bool y x).

(** Float division by a Python float: a zero divisor raises. *)
Definition py_div (x y : Q) : outcome Q :=
  if Qeq_bool y 0 then Raise ZeroDivisionError else Ok (x / y)%Q.

(** [a[i]] with Python's negative indices. *)
Definition py_getitem {A} (a : list A) (i : Z) : outcome A :=
  let n := Z.of_nat (length a) in
  let j := if i <? 0 then i + n else i in
  if (j <? 0) || (n <=? j) then Raise (IndexError "index out of bounds")
  else match a !! Z.to_nat j with
       | Some x => Ok x
       | None => Raise (IndexError "index out of bounds")
       end.

(** [a[i] = x] *)
Definition py_setitem {A} (a : list A) (i : Z) (x : A) : outcome (list A) :=
  let n := Z.of_nat (length a) in
  let j := if i <? 0 then i + n else i in
  if (j <? 0) || (n <=? j) then Raise (IndexError "index out of bounds")
  else Ok (<[Z.to_nat j := x]> a).

(** Bounds of [a[start:stop]] as [slice.indices] computes them, step 1. *)
Definition slice_bound (n i : Z) : Z :=
  if i <? 0 then Z.max (i + n) 0 else Z.min i n.

(** [a[start:stop]] *)
Definition py_slice {A} (a : list A) (start stop : Z) : list A :=
  let n := Z.of_nat (length a) in
  let s := slice_bound n start in
  let e := slice_bound n stop in
  take (Z.to_nat (e - s)) (drop (Z.to_nat s) a).

(** Bounds of [a[start:stop:-1]] as [slice.indices] computes them. *)
Definition slice_bound_rev (n i : Z) : Z :=
  if i <? 0 then Z.max (i + n) (-1) else Z.min i (n - 1).

(** [a[start:stop:-1]]: the elements at [start, start-1, ..., stop+1]. *)
Definition py_slice_rev {A} (a : list A) (start stop : Z) : list A :=
  let n := Z.of_nat (length a) in
  let s := slice_bound_rev n start in
  let e := slice_bound_rev n stop in
  reverse (take (Z.to_nat (s - e)) (drop (Z.to_nat (e + 1)) a)).

(** Element-wise binary operation with numpy's broadcasting of a
    one-element operand; other shape mismatches raise. *)
Definition np_broadcast2 {A B C} (f : A -> B -> C) (x : list A) (y : list B)
  : outcome (list C) :=
  if Nat.eqb (length x) (length y) then Ok (zip_with f x y)
  else match x, y with
       | [a], _ => Ok (map (f a) y)
       | _, [b] => Ok (map (fun a => f a b) x)
       | _, _ => Raise (ValueError "operands could not be broadcast together")
       end.

(** In-place element-wise operation [x op= y]: the result keeps the shape
    of [x], so only [y] may be broadcast. *)
Definition np_inplace2 {A B} (f : A -> B -> A) (x : list A) (y : list B)
  : outcome (list A) :=
  if Nat.eqb (length x) (length y) then Ok (zip_with f x y)
  else match y with
       | [b] => Ok (map (fun a => f a b) x)
       | _ => Raise (ValueError "operands could not be broadcast together")
       end.

(** [a[start:stop] = v] for an array [v]. *)
Definition np_setslice {A} (a : list A) (start stop : Z) (v : list A)
  : outcome (list A) :=
  let n := Z.of_nat (length a) in
  let s := slice_bound n start in
  let e := slice_bound n stop in
  let len := Z.to_nat (e - s) in
  if Nat.eqb (length v) len
  then Ok (take (Z.to_nat s) a ++ v ++ drop (Z.to_nat s + len) a)
  else match v with
       | [b] => Ok (take (Z.to_nat s) a ++ replicate len b
                      ++ drop (Z.to_nat s + len) a)
       | _ => Raise (ValueError "could not broadcast input array")
       end.

(** [a[start:stop] -= c] for a scalar [c]. *)
Definition np_isub_slice (a : list Q) (start stop : Z) (c : Q) : list Q :=
  let n := Z.of_nat (length a) in
  let s := slice_bound n start in
  let e := slice_bound n stop in
  let len := Z.to_nat (e - s) in
  take (Z.to_nat s) a
    ++ map (fun x => (x - c)%Q) (take len (drop (Z.to_nat s) a))
    ++ drop (Z.to_nat s + len) a.

(** [np.amin]: an empty array has no minimum. *)
Definition np_amin (a : list Q) : outcome Q :=
  match a with
  | [] => Raise (ValueError "zero-size array to reduction operation minimum which has no identity")
  | x :: xs => Ok (fold_left Qmin xs x)
  end.

Definition Qsum (a : list Q) : Q := fold_right Qplus 0%Q a.

(** [np.mean] *)
Definition np_mean (a : list Q) : Q :=
  (Qsum a / inject_Z (Z.of_nat (length a)))%Q.

(** [np.zeros(n)] *)
Definition np_zeros {A} (n : Z) (zero : A) : list A := replicate (Z.to_nat n) zero.

(** [np.fft.rfftfreq(n, d)]: [arange(0, n//2 + 1) * (1.0 / (n * d))] *)
Definition np_rfftfreq (n : Z) (d : Q) : outcome (list Q) :=
  val ← py_div 1 (inject_Z n * d);
  Ok (map (fun i => (inject_Z (Z.of_nat i) * val)%Q) (seq 0 (Z.to_nat (n / 2 + 1)))).

(** Complex numbers as (real, imaginary) pairs. *)
Definition complex : Type := Q * Q.

(** complex times real *)
Definition cscale (c : complex) (s : Q) : complex := ((c.1 * s)%Q, (c.2 * s)%Q).

(** ** Numerical routines the code imports

    The values of these routines do not matter to the properties below,
    only the shapes of what they return. *)

Class Numerics : Type := {
  (** [np.log10] *)
  log10 : Q -> Q;
  (** [np.power(10.0, x)] *)
  power10 : Q -> Q;
  (** [np.sqrt] *)
  np_sqrt : Q -> Q;
  (** a float as [str.format] renders it in a message *)
  float_str : Q -> string;
  (** [np.fft.irfft] on at least two bins *)
  irfft : list complex -> list Q;
  irfft_length :
    forall a : list complex,
      (2 <= length a)%nat -> length (irfft a) = (2 * (length a - 1))%nat;
  (** What the names [si] and [rng] would have to provide.  The file binds
      neither, so no call reaches these two routines and nothing is assumed
      about them: the interpolant that an [interp1d(x, y, kind="linear",
      fill_value="extrapolate")] builds, and the array of a
      [random(n, sampler="gaussian", key=key, counter=counter)]. *)
  interp1d_linear : list Q -> list Q -> Q -> Q;
  gaussian_array : Z -> Z * Z -> Z * Z -> list Q
}.

Section WithNumerics.
Context `{Numerics}.

(** [si.interp1d(x, y, kind="linear", fill_value="extrapolate")]: the name
    [si] is read first, and it is not bound. *)
Definition si_interp1d (x y : list Q) : outcome (Q -> Q) :=
  _ ← load_global "si";
  Ok (interp1d_linear x y).

(** [np.fft.irfft(a)]: the output length [2 * (len(a) - 1)] must be
    positive. *)
Definition np_irfft (a : list complex) : outcome (list Q) :=
  if (length a <=? 1)%nat
  then Raise (ValueError "Invalid number of FFT data points specified.")
  else Ok (irfft a).

(** [rng.random(n, sampler="gaussian", key=key, counter=counter).array()]:
    the name [rng] is read first, and it is not bound. *)
Definition rng_random (n : Z) (key counter : Z * Z) : outcome (list Q) :=
  _ ← load_global "rng";
  Ok (gaussian_array n key counter).

(** ** [sim_noise_timestream], the [py=True] branch (lines 80-169) *)

Definition from_fuel {A} (o : option A) : outcome A :=
  match o with Some a => Ok a | None => OutOfFuel end.

(** Lines 87-134: the interpolated frequencies and PSD. *)
Definition interpolate_psd (rate : Q) (fftlen npsd : Z) (freq psd : list Q)
  : outcome (list Q * list Q) :=
  d ← py_div 1 rate;
  interp_freq ← np_rfftfreq fftlen d;
  if negb (Z.of_nat (length interp_freq) =? npsd)
  then Raise (RuntimeError "interpolated PSD frequencies do not have expected length")
  else
  fmin ← np_amin freq;
  if Qltb fmin 0
  then Raise (RuntimeError "input PSD frequencies should be >= zero")
  else
  pmin ← np_amin psd;
  if Qltb pmin 0
  then Raise (RuntimeError "input PSD values should be >= zero")
  else
  increment ← py_div rate (inject_Z fftlen);
  f0 ← py_getitem freq 0;
  if Qltb increment f0
  then Raise (RuntimeError "input PSD does not go to low enough frequency to allow for interpolation")
  else
  nyquist ← py_div rate 2;
  flast ← py_getitem freq (-1);
  if Qltb (1 # 100) (Qabs ((flast - nyquist) / nyquist))
  then Raise (RuntimeError
                ("last frequency element does not match Nyquist frequency for given sample rate: "
                 +:+ float_str flast +:+ " != " +:+ float_str nyquist))
  else
  ppos ← np_amin (filter (fun p => Qltb 0 p = true) psd);
  let psdshift := ((1 # 100) * ppos)%Q in
  let freqshift := increment in
  let loginterp_freq := map (fun f => log10 (f + freqshift)) interp_freq in
  let logfreq := map (fun f => log10 (f + freqshift)) freq in
  let logpsd := map (fun p => log10 (p + psdshift)) psd in
  interp ← si_interp1d logfreq logpsd;
  let loginterp_psd := map interp loginterp_freq in
  let interp_psd := map (fun v => (power10 v - psdshift)%Q) loginterp_psd in
  interp_psd ← py_setitem interp_psd 0 0%Q;
  Ok (interp_freq, interp_psd).

(** Lines 140-143: key and counter of the generator. *)
Definition rng_key1 (realization telescope component : Z) : Z :=
  realization * 4294967296 + telescope * 65536 + component.

Definition rng_key2 (obsindx detindx : Z) : Z :=
  obsindx * 4294967296 + detindx.

Definition rng_counter1 : Z := 0.

Definition rng_counter2 (firstsamp oversample : Z) : Z :=
  firstsamp * oversample.

(** Lines 140-147: the Gaussian samples drawn for one call. *)
Definition draw_rngdata (realization telescope component obsindx detindx
                         firstsamp oversample fftlen : Z) : outcome (list Q) :=
  rng_random fftlen
    (rng_key1 realization telescope component, rng_key2 obsindx detindx)
    (rng_counter1, rng_counter2 firstsamp oversample).

(** Lines 149-156: the samples packed into [npsd] complex bins.
    [a + 1j * b] is the complex number with real part [a] and imaginary
    part [b]. *)
Definition pack_fdata (npsd : Z) (rngdata : list Q) : outcome (list complex) :=
  let fdata := np_zeros npsd (0%Q, 0%Q) in
  r0 ← py_getitem rngdata 0;
  fdata ← py_setitem fdata 0 (r0, 0%Q);
  rn ← py_getitem rngdata (npsd - 1);
  fdata ← py_setitem fdata (-1) (rn, 0%Q);
  packed ← np_broadcast2 (fun re im => (re, im))
             (py_slice rngdata 1 (npsd - 1))
             (py_slice_rev rngdata (-1) (npsd - 1));
  np_setslice fdata 1 (-1) packed.

(** Lines 165-169: the returned window, with its mean removed. *)
Definition crop_window (tdata : list Q) (fftlen samples : Z) : list Q :=
  let offset := (fftlen - samples) / 2 in
  let DC := np_mean (py_slice tdata offset (offset + samples)) in
  let tdata := np_isub_slice tdata offset (offset + samples) DC in
  py_slice tdata offset (offset + samples).

Definition sim_noise_timestream_py
    (realization telescope component obsindx detindx : Z) (rate : Q)
    (firstsamp samples oversample : Z) (freq psd : list Q)
  : outcome (list Q * list Q * list Q) :=
  fftlen ← from_fuel (fft_length oversample samples);
  let npsd := npsd_of fftlen in
  let norm := (rate * inject_Z (npsd - 1))%Q in
  '(interp_freq, interp_psd) ← interpolate_psd rate fftlen npsd freq psd;
  let scale := map (fun p => np_sqrt (p * norm)) interp_psd in
  rngdata ← draw_rngdata realization telescope component obsindx detindx
              firstsamp oversample fftlen;
  fdata ← pack_fdata npsd rngdata;
  fdata ← np_inplace2 cscale fdata scale;
  tdata ← np_irfft fdata;
  Ok (crop_window tdata fftlen samples, interp_freq, interp_psd).

End WithNumerics.

(** A small instance of the interface, for running the model: the
    inverse transform lays the real parts of the bins out twice and every
    float is rendered the same way. *)
#[local] Instance sample_numerics : Numerics.
Proof.
  refine {|
    log10 := fun x => x;
    power10 := fun x => x;
    np_sqrt := fun x => x;
    float_str := fun _ => "x";
    irfft := fun a => map fst (take (length a - 1) a)
                      ++ map fst (take (length a - 1) a);
    interp1d_linear := fun _ y _ => hd 0%Q y;
    gaussian_array := fun n _ _ => replicate (Z.to_nat n) 0%Q
  |}.
  intros a Ha. rewrite length_app, !length_map, length_take.
  unfold complex in *. lia.
Defined.

(** ** The compiled branch and the dispatch on [py] (lines 170-185) *)

(** The arguments of one call of [sim_noise_timestream]. *)
Record SynthCall : Type := {
  sc_realization : Z;
  sc_telescope : Z;
  sc_component : Z;
  sc_obsindx : Z;
  sc_detindx : Z;
  sc_rate : Q;
  sc_firstsamp : Z;
  sc_samples : Z;
  sc_oversample : Z;
  sc_freq : list Q;
  sc_psd : list Q
}.

(** The routines imported from outside the file: the compiled
    [tod_sim_noise_timestream], which either raises or gives the value it
    writes at each index of the buffer it is handed, and
    [rate_from_times], of which only the rate is used. *)
Class Libtoast : Type := {
  tod_sim_noise_timestream : SynthCall -> outcome (nat -> Q);
  rate_from_times : list Q -> Q
}.

Inductive sim_result : Type :=
  | PyResult (tdata interp_freq interp_psd : list Q)
  | Tdata (tdata : list Q).

Section WithLibtoast.
Context `{Numerics} `{Libtoast}.

(** [tdata = AlignedF64(samples)], filled by the compiled routine. *)
Definition sim_noise_timestream_compiled (c : SynthCall) : outcome (list Q) :=
  fill ← tod_sim_noise_timestream c;
  Ok (map fill (seq 0 (Z.to_nat (sc_samples c)))).

Definition sim_noise_timestream (c : SynthCall) (py : bool) : outcome sim_result :=
  if py
  then '(tdata, interp_freq, interp_psd) ←
         sim_noise_timestream_py (sc_realization c) (sc_telescope c)
           (sc_component c) (sc_obsindx c) (sc_detindx c) (sc_rate c)
           (sc_firstsamp c) (sc_samples c) (sc_oversample c)
           (sc_freq c) (sc_psd c);
       Ok (PyResult tdata interp_freq interp_psd)
  else tdata ← sim_noise_timestream_compiled c;
       Ok (Tdata tdata).

(** ** The observation the operator works on *)

Record NoiseModel : Type := {
  nse_keys : list string;
  nse_weight : string -> string -> Q;
  nse_index : string -> Z;
  nse_freq : string -> list Q;
  nse_psd : string -> list Q
}.

(** Modelled from the spec: the observation container is not in this
    file.  It gives the local detectors, the observation and telescope
    ids, the optional global sample offset, the named noise models, the
    size of the process grid in the sample direction, the shared
    timestamp arrays, the local sample range and the keyed per-detector
    buffers. *)
Record Observation : Type := {
  ob_local_detectors : list string;
  ob_UID : Z;
  ob_telescope_id : Z;
  ob_global_offset : option Z;
  ob_noise : gmap string NoiseModel;
  ob_comm_row_size : Z;
  ob_shared : gmap string (list Q);
  ob_local_index_offset : Z;
  ob_n_local_samples : Z;
  ob_detdata : gmap string (gmap string (list Q))
}.

Definition set_detdata (ob : Observation)
    (dd : gmap string (gmap string (list Q))) : Observation :=
  {| ob_local_detectors := ob_local_detectors ob;
     ob_UID := ob_UID ob;
     ob_telescope_id := ob_telescope_id ob;
     ob_global_offset := ob_global_offset ob;
     ob_noise := ob_noise ob;
     ob_comm_row_size := ob_comm_row_size ob;
     ob_shared := ob_shared ob;
     ob_local_index_offset := ob_local_index_offset ob;
     ob_n_local_samples := ob_n_local_samples ob;
     ob_detdata := dd |}.

(** Modelled from the spec: [ob.select_local_detectors(detectors)], the
    local detectors restricted to the requested subset when one is given. *)
Definition select_local_detectors (ob : Observation)
    (detectors : option (list string)) : list string :=
  match detectors with
  | None => ob_local_detectors ob
  | Some sel => filter (fun d => d ∈ sel) (ob_local_detectors ob)
  end.

(** Modelled from the spec: [ob.detdata.create(name, detshape=(), ...)],
    a zero-initialised buffer of the local sample count for each local
    detector. *)
Definition detdata_create (ob : Observation) (name : string) : Observation :=
  let zeros := np_zeros (ob_n_local_samples ob) 0%Q in
  set_detdata ob
    (<[name := list_to_map (map (fun d => (d, zeros)) (ob_local_detectors ob))]>
       (ob_detdata ob)).

(** [ob.detdata[name][det] += v] *)
Definition detdata_iadd (ob : Observation) (name det : string) (v : list Q)
  : outcome Observation :=
  match ob_detdata ob !! name with
  | None => Raise (KeyError name)
  | Some bufs =>
      match bufs !! det with
      | None => Raise (KeyError det)
      | Some buf =>
          buf' ← np_inplace2 Qplus buf v;
          Ok (set_detdata ob (<[name := <[det := buf']> bufs]> (ob_detdata ob)))
      end
  end.

(** ** The operator (lines 188-329) *)

Record SimNoise : Type := {
  noise_model : string;
  realization : Z;
  component : Z;
  times : string;
  out : string;
  _oversample : Z
}.

Definition _check_realization (check : Z) : outcome Z :=
  if check <? 0 then Raise (TraitError "realization index must be positive")
  else Ok check.

Definition _check_component (check : Z) : outcome Z :=
  if check <? 0 then Raise (TraitError "component index must be positive")
  else Ok check.

(** [__init__] with the traits given as keyword arguments. *)
Definition SimNoise_init (noise_model : string) (realization component : Z)
    (times out : string) : outcome SimNoise :=
  realization ← _check_realization realization;
  component ← _check_component component;
  Ok {| noise_model := noise_model; realization := realization;
        component := component; times := times; out := out;
        _oversample := 2 |}.

(** The state of one pass of [_exec]: the observation being written and
    the calls of [sim_noise_timestream] made so far. *)
Definition exec_state : Type := Observation * list SynthCall.

(** Lines 287-289: the sum of the absolute weights of the detectors. *)
Definition key_weight (nse : NoiseModel) (dets : list string) (key : string) : Q :=
  fold_left (fun weight det => (weight + Qabs (nse_weight nse det key))%Q) dets 0%Q.

(** Lines 294-306: the call made for one key. *)
Definition key_call (self : SimNoise) (ob : Observation) (nse : NoiseModel)
    (rate : Q) (global_offset : Z) (key : string) : SynthCall :=
  {| sc_realization := realization self;
     sc_telescope := ob_telescope_id ob;
     sc_component := component self;
     sc_obsindx := ob_UID ob;
     sc_detindx := nse_index nse key;
     sc_rate := rate;
     sc_firstsamp := ob_local_index_offset ob + global_offset;
     sc_samples := ob_n_local_samples ob;
     sc_oversample := _oversample self;
     sc_freq := nse_freq nse key;
     sc_psd := nse_psd nse key |}.

(** Lines 309-313: the noise added to the detectors with nonzero weight. *)
Fixpoint add_noise (self : SimNoise) (nse : NoiseModel) (key : string)
    (nsedata : list Q) (dets : list string) (ob : Observation)
  : Observation * outcome unit :=
  match dets with
  | [] => (ob, Ok tt)
  | det :: dets' =>
      let weight := nse_weight nse det key in
      if Qeq_bool weight 0 then add_noise self nse key nsedata dets' ob
      else match detdata_iadd ob (out self) det (map (Qmult weight) nsedata) with
           | Ok ob' => add_noise self nse key nsedata dets' ob'
           | Raise e => (ob, Raise e)
           | OutOfFuel => (ob, OutOfFuel)
           end
  end.

(** Lines 286-313: the body of the loop over the keys. *)
Definition exec_key (self : SimNoise) (nse : NoiseModel) (rate : Q)
    (global_offset : Z) (dets : list string) (key : string) (st : exec_state)
  : exec_state * outcome unit :=
  let '(ob, calls) := st in
  let weight := key_weight nse dets key in
  if Qeq_bool weight 0 then (st, Ok tt)
  else
    let call := key_call self ob nse rate global_offset key in
    match sim_noise_timestream call false with
    | Ok (Tdata nsedata) =>
        let '(ob', r) := add_noise self nse key nsedata dets ob in
        ((ob', calls ++ [call]), r)
    | Ok (PyResult nsedata _ _) =>
        let '(ob', r) := add_noise self nse key nsedata dets ob in
        ((ob', calls ++ [call]), r)
    | Raise e => ((ob, calls ++ [call]), Raise e)
    | OutOfFuel => ((ob, calls ++ [call]), OutOfFuel)
    end.

(** Line 285: [for key in nse.keys]; an exception leaves the loop. *)
Fixpoint exec_keys (self : SimNoise) (nse : NoiseModel) (rate : Q)
    (global_offset : Z) (dets : list string) (keys : list string)
    (st : exec_state) : exec_state * outcome unit :=
  match keys with
  | [] => (st, Ok tt)
  | key :: keys' =>
      match exec_key self nse rate global_offset dets key st with
      | (st', Ok _) => exec_keys self nse rate global_offset dets keys' st'
      | (st', r) => (st', r)
      end
  end.

(** Lines 255-257: the global offset of the observation, zero by default. *)
Definition global_offset_of (ob : Observation) : Z :=
  match ob_global_offset ob with Some g => g | None => 0 end.

(** Lines 278-279: the output is created if it does not exist. *)
Definition ensure_output (self : SimNoise) (ob : Observation) : Observation :=
  match ob_detdata ob !! out self with
  | None => detdata_create ob (out self)
  | Some _ => ob
  end.

(** Lines 239-328: the body of the loop over the observations.  The log
    messages and the release of the transform plans, which follow the key
    loop, do not touch the values modelled here. *)
Definition exec_observation (self : SimNoise) (detectors : option (list string))
    (st : exec_state) : exec_state * outcome unit :=
  let '(ob, calls) := st in
  let dets := select_local_detectors ob detectors in
  if Nat.eqb (length dets) 0 then (st, Ok tt)
  else
    let obsindx := ob_UID ob in
    let telescope := ob_telescope_id ob in
    let global_offset := global_offset_of ob in
    match ob_noise ob !! noise_model self with
    | None =>
        (st, Raise (KeyError ("Observation does not contain noise model key '"
                                +:+ noise_model self +:+ "'")))
    | Some nse =>
        if negb (ob_comm_row_size ob =? 1)
        then (st, Raise (NotImplementedError "Noise simulation for process grids with multiple ranks in the sample direction not implemented"))
        else
          let ob := ensure_output self ob in
          match ob_shared ob !! times self with
          | None => ((ob, calls), Raise (KeyError (times self)))
          | Some t =>
              let rate := rate_from_times t in
              exec_keys self nse rate global_offset dets (nse_keys nse) (ob, calls)
          end
    end.

(** Line 238: [for ob in data.obs]. *)
Fixpoint _exec (self : SimNoise) (obs : list Observation)
    (detectors : option (list string)) (calls : list SynthCall)
  : list Observation * list SynthCall * outcome unit :=
  match obs with
  | [] => ([], calls, Ok tt)
  | ob :: obs' =>
      match exec_observation self detectors (ob, calls) with
      | ((ob', calls'), Ok _) =>
          let '(obs'', calls'', r) := _exec self obs' detectors calls' in
          (ob' :: obs'', calls'', r)
      | ((ob', calls'), r) => (ob' :: obs', calls', r)
      end
  end.

(** ** Reading the state of the operator *)

(** [ob.detdata[self.out][det]], when it exists. *)
Definition out_buffer (self : SimNoise) (ob : Observation) (det : string)
  : option (list Q) :=
  match ob_detdata ob !! out self with
  | Some bufs => bufs !! det
  | None => None
  end.

(** The timestream the compiled routine gives for a key; zeros stand for
    a call that raises. *)
Definition key_timestream (self : SimNoise) (ob : Observation) (nse : NoiseModel)
    (rate : Q) (global_offset : Z) (key : string) : list Q :=
  match sim_noise_timestream_compiled (key_call self ob nse rate global_offset key) with
  | Ok ts => ts
  | _ => np_zeros (ob_n_local_samples ob) 0%Q
  end.

(** [buf + weight * timestream], element by element. *)
Definition add_weighted (buf : list Q) (weight : Q) (ts : list Q) : list Q :=
  zip_with Qplus buf (map (Qmult weight) ts).

(** The sum, over the keys in order, of the weighted timestreams of one
    detector, started from [buf]. *)
Definition weighted_sum (self : SimNoise) (ob : Observation) (nse : NoiseModel)
    (rate : Q) (global_offset : Z) (det : string) (keys : list string)
    (buf : list Q) : list Q :=
  fold_left
    (fun acc key =>
       add_weighted acc (nse_weight nse det key)
         (key_timestream self ob nse rate global_offset key))
    keys buf.

(** The keys for which a synthesis is needed. *)
Definition needed_keys (nse : NoiseModel) (dets : list string) (keys : list string)
  : list string :=
  filter (fun key => Qeq_bool (key_weight nse dets key) 0 = false) keys.

(** Every detector of [dets] has an output buffer of [n] samples. *)
Definition buffers_ready (self : SimNoise) (ob : Observation)
    (dets : list string) (n : nat) : Prop :=
  forall d, d ∈ dets -> exists buf, out_buffer self ob d = Some buf /\ length buf = n.

End WithLibtoast.

(** A small instance of the compiled routines, for running the model:
    sample [i] of a call is its detector index plus [i]. *)
#[local] Instance sample_libtoast : Libtoast := {|
  tod_sim_noise_timestream := fun c =>
    Ok (fun i => inject_Z (sc_detindx c + Z.of_nat i));
  rate_from_times := fun t => inject_Z (Z.of_nat (length t))
|}.

(** A small observation, for running the operator: two detectors, and a
    noise model with a key shared by both, a key no detector couples to and
    a key of the second detector only. *)
Definition sample_noise : NoiseModel := {|
  nse_keys := ["common"; "unused"; "second"];
  nse_weight := fun det key =>
    if String.eqb key "common" then (if String.eqb det "d1" then 2%Q else 3%Q)
    else if String.eqb key "second"
         then (if String.eqb det "d2" then 1 # 2 else 0%Q)
         else 0%Q;
  nse_index := fun key => Z.of_nat (String.length key);
  nse_freq := fun _ => [0%Q; 1%Q];
  nse_psd := fun _ => [1%Q; 1%Q]
|}.

Definition sample_observation : Observation := {|
  ob_local_detectors := ["d1"; "d2"];
  ob_UID := 7;
  ob_telescope_id := 1;
  ob_global_offset := None;
  ob_noise := {["noise_model" := sample_noise]};
  ob_comm_row_size := 1;
  ob_shared := {["times" := [0%Q; 1%Q; 2%Q]]};
  ob_local_index_offset := 0;
  ob_n_local_samples := 3;
  ob_detdata := ∅
|}.

Definition sample_operator : SimNoise := {|
  noise_model := "noise_model";
  realization := 0;
  component := 0;
  times := "times";
  out := "noise";
  _oversample := 2
|}.

(** The same observation on a process grid with two ranks in the sample
    direction. *)
Definition sample_split_observation : Observation := {|
  ob_local_detectors := ["d1"; "d2"];
  ob_UID := 7;
  ob_telescope_id := 1;
  ob_global_offset := None;
  ob_noise := {["noise_model" := sample_noise]};
  ob_comm_row_size := 2;
  ob_shared := {["times" := [0%Q; 1%Q; 2%Q]]};
  ob_local_index_offset := 0;
  ob_n_local_samples := 3;
  ob_detdata := ∅
|}.

(** An operator that looks for a noise model the observations lack. *)
Definition sample_lost_operator : SimNoise := {|
  noise_model := "other_model";
  realization := 0;
  component := 0;
  times := "times";
  out := "noise";
  _oversample := 2
|}.

(** ** The preconditions on the PSD table, as the spec words them *)

Definition freq_negative (freq : list Q) : Prop :=
  Exists (fun f => (f < 0)%Q) freq.

Definition psd_negative (psd : list Q) : Prop :=
  Exists (fun p => (p < 0)%Q) psd.

(** [freq[0] > rate / fft_len] *)
Definition low_freq_uncovered (rate : Q) (fftlen : Z) (freq : list Q) : Prop :=
  exists f0, head freq = Some f0 /\ (rate / inject_Z fftlen < f0)%Q.

(** [|freq[-1] - rate/2| / (rate/2) > 0.01] *)
Definition nyquist_mismatch (rate : Q) (freq : list Q) : Prop :=
  exists fl, last freq = Some fl /\
             ((1 # 100) < Qabs ((fl - rate / 2) / (rate / 2)))%Q.

Definition precondition_violated (rate : Q) (fftlen : Z) (freq psd : list Q) : Prop :=
  freq_negative freq \/ psd_negative psd \/
  low_freq_uncovered rate fftlen freq \/ nyquist_mismatch rate freq.

Definition psd_positive (psd : list Q) : Prop :=
  Exists (fun p => (0 < p)%Q) psd.

(** What each outcome of the interpolation says about its input: there
    is no successful one. *)
Definition interpolate_psd_class (rate : Q) (fftlen npsd : Z) (freq psd : list Q)
    (r : outcome (list Q * list Q)) : Prop :=
  match r with
  | Raise (RuntimeError _) => precondition_violated rate fftlen freq psd
  | Raise (ValueError _) =>
      ~ precondition_violated rate fftlen freq psd /\ ~ psd_positive psd
  | Raise (NameError msg) =>
      ~ precondition_violated rate fftlen freq psd /\ psd_positive psd /\
      msg = "name 'si' is not defined"
  | _ => False
  end.

(** The same for the python branch. *)
Definition sim_py_class (rate : Q) (fftlen : Z) (freq psd : list Q)
    (r : outcome (list Q * list Q * list Q)) : Prop :=
  match r with
  | Raise (RuntimeError _) => precondition_violated rate fftlen freq psd
  | Raise (ValueError _) =>
      ~ precondition_violated rate fftlen freq psd /\ ~ psd_positive psd
  | Raise (NameError msg) =>
      ~ precondition_violated rate fftlen freq psd /\ psd_positive psd /\
      msg = "name 'si' is not defined"
  | _ => False
  end.

(** A decision procedure for the preconditions, to check them on
    concrete tables. *)
Definition preconditions_holdb (rate : Q) (fftlen : Z) (freq psd : list Q) : bool :=
  forallb (fun f => Qle_bool 0 f) freq
  && forallb (fun p => Qle_bool 0 p) psd
  && match head freq with
     | Some f0 => Qle_bool f0 (rate / inject_Z fftlen)
     | None => true
     end
  && match last freq with
     | Some fl => Qle_bool (Qabs ((fl - rate / 2) / (rate / 2))) (1 # 100)
     | None => true
     end.

(** ** The remaining methods of the operator (lines 331-352) *)

Definition _finalize (self : SimNoise) : unit := tt.

Definition _requires (self : SimNoise) : list (string * list string) :=
  [("meta", [noise_model self]); ("shared", [times self])].

Definition _provides (self : SimNoise) : list (string * list string) :=
  [("detdata", [out self])].

Definition _accelerators (self : SimNoise) : list string := [].

(** The names listed under a section of such a dictionary. *)
Definition declared (d : list (string * list string)) (section : string)
  : list string :=
  match List.find (fun e => String.eqb (fst e) section) d with
  | Some e => snd e
  | None => []
  end.

(** ** Relations between the states of the operator *)

(** [ob'] differs from [ob] at most in the buffers stored under the
    output key. *)
Definition only_output_changed (self : SimNoise) (ob ob' : Observation) : Prop :=
  ob' = set_detdata ob (ob_detdata ob') /\
  forall name, name <> out self -> ob_detdata ob' !! name = ob_detdata ob !! name.

(** The output buffers of [ob'] exist for the same detectors as those of
    [ob], with the same lengths. *)
Definition same_shape (self : SimNoise) (ob ob' : Observation) : Prop :=
  forall d, length <$> out_buffer self ob' d = length <$> out_buffer self ob d.

(** A compiled routine that raises for the PSD index 6 and otherwise
    fills the buffer with the index, for running a failing synthesis. *)
Definition failing_libtoast : Libtoast := {|
  tod_sim_noise_timestream := fun c =>
    if sc_detindx c =? 6 then Raise (RuntimeError "synthesis failed")
    else Ok (fun _ => inject_Z (sc_detindx c));
  rate_from_times := fun t => inject_Z (Z.of_nat (length t))
|}.

(** The sample observation without its timestamps. *)
Definition sample_untimed_observation : Observation := {|
  ob_local_detectors := ["d1"; "d2"];
  ob_UID := 7;
  ob_telescope_id := 1;
  ob_global_offset := Some 10;
  ob_noise := {["noise_model" := sample_noise]};
  ob_comm_row_size := 1;
  ob_shared := ∅;
  ob_local_index_offset := 0;
  ob_n_local_samples := 3;
  ob_detdata := ∅
|}.

(** The sample observation with an output written by an earlier pass. *)
Definition sample_written_observation : Observation := {|
  ob_local_detectors := ["d1"; "d2"];
  ob_UID := 7;
  ob_telescope_id := 1;
  ob_global_offset := None;
  ob_noise := {["noise_model" := sample_noise]};
  ob_comm_row_size := 1;
  ob_shared := {["times" := [0%Q; 1%Q; 2%Q]]};
  ob_local_index_offset := 0;
  ob_n_local_samples := 3;
  ob_detdata := {["noise" := {["d1" := [1%Q; 1%Q; 1%Q]; "d2" := [2%Q; 2%Q; 2%Q]]}]}
|}.

(** A noise model whose keys have the PSD indices 5 and 6. *)
Definition sample_mixed_noise : NoiseModel := {|
  nse_keys := ["white"; "common"; "white"];
  nse_weight := fun det key => 1%Q;
  nse_index := fun key => Z.of_nat (String.length key);
  nse_freq := fun _ => [0%Q; 1%Q];
  nse_psd := fun _ => [1%Q; 1%Q]
|}.

(** The sample observation with that noise model. *)
Definition sample_mixed_observation : Observation := {|
  ob_local_detectors := ["d1"; "d2"];
  ob_UID := 7;
  ob_telescope_id := 1;
  ob_global_offset := Some 10;
  ob_noise := {["noise_model" := sample_mixed_noise]};
  ob_comm_row_size := 1;
  ob_shared := {["times" := [0%Q; 1%Q; 2%Q]]};
  ob_local_index_offset := 4;
  ob_n_local_samples := 3;
  ob_detdata := ∅
|}.

(** * The map-making operator of [src/toast/map/madam.py]

    [OpMadam] marshals one observation into the flat buffers of a call of
    the external [libmadam.destripe].  The time ordered data object and the
    destriping library are outside the file: the first is the interface
    [TodLib], whose operations may raise and whose state is threaded
    through the calls that clear data, and the second is represented by the
    arguments it is called with. *)

Module Madam.

Record Interval : Type := {
  iv_start : Q;
  iv_stop : Q;
  iv_first : Z;
  iv_last : Z
}.

(** The time ordered data of an observation, as [exec] uses it.  The
    class of this object is not in [src/]; its methods are parameters.
    The reading methods are taken to return their result only, the two
    clearing methods to change the object. *)
Class TodLib : Type := {
  TOD : Type;
  DEFAULT_FLAVOR : string;
  tod_timedist : TOD -> bool;
  tod_total_samples : TOD -> Z;
  (** [tod.mpicomm.py2f()] *)
  tod_py2f : TOD -> Z;
  tod_detectors : TOD -> list string;
  tod_local_samples : TOD -> Z * Z;
  (** [tod.pmat_nnz(name, detector)] *)
  tod_pmat_nnz : TOD -> string -> string -> outcome Z;
  (** [tod.read_times(local_start, n)] *)
  tod_read_times : TOD -> Z -> Z -> outcome (list Q);
  (** [tod.read(detector, flavor, local_start, n)]: signal and flags *)
  tod_read : TOD -> string -> string -> Z -> Z -> outcome (list Q * list Z);
  (** [tod.read_pmat(name, detector, local_start, n)]: pixels and weights *)
  tod_read_pmat : TOD -> string -> string -> Z -> Z -> outcome (list Z * list Q);
  (** [tod.clear(detector, flavor)] *)
  tod_clear : TOD -> string -> string -> outcome TOD;
  (** [tod.clear_pmat(name, detector)] *)
  tod_clear_pmat : TOD -> string -> string -> outcome TOD
}.

(** The noise object of an observation: [nse.freq] and [nse.psd(det)]. *)
Record Noise : Type := {
  noise_freq : list Q;
  noise_psd : string -> list Q
}.

(** The arguments of [libmadam.destripe], in the order of the call. *)
Record DestripeCall : Type := {
  dc_todfcomm : Z;
  dc_parstring : string;
  dc_ndet : Z;
  dc_detstring : string;
  dc_detweights : list Q;
  dc_nlocal : Z;
  dc_nnz : Z;
  dc_timestamps : list Q;
  dc_pixels : list Z;
  dc_pixweights : list Q;
  dc_signal : list Q;
  dc_nperiod : Z;
  dc_periods : list Z;
  dc_npsd : list Z;
  dc_npsdtot : Z;
  dc_psdstarts : list Q;
  dc_npsdbin : Z;
  dc_psdfreqs : list Q;
  dc_npsdval : Z;
  dc_psdvals : list Q
}.

(** ** Arrays *)

(** [np.zeros(n)], [np.ones(n)]: a negative size raises. *)
Definition np_full {A} (n : Z) (x : A) : outcome (list A) :=
  if n <? 0 then Raise (ValueError "negative dimensions are not allowed")
  else Ok (replicate (Z.to_nat n) x).

(** [np.repeat(a, k)]: each element [k] times; a negative count raises. *)
Definition np_repeat {A} (a : list A) (k : Z) : outcome (list A) :=
  if k <? 0 then Raise (ValueError "repeats may not contain negative values.")
  else Ok (concat (map (replicate (Z.to_nat k)) a)).

(** [a[mask] = x] for a boolean mask, which must be as long as [a]. *)
Definition np_mask_assign {A} (a : list A) (mask : list bool) (x : A)
  : outcome (list A) :=
  if Nat.eqb (length mask) (length a)
  then Ok (zip_with (fun v (m : bool) => if m then x else v) a mask)
  else Raise (IndexError "boolean index did not match indexed array").

(** [for i in range(n)] over a state, from index [i]. *)
Fixpoint for_range {S} (body : Z -> S -> outcome S) (i : Z) (n : nat) (s : S)
  : outcome S :=
  match n with
  | O => Ok s
  | S n' => s' ← body i s; for_range body (i + 1) n' s'
  end.

(** [d[key]] for a dictionary kept as a list of items. *)
Definition dict_get {V} (d : list (string * V)) (key : string) : outcome V :=
  match List.find (fun kv => String.eqb (fst kv) key) d with
  | Some kv => Ok (snd kv)
  | None => Raise (KeyError key)
  end.

(** [d[key] = v]: the value of an existing key is replaced in place, a new
    key goes last. *)
Fixpoint dict_set {V} (d : list (string * V)) (key : string) (v : V)
  : list (string * V) :=
  match d with
  | [] => [(key, v)]
  | kv :: d' =>
      if String.eqb (fst kv) key then (key, v) :: d'
      else kv :: dict_set d' key v
  end.

(** ** The operator (lines 53-99) *)

Record OpMadam : Type := {
  _timedist : bool;
  _flavor : string;
  _pmat : string;
  _detw : option (list (string * Q));
  _purge : bool;
  (** the parameters, each value standing for its rendering by [format] *)
  _params : list (string * string)
}.

Section WithTod.
Context `{TodLib}.

(** [__init__(flavor, pmat, detweights, purge, params)] *)
Definition init (flavor pmat : option string)
    (detweights : option (list (string * Q))) (purge : bool)
    (params : list (string * string)) : OpMadam :=
  {| _timedist := true;
     _flavor := match flavor with Some f => f | None => DEFAULT_FLAVOR end;
     _pmat := match pmat with Some p => p | None => DEFAULT_FLAVOR end;
     _detw := detweights;
     _purge := purge;
     _params := params |}.

Definition timedist (self : OpMadam) : bool := _timedist self.

(** [available], for a library that was found or not. *)
Definition available (libmadam : bool) (self : OpMadam) : bool := libmadam.

Definition _dict2parstring (d : list (string * string)) : string :=
  fold_left (fun s kv => s +:+ (fst kv +:+ " = " +:+ snd kv +:+ ";")) d "".

Definition _dets2detstring (dets : list string) : string :=
  fold_left (fun s d => s +:+ (d +:+ ";")) dets "".

(** ** [exec] (lines 102-217) *)

(** An entry of the dictionary of an observation. *)
Record Obs : Type := {
  obs_tod : option TOD;
  (** the entry ['intervals'], when present and not [None] *)
  obs_intervals : option (list Interval);
  (** the entry ['noise'], when present and not [None] *)
  obs_noise : option Noise
}.

(** Line 123: the interval used when none is given. *)
Definition default_intervals (tod : TOD) : list Interval :=
  [{| iv_start := 0; iv_stop := 0; iv_first := 0;
      iv_last := tod_total_samples tod - 1 |}].

(** The buffers filled by the loop of lines 150-157. *)
Record Buffers : Type := {
  b_tod : TOD;
  b_signal : list Q;
  b_flags : list Z;
  b_pixels : list Z;
  b_pixweights : list Q
}.

(** Lines 151-157: one detector.  The flags go into an array of unsigned
    bytes. *)
Definition read_detector (self : OpMadam) (nlocal nnz : Z) (d : Z) (b : Buffers)
  : outcome Buffers :=
  let tod := b_tod b in
  det ← py_getitem (tod_detectors tod) d;
  '(sig, flg) ← tod_read tod det (_flavor self) 0 nlocal;
  signal ← np_setslice (b_signal b) (d * nlocal) ((d + 1) * nlocal) sig;
  flags ← np_setslice (b_flags b) (d * nlocal) ((d + 1) * nlocal)
            (map (fun f => f mod 256) flg);
  det ← py_getitem (tod_detectors tod) d;
  '(pix, wgt) ← tod_read_pmat tod (_pmat self) det 0 nlocal;
  pixels ← np_setslice (b_pixels b) (d * nlocal) ((d + 1) * nlocal) pix;
  pixweights ← np_setslice (b_pixweights b) (d * nlocal * nnz)
                 ((d + 1) * nlocal * nnz) wgt;
  tod ← (if _purge self
         then det ← py_getitem (tod_detectors tod) d;
              tod ← tod_clear tod det (_flavor self);
              det ← py_getitem (tod_detectors tod) d;
              tod_clear_pmat tod (_pmat self) det
         else Ok tod);
  Ok {| b_tod := tod; b_signal := signal; b_flags := flags;
        b_pixels := pixels; b_pixweights := pixweights |}.

(** Lines 162-163: the flags applied to the pointing. *)
Definition apply_flags (flags : list Z) (nnz : Z) (pixels : list Z)
    (pixweights : list Q) : outcome (list Z * list Q) :=
  pixels ← np_mask_assign pixels (map (fun f => negb (f =? 0)) flags) (-1);
  rep ← np_repeat flags nnz;
  pixweights ← np_mask_assign pixweights (map (fun f => negb (f =? 0)) rep) 0%Q;
  Ok (pixels, pixweights).

(** Line 168: the starts of the intervals that meet the local samples. *)
Definition local_bounds (intervals : list Interval) (local : Z * Z) : list Z :=
  map (fun t => if iv_first t >? fst local then iv_first t - fst local else 0)
      (List.filter
         (fun t => (iv_last t >=? fst local)
                   && (iv_first t <? fst local + snd local))
         intervals).

(** Lines 170-174 *)
Definition make_periods (bounds : list Z) : outcome (list Z) :=
  let nperiod := Z.of_nat (length bounds) in
  periods ← np_full nperiod 0;
  for_range (fun p periods => b ← py_getitem bounds p; py_setitem periods p b)
            0 (Z.to_nat nperiod) periods.

(** Lines 178-187 *)
Definition make_detweights (self : OpMadam) (tod : TOD) (ndet : Z)
  : outcome (list Q) :=
  detw ← match _detw self with
         | None =>
             for_range (fun d detw => det ← py_getitem (tod_detectors tod) d;
                                      Ok (dict_set detw det 1%Q))
                       0 (Z.to_nat ndet) []
         | Some w => Ok w
         end;
  detweights ← np_full ndet 0%Q;
  for_range (fun d detweights =>
               det ← py_getitem (tod_detectors tod) d;
               w ← dict_get detw det;
               py_setitem detweights d w)
            0 (Z.to_nat ndet) detweights.

(** The PSD arguments of the call. *)
Record PsdArgs : Type := {
  pa_npsd : list Z;
  pa_npsdtot : Z;
  pa_psdstarts : list Q;
  pa_npsdbin : Z;
  pa_psdfreqs : list Q;
  pa_npsdval : Z;
  pa_psdvals : list Q
}.

Definition Zsum (a : list Z) : Z := fold_right Z.add 0 a.

(** Lines 189-210 *)
Definition make_psd (nse : option Noise) (tod : TOD) (ndet : Z) : outcome PsdArgs :=
  match nse with
  | Some nse =>
      let nse_psdfreqs := noise_freq nse in
      let npsdbin := Z.of_nat (length nse_psdfreqs) in
      let psdfreqs := nse_psdfreqs in
      npsd ← np_full ndet 1;
      let npsdtot := Zsum npsd in
      psdstarts ← np_full npsdtot 0%Q;
      let npsdval := npsdbin * npsdtot in
      psdvals ← np_full npsdval 0%Q;
      psdvals ← for_range
                  (fun d psdvals =>
                     det ← py_getitem (tod_detectors tod) d;
                     np_setslice psdvals (d * npsdbin) ((d + 1) * npsdbin)
                       (noise_psd nse det))
                  0 (Z.to_nat ndet) psdvals;
      Ok {| pa_npsd := npsd; pa_npsdtot := npsdtot; pa_psdstarts := psdstarts;
            pa_npsdbin := npsdbin; pa_psdfreqs := psdfreqs;
            pa_npsdval := npsdval; pa_psdvals := psdvals |}
  | None =>
      npsd ← np_full ndet 1;
      let npsdtot := Zsum npsd in
      psdstarts ← np_full npsdtot 0%Q;
      let npsdbin := 10 in
      let fsample := 10%Q in
      let psdfreqs :=
        map (fun i => (inject_Z (Z.of_nat i) * fsample / inject_Z npsdbin)%Q)
            (seq 0 (Z.to_nat npsdbin)) in
      let npsdval := npsdbin * npsdtot in
      psdvals ← np_full npsdval 1%Q;
      Ok {| pa_npsd := npsd; pa_npsdtot := npsdtot; pa_psdstarts := psdstarts;
            pa_npsdbin := npsdbin; pa_psdfreqs := psdfreqs;
            pa_npsdval := npsdval; pa_psdvals := psdvals |}
  end.

(** [exec(data)]: the arguments handed to [libmadam.destripe], and the
    time ordered data as the call leaves it. *)
Definition exec (libmadam : bool) (self : OpMadam) (obs : list Obs)
  : outcome (DestripeCall * TOD) :=
  if negb libmadam then Raise (RuntimeError "Cannot find libmadam") else
  if negb (Nat.eqb (length obs) 1)
  then Raise (RuntimeError "Madam requires a single observation") else
  ob0 ← py_getitem obs 0;
  tod ← match obs_tod ob0 with
        | Some tod => Ok tod
        | None => Raise (KeyError "tod")
        end;
  if negb (tod_timedist tod)
  then Raise (RuntimeError "Madam requires data to be distributed by time") else
  let intervals :=
    match obs_intervals ob0 with
    | Some intervals => intervals
    | None => default_intervals tod
    end in
  let nse := obs_noise ob0 in
  let todfcomm := tod_py2f tod in
  let ndet := Z.of_nat (length (tod_detectors tod)) in
  let nlocal := snd (tod_local_samples tod) in
  det0 ← py_getitem (tod_detectors tod) 0;
  nnz ← tod_pmat_nnz tod (_pmat self) det0;
  let parstring := _dict2parstring (_params self) in
  let detstring := _dets2detstring (tod_detectors tod) in
  timestamps ← tod_read_times tod 0 nlocal;
  signal ← np_full (ndet * nlocal) 0%Q;
  flags ← np_full (ndet * nlocal) 0;
  pixels ← np_full (ndet * nlocal) 0;
  pixweights ← np_full (ndet * nlocal * nnz) 0%Q;
  b ← for_range (read_detector self nlocal nnz) 0 (Z.to_nat ndet)
        {| b_tod := tod; b_signal := signal; b_flags := flags;
           b_pixels := pixels; b_pixweights := pixweights |};
  let tod := b_tod b in
  '(pixels, pixweights) ← apply_flags (b_flags b) nnz (b_pixels b) (b_pixweights b);
  let bounds := local_bounds intervals (tod_local_samples tod) in
  let nperiod := Z.of_nat (length bounds) in
  periods ← make_periods bounds;
  detweights ← make_detweights self tod ndet;
  psd ← make_psd nse tod ndet;
  Ok ({| dc_todfcomm := todfcomm;
         dc_parstring := parstring;
         dc_ndet := ndet;
         dc_detstring := detstring;
         dc_detweights := detweights;
         dc_nlocal := nlocal;
         dc_nnz := nnz;
         dc_timestamps := timestamps;
         dc_pixels := pixels;
         dc_pixweights := pixweights;
         dc_signal := b_signal b;
         dc_nperiod := nperiod;
         dc_periods := periods;
         dc_npsd := pa_npsd psd;
         dc_npsdtot := pa_npsdtot psd;
         dc_psdstarts := pa_psdstarts psd;
         dc_npsdbin := pa_npsdbin psd;
         dc_psdfreqs := pa_psdfreqs psd;
         dc_npsdval := pa_npsdval psd;
         dc_psdvals := pa_psdvals psd |}, tod).

End WithTod.

(** The character [c] does not occur in [s]. *)
Fixpoint free_of (c : Ascii.ascii) (s : string) : Prop :=
  match s with
  | EmptyString => True
  | String a s' => a <> c /\ free_of c s'
  end.

(** A small time ordered data object, for running the model: two
    detectors of three local samples with two pointing weights each; the
    second sample of the first detector is flagged.  Clearing records the
    detector. *)
Record SampleTod : Type := {
  st_cleared : list string;
  st_cleared_pmat : list string
}.

#[local] Instance sample_tod_lib : TodLib := {|
  TOD := SampleTod;
  DEFAULT_FLAVOR := "default";
  tod_timedist := fun _ => true;
  tod_total_samples := fun _ => 10;
  tod_py2f := fun _ => 0;
  tod_detectors := fun _ => ["a"; "b"];
  tod_local_samples := fun _ => (4, 3);
  tod_pmat_nnz := fun _ _ _ => Ok 2;
  tod_read_times := fun _ _ _ => Ok [4%Q; 5%Q; 6%Q];
  tod_read := fun _ det _ _ _ =>
    if String.eqb det "a" then Ok ([1%Q; 2%Q; 3%Q], [0; 1; 0])
    else Ok ([7%Q; 8%Q; 9%Q], [0; 0; 0]);
  tod_read_pmat := fun _ _ _ _ _ =>
    Ok ([10; 11; 12], [1%Q; 1%Q; 1%Q; 1%Q; 1%Q; 1%Q]);
  tod_clear := fun t det _ =>
    Ok {| st_cleared := st_cleared t ++ [det];
          st_cleared_pmat := st_cleared_pmat t |};
  tod_clear_pmat := fun t _ det =>
    Ok {| st_cleared := st_cleared t;
          st_cleared_pmat := st_cleared_pmat t ++ [det] |}
|}.

Definition sample_tod : SampleTod := {| st_cleared := []; st_cleared_pmat := [] |}.

Definition sample_obs : Obs :=
  {| obs_tod := Some sample_tod; obs_intervals := None; obs_noise := None |}.

End Madam.

(** * Properties *)

Lemma fftlen_loop_inv (fuel : nat) :
  forall k target,
    1 <= k ->
    (k = 1 \/ 2 ^ (k - 1) <= target) ->
    Z.log2 target < k - 1 + Z.of_nat fuel ->
    exists m, fftlen_loop fuel (2 ^ k) target = Some (2 ^ m) /\
              k <= m /\ target < 2 ^ m /\ (m = 1 \/ 2 ^ (m - 1) <= target).
Proof.
  induction fuel as [|fuel IH]; intros k target Hk Hlow Hfuel.
  - exfalso. pose proof (Z.log2_nonneg target) as Hnn.
    destruct Hlow as [->|Hlow]; [lia|].
    assert (0 < target) as Hpos
      by (pose proof (Z.pow_pos_nonneg 2 (k - 1)); lia).
    apply (Z.log2_le_pow2 target (k - 1) Hpos) in Hlow. lia.
  - cbn [fftlen_loop]. destruct (Z.leb_spec (2 ^ k) target) as [Hle|Hgt].
    + assert (0 < target) as Hpos
        by (pose proof (Z.pow_pos_nonneg 2 k); lia).
      pose proof (proj1 (Z.log2_le_pow2 target k Hpos) Hle) as Hlog.
      replace (2 ^ k * 2) with (2 ^ (k + 1))
        by (rewrite Z.pow_add_r by lia; lia).
      destruct (IH (k + 1) target) as (m & Hm & Hkm & Hlt & Hmin).
      * lia.
      * right. replace (k + 1 - 1) with k by lia. exact Hle.
      * lia.
      * exists m. repeat split; [exact Hm | lia | exact Hlt | exact Hmin].
    + exists k. repeat split; [lia | exact Hgt | exact Hlow].
Qed.

Lemma fft_length_spec (oversample samples : Z) :
  exists n, fft_length oversample samples = Some n /\
            smallest_pow2_gt (oversample * samples) n.
Proof.
  unfold fft_length, fft_fuel. set (target := oversample * samples).
  destruct (fftlen_loop_inv (S (Z.to_nat (Z.log2 target))) 1 target)
    as (m & Hm & Hkm & Hlt & Hmin).
  - lia.
  - left; reflexivity.
  - pose proof (Z.log2_nonneg target). lia.
  - exists (2 ^ m). split; [exact Hm|]. split; [|split].
    + exists m. split; [lia | reflexivity].
    + exact Hlt.
    + intros j Hj Hjt. apply Z.pow_le_mono_r; [lia|].
      destruct Hmin as [->|Hmin]; [lia|].
      assert (2 ^ (m - 1) < 2 ^ j) as Hpow by lia.
      apply Z.pow_lt_mono_r_iff in Hpow; lia.
Qed.

Lemma fft_length_even (oversample samples n : Z) :
  fft_length oversample samples = Some n ->
  2 <= n /\ n / 2 * 2 = n.
Proof.
  intros Hn. destruct (fft_length_spec oversample samples) as (n' & Hn' & Hs).
  rewrite Hn in Hn'. injection Hn' as <-.
  destruct Hs as ((k & Hk & ->) & _ & _).
  replace k with (1 + (k - 1)) by lia.
  rewrite Z.pow_add_r by lia. change (2 ^ 1) with 2.
  pose proof (Z.pow_pos_nonneg 2 (k - 1)).
  rewrite Z.mul_comm, Z.div_mul by lia. lia.
Qed.

(** ** Rational comparisons and minima *)

Lemma Qltb_lt (x y : Q) : Qltb x y = true <-> (x < y)%Q.
Proof.
  unfold Qltb. rewrite negb_true_iff, <- not_true_iff_false, Qle_bool_iff.
  split; [apply Qnot_le_lt | apply Qlt_not_le].
Qed.

Lemma Qltb_ge (x y : Q) : Qltb x y = false <-> (y <= x)%Q.
Proof.
  unfold Qltb. rewrite negb_false_iff, Qle_bool_iff. reflexivity.
Qed.

Lemma fold_Qmin_lt (c : Q) (xs : list Q) :
  forall x, (fold_left Qmin xs x < c)%Q <-> (x < c)%Q \/ Exists (fun y => (y < c)%Q) xs.
Proof.
  induction xs as [|y xs IH]; intros x; cbn [fold_left].
  - rewrite Exists_nil. tauto.
  - rewrite IH, Q.min_lt_iff, Exists_cons. tauto.
Qed.

Lemma np_amin_lt (c : Q) (a : list Q) (m : Q) :
  np_amin a = Ok m -> ((m < c)%Q <-> Exists (fun y => (y < c)%Q) a).
Proof.
  destruct a as [|x xs]; [discriminate|]. cbn [np_amin]. intros [= <-].
  rewrite fold_Qmin_lt, Exists_cons. tauto.
Qed.

Lemma np_amin_nonempty (a : list Q) :
  a <> [] -> exists m, np_amin a = Ok m.
Proof. destruct a as [|x xs]; [congruence|]. intros _. eexists. reflexivity. Qed.

Lemma np_amin_empty_inv (a : list Q) : is_value_error (np_amin a) <-> a = [].
Proof. destruct a; cbn; split; intros; try tauto; congruence. Qed.

Lemma py_div_ok (x y : Q) : ~ (y == 0)%Q -> py_div x y = Ok (x / y)%Q.
Proof.
  intros Hy. unfold py_div. destruct (Qeq_bool y 0) eqn:E; [|reflexivity].
  apply Qeq_bool_iff in E. contradiction.
Qed.

(** ** Indexing *)

Lemma py_getitem_first {A} (x : A) (xs : list A) :
  py_getitem (x :: xs) 0 = Ok x.
Proof.
  unfold py_getitem. cbn [length]. 
  replace (0 <? 0) with false by reflexivity.
  destruct (Z.leb_spec (Z.of_nat (S (length xs))) 0); [lia|]. reflexivity.
Qed.

Lemma py_getitem_nth {A} (a : list A) (i : Z) (x : A) :
  0 <= i -> a !! Z.to_nat i = Some x -> py_getitem a i = Ok x.
Proof.
  intros Hi Hx. unfold py_getitem.
  pose proof (lookup_lt_Some _ _ _ Hx) as Hlt.
  destruct (Z.ltb_spec i 0); [lia|].
  destruct (Z.ltb_spec i 0); [lia|].
  destruct (Z.leb_spec (Z.of_nat (length a)) i); [lia|].
  cbn. rewrite Hx. reflexivity.
Qed.

Lemma py_getitem_last {A} (a : list A) (x : A) :
  last a = Some x -> py_getitem a (-1) = Ok x.
Proof.
  intros Hx. unfold py_getitem.
  assert (a <> []) as Hne by (intros ->; discriminate).
  assert (0 < length a)%nat as Hlen by (destruct a; [congruence | cbn; lia]).
  replace (-1 <? 0) with true by reflexivity.
  destruct (Z.ltb_spec (-1 + Z.of_nat (length a)) 0); [lia|].
  destruct (Z.leb_spec (Z.of_nat (length a)) (-1 + Z.of_nat (length a))); [lia|].
  cbn. rewrite last_lookup in Hx.
  replace (Z.to_nat (-1 + Z.of_nat (length a))) with (Nat.pred (length a)) by lia.
  rewrite Hx. reflexivity.
Qed.

Lemma py_setitem_first {A} (x y : A) (xs : list A) :
  py_setitem (x :: xs) 0 y = Ok (y :: xs).
Proof.
  unfold py_setitem. cbn [length].
  replace (0 <? 0) with false by reflexivity.
  destruct (Z.leb_spec (Z.of_nat (S (length xs))) 0); [lia|]. reflexivity.
Qed.

(** ** The interpolation of the PSD *)

Section InterpolatePsd.
Context `{Numerics}.

Lemma np_rfftfreq_ok (n : Z) (d : Q) :
  ~ (inject_Z n * d == 0)%Q ->
  exists l, np_rfftfreq n d = Ok l /\ length l = Z.to_nat (n / 2 + 1).
Proof.
  intros Hnz. unfold np_rfftfreq. rewrite (py_div_ok _ _ Hnz). cbn.
  eexists. split; [reflexivity|]. rewrite length_map, length_seq. reflexivity.
Qed.

Lemma rfftfreq_divisor (n : Z) (rate : Q) :
  2 <= n -> ~ (rate == 0)%Q -> ~ (inject_Z n * (1 / rate) == 0)%Q.
Proof.
  intros Hn Hrate Hz. apply Qmult_integral in Hz. destruct Hz as [Hz|Hz].
  - unfold Qeq, inject_Z in Hz. cbn in Hz. lia.
  - apply Hrate. unfold Qdiv in Hz. rewrite Qmult_1_l in Hz.
    rewrite <- (Qinv_involutive rate), Hz. reflexivity.
Qed.

Lemma amin_positive_ok (psd : list Q) :
  psd_positive psd ->
  exists m, np_amin (filter (fun p => Qltb 0 p = true) psd) = Ok m.
Proof.
  intros Hpos. apply np_amin_nonempty. intros Hnil.
  apply Exists_exists in Hpos. destruct Hpos as (p & Hin & Hp).
  assert (p ∈ filter (fun p => Qltb 0 p = true) psd) as Hmem.
  { apply list_elem_of_filter. split; [apply Qltb_lt; exact Hp | exact Hin]. }
  rewrite Hnil in Hmem. inversion Hmem.
Qed.

Lemma amin_positive_fail (psd : list Q) :
  ~ psd_positive psd ->
  exists msg, np_amin (filter (fun p => Qltb 0 p = true) psd) = Raise (ValueError msg).
Proof.
  intros Hnone.
  destruct (filter (fun p => Qltb 0 p = true) psd) as [|p l] eqn:E;
    [eexists; reflexivity|].
  exfalso. apply Hnone.
  assert (p ∈ filter (fun p => Qltb 0 p = true) psd) as Hmem
    by (rewrite E; left).
  apply list_elem_of_filter in Hmem. destruct Hmem as [Hp Hin].
  apply Exists_exists. exists p. split; [exact Hin|].
  apply Qltb_lt. exact Hp.
Qed.

Lemma bind_Ok {A B} (a : A) (k : A -> outcome B) : (Ok a ≫= k) = k a.
Proof. reflexivity. Qed.

Lemma bind_Raise {A B} (e : exn) (k : A -> outcome B) : (Raise e ≫= k) = Raise e.
Proof. reflexivity. Qed.

Lemma load_global_si :
  load_global "si" = Raise (NameError "name 'si' is not defined").
Proof. reflexivity. Qed.

Lemma load_global_rng :
  load_global "rng" = Raise (NameError "name 'rng' is not defined").
Proof. reflexivity. Qed.

Lemma interpolate_psd_classified (rate : Q) (fftlen : Z) (freq psd : list Q) :
  ~ (rate == 0)%Q -> 2 <= fftlen -> freq <> [] -> psd <> [] ->
  interpolate_psd_class rate fftlen (npsd_of fftlen) freq psd
    (interpolate_psd rate fftlen (npsd_of fftlen) freq psd).
Proof.
  intros Hrate Hn Hf Hp. unfold interpolate_psd.
  rewrite (py_div_ok 1 rate Hrate), bind_Ok.
  destruct (np_rfftfreq_ok fftlen (1 / rate) (rfftfreq_divisor _ _ Hn Hrate))
    as (ifreq & Hif & Hlen).
  rewrite Hif, bind_Ok.
  assert (0 <= fftlen / 2) as Hhalf by (apply Z.div_pos; lia).
  assert (Z.of_nat (length ifreq) = npsd_of fftlen) as Hlen'
    by (rewrite Hlen; unfold npsd_of; lia).
  rewrite Hlen', Z.eqb_refl. cbn [negb].
  destruct (np_amin_nonempty freq Hf) as (fmin & Hfmin).
  rewrite Hfmin, bind_Ok.
  destruct (Qltb fmin 0) eqn:E1.
  { left. apply (np_amin_lt 0 freq fmin Hfmin). apply Qltb_lt. exact E1. }
  assert (~ freq_negative freq) as N1.
  { intros Hneg. apply (np_amin_lt 0 freq fmin Hfmin) in Hneg.
    apply Qltb_lt in Hneg. congruence. }
  destruct (np_amin_nonempty psd Hp) as (pmin & Hpmin).
  rewrite Hpmin, bind_Ok.
  destruct (Qltb pmin 0) eqn:E2.
  { right; left. apply (np_amin_lt 0 psd pmin Hpmin). apply Qltb_lt. exact E2. }
  assert (~ psd_negative psd) as N2.
  { intros Hneg. apply (np_amin_lt 0 psd pmin Hpmin) in Hneg.
    apply Qltb_lt in Hneg. congruence. }
  assert (~ (inject_Z fftlen == 0)%Q) as Hfz
    by (unfold Qeq, inject_Z; cbn; lia).
  rewrite (py_div_ok rate _ Hfz), bind_Ok.
  destruct freq as [|f0 freq']; [congruence|].
  rewrite py_getitem_first, bind_Ok.
  destruct (Qltb (rate / inject_Z fftlen) f0) eqn:E3.
  { right; right; left. exists f0. split; [reflexivity|]. apply Qltb_lt. exact E3. }
  assert (~ low_freq_uncovered rate fftlen (f0 :: freq')) as N3.
  { intros (f & [= <-] & Hlt). apply Qltb_lt in Hlt. congruence. }
  assert (~ (2 == 0)%Q) as H2 by discriminate.
  rewrite (py_div_ok rate 2 H2), bind_Ok.
  destruct (last (f0 :: freq')) as [fl|] eqn:Elast;
    [|apply last_None in Elast; discriminate].
  rewrite (py_getitem_last _ _ Elast), bind_Ok.
  destruct (Qltb (1 # 100) (Qabs ((fl - rate / 2) / (rate / 2)))) eqn:E4.
  { right; right; right. exists fl. split; [exact Elast|]. apply Qltb_lt. exact E4. }
  assert (~ nyquist_mismatch rate (f0 :: freq')) as N4.
  { intros (f & Hf' & Hlt). rewrite Elast in Hf'. injection Hf' as <-.
    apply Qltb_lt in Hlt. congruence. }
  assert (~ precondition_violated rate fftlen (f0 :: freq') psd) as NV
    by (unfold precondition_violated; tauto).
  destruct (List.Exists_dec (fun p => (0 < p)%Q) psd) as [Hpos|Hnone].
  { intros p. destruct (Qlt_le_dec 0 p); [left; assumption | right].
    apply Qle_not_lt. assumption. }
  2:{ destruct (amin_positive_fail psd Hnone) as (msg & Hfail).
      rewrite Hfail, bind_Raise. split; [exact NV | exact Hnone]. }
  destruct (amin_positive_ok psd Hpos) as (ppos & Hppos).
  rewrite Hppos, bind_Ok. cbv zeta.
  unfold si_interp1d. rewrite load_global_si, !bind_Raise.
  cbn [interpolate_psd_class]. repeat split; assumption.
Qed.

End InterpolatePsd.

(** ** Packing the Gaussian samples into the spectrum *)

Lemma lookup_nth_Some {A} (l : list A) (i : nat) (d : A) :
  (i < length l)%nat -> l !! i = Some (nth i l d).
Proof.
  intros Hi. destruct (lookup_lt_is_Some_2 l i Hi) as [x Hx].
  rewrite Hx. f_equal. symmetry. apply nth_lookup_Some with (d := d) in Hx. exact Hx.
Qed.

Lemma pack_fdata_spec (N : nat) (rngdata : list Q) :
  (2 <= N)%nat -> length rngdata = (2 * (N - 1))%nat ->
  exists fdata,
    pack_fdata (Z.of_nat N) rngdata = Ok fdata /\
    length fdata = N /\
    fdata !! 0%nat = Some (nth 0 rngdata 0%Q, 0%Q) /\
    fdata !! (N - 1)%nat = Some (nth (N - 1) rngdata 0%Q, 0%Q) /\
    forall i, (1 <= i <= N - 2)%nat ->
      fdata !! i = Some (nth i rngdata 0%Q, nth (2 * (N - 1) - i) rngdata 0%Q).
Proof.
  intros HN HL. unfold pack_fdata.
  rewrite (py_getitem_nth rngdata 0 (nth 0 rngdata 0%Q)); [|lia|].
  2:{ apply lookup_nth_Some. lia. }
  rewrite bind_Ok.
  unfold np_zeros. rewrite Nat2Z.id.
  destruct N as [|N']; [lia|]. cbn [replicate].
  rewrite py_setitem_first, bind_Ok.
  rewrite (py_getitem_nth rngdata (Z.of_nat (S N') - 1) (nth (S N' - 1) rngdata 0%Q));
    [|lia|].
  2:{ replace (Z.to_nat (Z.of_nat (S N') - 1)) with (S N' - 1)%nat by lia.
      apply lookup_nth_Some. lia. }
  rewrite bind_Ok.
  unfold py_setitem. cbn [length]. rewrite length_replicate.
  replace (-1 <? 0) with true by reflexivity.
  destruct (Z.ltb_spec (-1 + Z.of_nat (S N')) 0); [lia|].
  destruct (Z.leb_spec (Z.of_nat (S N')) (-1 + Z.of_nat (S N'))); [lia|].
  cbn [orb]. rewrite bind_Ok.
  replace (Z.to_nat (-1 + Z.of_nat (S N'))) with N' by lia.
  unfold py_slice, py_slice_rev, slice_bound, slice_bound_rev. rewrite HL.
  replace (1 <? 0) with false by reflexivity.
  replace (-1 <? 0) with true by reflexivity.
  destruct (Z.ltb_spec (Z.of_nat (S N') - 1) 0); [lia|].
  replace (Z.to_nat (Z.min (Z.of_nat (S N') - 1) (Z.of_nat (2 * (S N' - 1)))
                     - Z.min 1 (Z.of_nat (2 * (S N' - 1))))) with (N' - 1)%nat by lia.
  replace (Z.to_nat (Z.min 1 (Z.of_nat (2 * (S N' - 1))))) with 1%nat by lia.
  replace (Z.to_nat (Z.max (-1 + Z.of_nat (2 * (S N' - 1))) (-1)
                     - Z.min (Z.of_nat (S N') - 1) (Z.of_nat (2 * (S N' - 1)) - 1)))
    with (N' - 1)%nat by lia.
  replace (Z.to_nat (Z.min (Z.of_nat (S N') - 1) (Z.of_nat (2 * (S N' - 1)) - 1) + 1))
    with (S N') by lia.
  set (fwd := take (N' - 1) (drop 1 rngdata)).
  set (bwd := reverse (take (N' - 1) (drop (S N') rngdata))).
  assert (length fwd = (N' - 1)%nat) as Hfwd
    by (unfold fwd; rewrite length_take, length_drop; lia).
  assert (length bwd = (N' - 1)%nat) as Hbwd
    by (unfold bwd; rewrite length_reverse, length_take, length_drop; lia).
  unfold np_broadcast2. rewrite Hfwd, Hbwd, Nat.eqb_refl, bind_Ok.
  unfold np_setslice. rewrite length_insert. cbn [length]. rewrite length_replicate.
  rewrite length_zip_with, Hfwd, Hbwd.
  replace (Z.to_nat (slice_bound (Z.of_nat (S N')) (-1) - slice_bound (Z.of_nat (S N')) 1))
    with (N' - 1)%nat by (unfold slice_bound; cbn [Z.ltb Z.compare]; lia).
  replace (Z.to_nat (slice_bound (Z.of_nat (S N')) 1)) with 1%nat
    by (unfold slice_bound; cbn [Z.ltb Z.compare]; lia).
  replace (Nat.min (N' - 1) (N' - 1)) with (N' - 1)%nat by lia.
  rewrite Nat.eqb_refl.
  eexists. split; [reflexivity|].
  set (zs := replicate N' (0%Q, 0%Q)).
  set (base := <[N' := (nth (S N' - 1) rngdata 0%Q, 0%Q)]> ((nth 0 rngdata 0%Q, 0%Q) :: zs)).
  assert (length base = S N') as Hbase
    by (unfold base, zs; rewrite length_insert; cbn [length]; rewrite length_replicate; lia).
  assert (length (zip_with (fun re im : Q => (re, im)) fwd bwd) = (N' - 1)%nat) as Hzip
    by (rewrite length_zip_with; lia).
  assert (take 1 base = [(nth 0 rngdata 0%Q, 0%Q)]) as Htake.
  { unfold base. destruct N' as [|N'']; [lia|]. reflexivity. }
  rewrite Htake.
  assert (drop (1 + (N' - 1)) base = [(nth (S N' - 1) rngdata 0%Q, 0%Q)]) as Hdrop.
  { replace (1 + (N' - 1))%nat with N' by lia.
    apply list_eq. intros i. rewrite lookup_drop. unfold base.
    destruct i as [|i].
    - rewrite Nat.add_0_r, list_lookup_insert_eq; [reflexivity|].
      cbn [length]. unfold zs. rewrite length_replicate. lia.
    - transitivity (@None complex); [|symmetry]; apply lookup_ge_None_2.
      + rewrite length_insert. cbn [length]. unfold zs.
        rewrite length_replicate. lia.
      + cbn [length]. lia. }
  rewrite Hdrop.
  split; [|split; [|split]].
  - rewrite !length_app, Hzip. cbn [length]. lia.
  - reflexivity.
  - rewrite lookup_app_r by (cbn [length]; lia).
    rewrite lookup_app_r by (rewrite Hzip; cbn [length]; lia).
    rewrite Hzip. cbn [length].
    replace (S N' - 1 - 1 - (N' - 1))%nat with 0%nat by lia. reflexivity.
  - intros i Hi.
    rewrite lookup_app_r by (cbn [length]; lia).
    rewrite lookup_app_l by (rewrite Hzip; cbn [length]; lia).
    cbn [length]. rewrite lookup_zip_with.
    assert (fwd !! (i - 1)%nat = Some (nth i rngdata 0%Q)) as ->.
    { unfold fwd. rewrite lookup_take_lt by lia. rewrite lookup_drop.
      replace (1 + (i - 1))%nat with i by lia.
      apply lookup_nth_Some. lia. }
    assert (bwd !! (i - 1)%nat = Some (nth (2 * (S N' - 1) - i) rngdata 0%Q)) as ->.
    { unfold bwd. rewrite reverse_lookup by (rewrite length_take, length_drop; lia).
      rewrite length_take, length_drop, HL.
      rewrite lookup_take_lt by lia. rewrite lookup_drop.
      replace (S N' + (Nat.min (N' - 1) (2 * (S N' - 1) - S N') - S (i - 1)))%nat
        with (2 * (S N' - 1) - i)%nat by lia.
      apply lookup_nth_Some. lia. }
    reflexivity.
Qed.

(** ** Cropping and mean removal *)

Lemma Qsum_shift (c : Q) (w : list Q) :
  (Qsum (map (fun x => x - c) w) == Qsum w - inject_Z (Z.of_nat (length w)) * c)%Q.
Proof.
  induction w as [|x w IH].
  - cbn. ring.
  - cbn [map Qsum fold_right length]. fold (Qsum (map (fun x => (x - c)%Q) w)).
    fold (Qsum w). rewrite IH, Nat2Z.inj_succ, <- Z.add_1_r, inject_Z_plus. ring.
Qed.

Lemma np_mean_centered (w : list Q) :
  w <> [] -> (np_mean (map (fun x => x - np_mean w) w) == 0)%Q.
Proof.
  intros Hw. unfold np_mean at 1. rewrite Qsum_shift, length_map.
  assert (~ (inject_Z (Z.of_nat (length w)) == 0)%Q) as Hn.
  { destruct w; [congruence|]. unfold Qeq, inject_Z. cbn. lia. }
  unfold np_mean. field. exact Hn.
Qed.

Lemma crop_window_spec (tdata : list Q) (fftlen samples : Z) :
  0 <= samples <= fftlen -> Z.of_nat (length tdata) = fftlen ->
  let w := take (Z.to_nat samples) (drop (Z.to_nat ((fftlen - samples) / 2)) tdata) in
  crop_window tdata fftlen samples = map (fun x => (x - np_mean w)%Q) w /\
  length w = Z.to_nat samples.
Proof.
  intros Hs Hlen. cbv zeta.
  set (offset := (fftlen - samples) / 2).
  assert (0 <= offset) as Ho by (apply Z.div_pos; lia).
  assert (offset + samples <= fftlen) as Hstop.
  { assert (offset * 2 <= fftlen - samples); [|lia].
    unfold offset. rewrite Z.mul_comm. apply Z.mul_div_le. lia. }
  set (w := take (Z.to_nat samples) (drop (Z.to_nat offset) tdata)).
  assert (length w = Z.to_nat samples) as Hw
    by (unfold w; rewrite length_take, length_drop; lia).
  split; [|exact Hw].
  unfold crop_window. fold offset.
  assert (forall a : list Q, Z.of_nat (length a) = fftlen ->
            py_slice a offset (offset + samples)
            = take (Z.to_nat samples) (drop (Z.to_nat offset) a)) as Hslice.
  { intros a Ha. unfold py_slice, slice_bound. rewrite Ha.
    destruct (Z.ltb_spec offset 0); [lia|].
    destruct (Z.ltb_spec (offset + samples) 0); [lia|].
    rewrite !Z.min_l by lia. f_equal. lia. }
  rewrite (Hslice tdata Hlen). fold w.
  unfold np_isub_slice, slice_bound. rewrite Hlen.
  destruct (Z.ltb_spec offset 0); [lia|].
  destruct (Z.ltb_spec (offset + samples) 0); [lia|].
  rewrite !Z.min_l by lia.
  replace (Z.to_nat (offset + samples - offset)) with (Z.to_nat samples) by lia.
  fold w.
  rewrite Hslice.
  2:{ rewrite !length_app, length_map, length_take, length_drop, Hw. lia. }
  rewrite drop_app_length' by (rewrite length_take; lia).
  rewrite take_app_length' by (rewrite length_map; lia).
  reflexivity.
Qed.

(** ** The python branch as a whole *)

Section SimPy.
Context `{Numerics}.

Lemma sim_noise_timestream_py_classified
    (realization telescope component obsindx detindx : Z) (rate : Q)
    (firstsamp samples oversample : Z) (freq psd : list Q) :
  ~ (rate == 0)%Q -> freq <> [] -> psd <> [] ->
  exists fftlen,
    fft_length oversample samples = Some fftlen /\
    smallest_pow2_gt (oversample * samples) fftlen /\
    sim_py_class rate fftlen freq psd
      (sim_noise_timestream_py realization telescope component obsindx detindx
         rate firstsamp samples oversample freq psd).
Proof.
  intros Hrate Hf Hp.
  destruct (fft_length_spec oversample samples) as (fftlen & Hfft & Hspec).
  exists fftlen. split; [exact Hfft|]. split; [exact Hspec|].
  destruct (fft_length_even _ _ _ Hfft) as [H2 Heven].
  unfold sim_noise_timestream_py. rewrite Hfft. cbn [from_fuel].
  rewrite bind_Ok. cbv zeta.
  pose proof (interpolate_psd_classified rate fftlen freq psd Hrate H2 Hf Hp) as Hc.
  destruct (interpolate_psd rate fftlen (npsd_of fftlen) freq psd)
    as [[ifreq ipsd]|e|]; [contradiction| |contradiction].
  rewrite bind_Raise. destruct e; cbn in Hc |- *; exact Hc.
Qed.

End SimPy.

(** ** No call of the python branch returns *)

Section SimPyRaises.
Context `{Numerics}.

Lemma bind_Ok_inv {A B} (m : outcome A) (k : A -> outcome B) (b : B) :
  (m ≫= k) = Ok b -> exists a, m = Ok a /\ k a = Ok b.
Proof. destruct m as [a|e|]; [|discriminate..]. intros Hk. exists a. auto. Qed.

Lemma interpolate_psd_not_Ok (rate : Q) (fftlen npsd : Z) (freq psd : list Q)
    (r : list Q * list Q) :
  interpolate_psd rate fftlen npsd freq psd <> Ok r.
Proof.
  unfold interpolate_psd. intros Hok.
  apply bind_Ok_inv in Hok. destruct Hok as (d & Hd & Hok).
  apply bind_Ok_inv in Hok. destruct Hok as (ifreq & Hif & Hok).
  destruct (negb _); [discriminate|].
  apply bind_Ok_inv in Hok. destruct Hok as (fmin & Hfmin & Hok).
  destruct (Qltb fmin 0); [discriminate|].
  apply bind_Ok_inv in Hok. destruct Hok as (pmin & Hpmin & Hok).
  destruct (Qltb pmin 0); [discriminate|].
  apply bind_Ok_inv in Hok. destruct Hok as (inc & Hinc & Hok).
  apply bind_Ok_inv in Hok. destruct Hok as (f0 & Hf0 & Hok).
  destruct (Qltb inc f0); [discriminate|].
  apply bind_Ok_inv in Hok. destruct Hok as (nyq & Hnyq & Hok).
  apply bind_Ok_inv in Hok. destruct Hok as (fl & Hfl & Hok).
  destruct (Qltb _ _); [discriminate|].
  apply bind_Ok_inv in Hok. destruct Hok as (ppos & Hppos & Hok).
  cbv zeta in Hok.
  apply bind_Ok_inv in Hok. destruct Hok as (interp & Hinterp & Hok).
  unfold si_interp1d in Hinterp. rewrite load_global_si in Hinterp. discriminate.
Qed.

Lemma py_div_fuel (x y : Q) : py_div x y <> OutOfFuel.
Proof. unfold py_div. destruct (Qeq_bool y 0); discriminate. Qed.

Lemma py_getitem_fuel {A} (a : list A) (i : Z) : py_getitem a i <> OutOfFuel.
Proof.
  unfold py_getitem. destruct (_ || _); [discriminate|].
  destruct (a !! _); discriminate.
Qed.

Lemma np_amin_fuel (a : list Q) : np_amin a <> OutOfFuel.
Proof. destruct a; discriminate. Qed.

Lemma np_rfftfreq_fuel (n : Z) (d : Q) : np_rfftfreq n d <> OutOfFuel.
Proof.
  unfold np_rfftfreq. pose proof (py_div_fuel 1 (inject_Z n * d)) as Hd.
  destruct (py_div 1 (inject_Z n * d)); [discriminate | discriminate | congruence].
Qed.

(** A step that has fuel, followed by steps that have, has fuel. *)
Lemma bind_fuel {A B} (m : outcome A) (k : A -> outcome B) :
  m <> OutOfFuel -> (forall a, k a <> OutOfFuel) -> (m ≫= k) <> OutOfFuel.
Proof. destruct m as [a|e|]; [intros _ Hk; apply Hk | discriminate | congruence]. Qed.

Lemma interpolate_psd_fuel (rate : Q) (fftlen npsd : Z) (freq psd : list Q) :
  interpolate_psd rate fftlen npsd freq psd <> OutOfFuel.
Proof.
  unfold interpolate_psd.
  apply bind_fuel; [apply py_div_fuel | intros d].
  apply bind_fuel; [apply np_rfftfreq_fuel | intros ifreq].
  destruct (negb _); [discriminate|].
  apply bind_fuel; [apply np_amin_fuel | intros fmin].
  destruct (Qltb fmin 0); [discriminate|].
  apply bind_fuel; [apply np_amin_fuel | intros pmin].
  destruct (Qltb pmin 0); [discriminate|].
  apply bind_fuel; [apply py_div_fuel | intros inc].
  apply bind_fuel; [apply py_getitem_fuel | intros f0].
  destruct (Qltb inc f0); [discriminate|].
  apply bind_fuel; [apply py_div_fuel | intros nyq].
  apply bind_fuel; [apply py_getitem_fuel | intros fl].
  destruct (Qltb _ _); [discriminate|].
  apply bind_fuel; [apply np_amin_fuel | intros ppos].
  cbv zeta. unfold si_interp1d. rewrite load_global_si, !bind_Raise. discriminate.
Qed.

Lemma interpolate_psd_raises (rate : Q) (fftlen npsd : Z) (freq psd : list Q) :
  exists e, interpolate_psd rate fftlen npsd freq psd = Raise e.
Proof.
  pose proof (interpolate_psd_not_Ok rate fftlen npsd freq psd) as Hok.
  pose proof (interpolate_psd_fuel rate fftlen npsd freq psd) as Hfuel.
  destruct (interpolate_psd rate fftlen npsd freq psd) as [r|e|];
    [exfalso; apply (Hok r); reflexivity | exists e; reflexivity | congruence].
Qed.

Lemma sim_noise_timestream_py_raises
    (realization telescope component obsindx detindx : Z) (rate : Q)
    (firstsamp samples oversample : Z) (freq psd : list Q) :
  exists e,
    sim_noise_timestream_py realization telescope component obsindx detindx
      rate firstsamp samples oversample freq psd = Raise e.
Proof.
  destruct (fft_length_spec oversample samples) as (fftlen & Hfft & _).
  unfold sim_noise_timestream_py. rewrite Hfft. cbn [from_fuel].
  rewrite bind_Ok. cbv zeta.
  destruct (interpolate_psd_raises rate fftlen (npsd_of fftlen) freq psd)
    as [e He].
  exists e. rewrite He. reflexivity.
Qed.

(** The outcome is decided before the identifiers and the first sample are
    used. *)
Lemma sim_noise_timestream_py_ids
    (realization telescope component obsindx detindx firstsamp : Z)
    (realization' telescope' component' obsindx' detindx' firstsamp' : Z)
    (rate : Q) (samples oversample : Z) (freq psd : list Q) :
  sim_noise_timestream_py realization telescope component obsindx detindx
    rate firstsamp samples oversample freq psd
  = sim_noise_timestream_py realization' telescope' component' obsindx' detindx'
      rate firstsamp' samples oversample freq psd.
Proof.
  destruct (fft_length_spec oversample samples) as (fftlen & Hfft & _).
  unfold sim_noise_timestream_py. rewrite Hfft. cbn [from_fuel].
  rewrite !bind_Ok. cbv zeta.
  destruct (interpolate_psd_raises rate fftlen (npsd_of fftlen) freq psd)
    as [e He].
  rewrite He. reflexivity.
Qed.

(** A table that passes the four checks and has a positive PSD value gets
    as far as the unbound name. *)
Lemma interpolate_psd_name_error (rate : Q) (fftlen : Z) (freq psd : list Q) :
  ~ (rate == 0)%Q -> 2 <= fftlen -> freq <> [] -> psd <> [] ->
  ~ precondition_violated rate fftlen freq psd -> psd_positive psd ->
  interpolate_psd rate fftlen (npsd_of fftlen) freq psd
  = Raise (NameError "name 'si' is not defined").
Proof.
  intros Hrate Hn Hf Hp NV Hpos.
  pose proof (interpolate_psd_classified rate fftlen freq psd Hrate Hn Hf Hp) as Hc.
  destruct (interpolate_psd rate fftlen (npsd_of fftlen) freq psd)
    as [[a b]|[]|]; cbn in Hc; try tauto.
  destruct Hc as (_ & _ & ->). reflexivity.
Qed.

Lemma sim_noise_timestream_py_name_error
    (realization telescope component obsindx detindx : Z) (rate : Q)
    (firstsamp samples oversample fftlen : Z) (freq psd : list Q) :
  ~ (rate == 0)%Q -> freq <> [] -> psd <> [] ->
  fft_length oversample samples = Some fftlen ->
  ~ precondition_violated rate fftlen freq psd -> psd_positive psd ->
  sim_noise_timestream_py realization telescope component obsindx detindx
    rate firstsamp samples oversample freq psd
  = Raise (NameError "name 'si' is not defined").
Proof.
  intros Hrate Hf Hp Hfft NV Hpos.
  destruct (fft_length_even _ _ _ Hfft) as [H2 _].
  unfold sim_noise_timestream_py. rewrite Hfft. cbn [from_fuel].
  rewrite bind_Ok. cbv zeta.
  rewrite (interpolate_psd_name_error rate fftlen freq psd Hrate H2 Hf Hp NV Hpos).
  reflexivity.
Qed.

End SimPyRaises.

(** ** Checking the preconditions on concrete tables *)

Lemma forallb_not_Exists_lt (l : list Q) :
  forallb (fun x => Qle_bool 0 x) l = true -> ~ Exists (fun x => (x < 0)%Q) l.
Proof.
  intros Hall Hex. apply Exists_exists in Hex. destruct Hex as (x & Hin & Hx).
  rewrite forallb_forall in Hall. apply list_elem_of_In in Hin.
  specialize (Hall x Hin). apply Qle_bool_iff in Hall.
  apply Qlt_not_le in Hx. contradiction.
Qed.

Lemma preconditions_holdb_sound (rate : Q) (fftlen : Z) (freq psd : list Q) :
  preconditions_holdb rate fftlen freq psd = true ->
  ~ precondition_violated rate fftlen freq psd.
Proof.
  unfold preconditions_holdb. rewrite !andb_true_iff.
  intros [[[Hf Hp] H0] Hl] [V|[V|[V|V]]].
  - exact (forallb_not_Exists_lt _ Hf V).
  - exact (forallb_not_Exists_lt _ Hp V).
  - destruct V as (f0 & Hh & Hlt). rewrite Hh in H0.
    apply Qle_bool_iff in H0. apply Qlt_not_le in Hlt. contradiction.
  - destruct V as (fl & Hh & Hlt). rewrite Hh in Hl.
    apply Qle_bool_iff in Hl. apply Qlt_not_le in Hlt. contradiction.
Qed.

Lemma Qlt_not_eq0 (rate : Q) : (0 < rate)%Q -> ~ (rate == 0)%Q.
Proof. intros Hlt Heq. rewrite Heq in Hlt. exact (Qlt_irrefl 0 Hlt). Qed.

(** ** The transform length *)

(** C1, as the code has it: the loop returns, and [fft_len] is the smallest
    power of two, at least 2, that is strictly greater than
    [oversample * sample_count]; for [sample_count = 1024] and
    [oversample_factor = 2] it is 4096, and [npsd] is 2049. *)
Theorem fft_length_smallest_pow2_above (oversample samples : Z) :
  (exists fftlen,
      fft_length oversample samples = Some fftlen /\
      smallest_pow2_gt (oversample * samples) fftlen) /\
  fft_length 2 1024 = Some 4096 /\ npsd_of 4096 = 2049.
Proof.
  split; [apply fft_length_spec|]. split; reflexivity.
Qed.

(** C1, as stated, fails for the request with 1024 samples and oversampling
    2: the product 2048 is itself a power of two, yet the transform length
    is 4096, which is not the smallest power of two at or above 2048. *)
Lemma fft_length_not_smallest_pow2_geq :
  fft_length 2 1024 = Some 4096 /\ npsd_of 4096 = 2049 /\
  fft_length 2 1024 <> Some 2048 /\
  ~ smallest_pow2_geq (2 * 1024) 4096.
Proof.
  split; [reflexivity|]. split; [reflexivity|]. split; [discriminate|].
  intros (_ & _ & Hmin). specialize (Hmin 11). cbn in Hmin. lia.
Qed.

(** ** Keys and counters of the generator *)

(** C5: the construction of the key and the counter (lines 140-143) is
    not reached.  On the table with frequencies 0 and 50 and PSD values 1
    and 1, at rate 100 with 3 samples and oversampling 2, the call raises
    [NameError] for [si] at line 127 whatever the identifiers and the first
    sample are; and for every input the outcome of the call is the same for
    all identifiers and first samples, so no key or counter built from them
    takes part in it. *)
Theorem key_construction_not_reached `{Numerics}
    (realization telescope component obsindx detindx firstsamp : Z) :
  sim_noise_timestream_py realization telescope component obsindx detindx
    100 firstsamp 3 2 [0%Q; 50%Q] [1%Q; 1%Q]
  = Raise (NameError "name 'si' is not defined")
  /\ forall (realization' telescope' component' obsindx' detindx' firstsamp' : Z)
       (rate : Q) (samples oversample : Z) (freq psd : list Q),
       sim_noise_timestream_py realization telescope component obsindx detindx
         rate firstsamp samples oversample freq psd
       = sim_noise_timestream_py realization' telescope' component' obsindx'
           detindx' rate firstsamp' samples oversample freq psd.
Proof.
  split.
  - apply (sim_noise_timestream_py_name_error realization telescope component
             obsindx detindx 100 firstsamp 3 2 8).
    + discriminate.
    + discriminate.
    + discriminate.
    + reflexivity.
    + apply preconditions_holdb_sound. reflexivity.
    + left. reflexivity.
  - intros. apply sim_noise_timestream_py_ids.
Qed.

(** C3, as the code has it: when telescope and component ids are below 2^16
    and detector ids below 2^32 (all ids non-negative), two requests whose
    (realization, telescope, component, observation id, detector id) tuples
    differ have different keys. *)
Theorem rng_keys_injective
    (r t c o d r' t' c' o' d' : Z) :
  0 <= r -> 0 <= t < 2 ^ 16 -> 0 <= c < 2 ^ 16 -> 0 <= o -> 0 <= d < 2 ^ 32 ->
  0 <= r' -> 0 <= t' < 2 ^ 16 -> 0 <= c' < 2 ^ 16 -> 0 <= o' -> 0 <= d' < 2 ^ 32 ->
  (r, t, c, o, d) <> (r', t', c', o', d') ->
  (rng_key1 r t c, rng_key2 o d) <> (rng_key1 r' t' c', rng_key2 o' d').
Proof.
  intros Hr Ht Hc Ho Hd Hr' Ht' Hc' Ho' Hd' Hne Hkeys.
  unfold rng_key1, rng_key2 in Hkeys. injection Hkeys as Hk1 Hk2.
  apply Hne.
  change (2 ^ 16) with 65536 in *. change (2 ^ 32) with 4294967296 in *.
  assert (o = o') by lia. assert (d = d') by lia.
  assert (r = r') by lia. assert (t = t') by lia. assert (c = c') by lia.
  congruence.
Qed.

Lemma rng_keys_injective_witness :
  (rng_key1 0 0 0, rng_key2 0 0) <> (rng_key1 0 0 1, rng_key2 0 0).
Proof.
  apply (rng_keys_injective 0 0 0 0 0 0 0 1 0 0);
    try (cbn; lia); discriminate.
Defined.

(** C3, as stated, fails: telescope 1 with component 0 and telescope 0 with
    component 65536 are different tuples of non-negative integers with the
    same key. *)
Lemma rng_keys_collide :
  (0, 1, 0, 0, 0) <> (0, 0, 65536, 0, 0) /\
  (rng_key1 0 1 0, rng_key2 0 0) = (rng_key1 0 0 65536, rng_key2 0 0).
Proof. split; [discriminate | reflexivity]. Qed.

(** ** The spectrum *)

(** C2, as the code has it: the packing of lines 149-156 builds the [npsd]
    bins from [fft_len = 2 * (npsd - 1)] drawn values, the number that line
    145 asks the generator for: bins 0 and [npsd - 1] are real (values 0
    and [npsd - 1]), and an interior bin [i] has real part value [i] and
    imaginary part value [fft_len - i], the remaining values in reverse
    order. *)
Theorem spectrum_packing (oversample samples : Z) (rngdata : list Q) :
  exists fftlen,
    fft_length oversample samples = Some fftlen /\
    fftlen = 2 * (npsd_of fftlen - 1) /\
    (Z.of_nat (length rngdata) = fftlen ->
     exists fdata,
       pack_fdata (npsd_of fftlen) rngdata = Ok fdata /\
       Z.of_nat (length fdata) = npsd_of fftlen /\
       fdata !! 0%nat = Some (nth 0 rngdata 0%Q, 0%Q) /\
       fdata !! Z.to_nat (npsd_of fftlen - 1)
         = Some (nth (Z.to_nat (npsd_of fftlen - 1)) rngdata 0%Q, 0%Q) /\
       forall i : Z, 1 <= i <= npsd_of fftlen - 2 ->
         fdata !! Z.to_nat i
         = Some (nth (Z.to_nat i) rngdata 0%Q,
                 nth (Z.to_nat (fftlen - i)) rngdata 0%Q)).
Proof.
  destruct (fft_length_spec oversample samples) as (fftlen & Hfft & Hspec).
  exists fftlen. split; [exact Hfft|].
  destruct (fft_length_even _ _ _ Hfft) as [H2 Heven].
  set (N := Z.to_nat (npsd_of fftlen)).
  assert (1 <= fftlen / 2) as Hhalf by (apply Z.div_le_lower_bound; lia).
  assert (npsd_of fftlen = Z.of_nat N) as HN by (unfold N, npsd_of; lia).
  assert (2 <= N)%nat as HN2 by (unfold N, npsd_of; lia).
  split; [unfold npsd_of; lia|].
  intros Hlen.
  assert (length rngdata = (2 * (N - 1))%nat) as Hrng
    by (unfold N, npsd_of in *; lia).
  destruct (pack_fdata_spec N rngdata HN2 Hrng) as (fdata & Hpack & Hfl & H0 & Hn & Hi).
  exists fdata. rewrite HN at 1. split; [exact Hpack|]. split; [lia|].
  split; [exact H0|]. split.
  - replace (Z.to_nat (npsd_of fftlen - 1)) with (N - 1)%nat by lia. exact Hn.
  - intros i Hi'. rewrite Hi by lia.
    do 2 f_equal. f_equal. unfold npsd_of in *. lia.
Qed.

Lemma spectrum_packing_witness :
  exists fdata,
    pack_fdata 3 [10; 11; 12; 13]%Q = Ok fdata /\
    fdata !! 0%nat = Some (10%Q, 0%Q) /\
    fdata !! 1%nat = Some (11%Q, 13%Q) /\
    fdata !! 2%nat = Some (12%Q, 0%Q).
Proof.
  destruct (spectrum_packing 2 1 [10; 11; 12; 13]%Q)
    as (fftlen & Hfft & _ & Hpack).
  injection Hfft as <-.
  destruct (Hpack eq_refl) as (fdata & Hok & _ & H0 & Hn & Hi).
  exists fdata. split; [exact Hok|]. split; [exact H0|].
  split; [exact (Hi 1 (conj (Z.le_refl 1) (Z.le_refl 1))) | exact Hn].
Defined.

(** C2, as stated, fails for a request of one sample with oversampling 2:
    the transform length is 4 and [npsd] is 3.  From exactly [npsd = 3]
    values the packing cannot build the bins, whatever the values are: no
    value is left for the imaginary part of the interior bin and the
    assignment to [fdata[1:-1]] raises.  From [fft_len = 4] values it
    does. *)
Lemma spectrum_needs_more_than_npsd_draws :
  fft_length 2 1 = Some 4 /\ npsd_of 4 = 3 /\
  (forall a b c : Q, is_value_error (pack_fdata 3 [a; b; c])) /\
  pack_fdata 3 [10; 11; 12; 13]%Q
  = Ok [(10%Q, 0%Q); (11%Q, 13%Q); (12%Q, 0%Q)].
Proof.
  split; [reflexivity|]. split; [reflexivity|]. split; [|reflexivity].
  intros a b c. exact I.
Qed.

(** ** Rejection of invalid PSD tables *)

(** C4, as the code has it: for a positive rate and non-empty tables, the
    interpolation, and with it the synthesis, raises the precondition error
    exactly when some frequency is negative, some PSD value is negative,
    [freq[0] > rate/fft_len], or the last frequency is off Nyquist by more
    than 1%; a table that meets the four preconditions never gets that
    error. *)
Theorem psd_rejected_iff_violated `{Numerics}
    (realization telescope component obsindx detindx : Z) (rate : Q)
    (firstsamp samples oversample : Z) (freq psd : list Q) :
  (0 < rate)%Q -> freq <> [] -> psd <> [] ->
  exists fftlen,
    fft_length oversample samples = Some fftlen /\
    (is_runtime_error (interpolate_psd rate fftlen (npsd_of fftlen) freq psd)
       <-> precondition_violated rate fftlen freq psd) /\
    (is_runtime_error
       (sim_noise_timestream_py realization telescope component obsindx detindx
          rate firstsamp samples oversample freq psd)
       <-> precondition_violated rate fftlen freq psd).
Proof.
  intros Hrate Hf Hp. apply Qlt_not_eq0 in Hrate.
  destruct (sim_noise_timestream_py_classified realization telescope component
              obsindx detindx rate firstsamp samples oversample freq psd
              Hrate Hf Hp) as (fftlen & Hfft & _ & Hclass).
  exists fftlen. split; [exact Hfft|].
  destruct (fft_length_even _ _ _ Hfft) as [H2 _].
  pose proof (interpolate_psd_classified rate fftlen freq psd Hrate H2 Hf Hp) as Hi.
  split.
  - destruct (interpolate_psd _ _ _ _ _) as [[a b]|[]|]; cbn in Hi |- *; tauto.
  - destruct (sim_noise_timestream_py _ _ _ _ _ _ _ _ _ _ _) as [[[a b] c]|[]|];
      cbn in Hclass |- *; tauto.
Qed.

Lemma psd_rejected_iff_violated_witness :
  is_runtime_error
    (sim_noise_timestream_py 0 0 0 0 0 100 0 3 2 [0%Q; 70%Q] [1%Q; 1%Q])
  /\ ~ is_runtime_error
        (sim_noise_timestream_py 0 0 0 0 0 100 0 3 2 [0%Q; 50%Q] [1%Q; 1%Q]).
Proof.
  split.
  - destruct (psd_rejected_iff_violated 0 0 0 0 0 100 0 3 2 [0%Q; 70%Q] [1%Q; 1%Q])
      as (fftlen & Hfft & _ & Hiff).
    + reflexivity.
    + discriminate.
    + discriminate.
    + injection Hfft as <-. apply Hiff.
      right; right; right. exists 70%Q. split; reflexivity.
  - destruct (psd_rejected_iff_violated 0 0 0 0 0 100 0 3 2 [0%Q; 50%Q] [1%Q; 1%Q])
      as (fftlen & Hfft & _ & Hiff).
    + reflexivity.
    + discriminate.
    + discriminate.
    + injection Hfft as <-. intros Herr. apply Hiff in Herr. revert Herr.
      apply preconditions_holdb_sound. reflexivity.
Defined.

(** C4, as stated, fails on a table whose PSD values are all zero: none of
    the four preconditions is violated, yet the call raises. *)
Lemma zero_psd_table_raises :
  fft_length 2 3 = Some 8 /\
  ~ precondition_violated 100 8 [0%Q; 50%Q] [0%Q; 0%Q] /\
  sim_noise_timestream_py 0 0 0 0 0 100 0 3 2 [0%Q; 50%Q] [0%Q; 0%Q]
    = Raise (ValueError "zero-size array to reduction operation minimum which has no identity").
Proof.
  split; [reflexivity|]. split; [|reflexivity].
  apply preconditions_holdb_sound. reflexivity.
Qed.

(** ** The returned window *)

(** C6: no timestream is returned.  Every call of the python branch
    raises; a request that passes the four checks on a table with a
    positive PSD value raises [NameError] for [si] at line 127, so the
    cropping and the removal of the mean at lines 164-169 are not reached. *)
Theorem timestream_never_returned `{Numerics}
    (realization telescope component obsindx detindx : Z) (rate : Q)
    (firstsamp samples oversample fftlen : Z) (freq psd : list Q) :
  (exists e,
     sim_noise_timestream_py realization telescope component obsindx detindx
       rate firstsamp samples oversample freq psd = Raise e)
  /\ ((0 < rate)%Q -> freq <> [] -> psd <> [] ->
      fft_length oversample samples = Some fftlen ->
      ~ precondition_violated rate fftlen freq psd -> psd_positive psd ->
      sim_noise_timestream_py realization telescope component obsindx detindx
        rate firstsamp samples oversample freq psd
      = Raise (NameError "name 'si' is not defined")).
Proof.
  split; [apply sim_noise_timestream_py_raises|].
  intros Hrate Hf Hp Hfft NV Hpos. apply Qlt_not_eq0 in Hrate.
  apply (sim_noise_timestream_py_name_error _ _ _ _ _ _ _ _ _ fftlen);
    assumption.
Qed.

Lemma timestream_never_returned_witness :
  sim_noise_timestream_py 0 0 0 0 0 100 0 3 2 [0%Q; 50%Q] [1%Q; 1%Q]
  = Raise (NameError "name 'si' is not defined").
Proof.
  apply (proj2 (timestream_never_returned 0 0 0 0 0 100 0 3 2 8
                  [0%Q; 50%Q] [1%Q; 1%Q])).
  - reflexivity.
  - discriminate.
  - discriminate.
  - reflexivity.
  - apply preconditions_holdb_sound. reflexivity.
  - left. reflexivity.
Defined.

(** ** The DC bin *)

(** C7: no interpolated PSD is produced.  The interpolation raises on
    every input; on a table that passes the four checks and has a positive
    PSD value it raises [NameError] for [si] at line 127, before the DC bin
    is set at line 134. *)
Theorem interpolation_stops_before_dc_bin `{Numerics}
    (rate : Q) (fftlen npsd : Z) (freq psd : list Q) :
  (exists e, interpolate_psd rate fftlen npsd freq psd = Raise e)
  /\ ((0 < rate)%Q -> 2 <= fftlen -> freq <> [] -> psd <> [] ->
      ~ precondition_violated rate fftlen freq psd -> psd_positive psd ->
      interpolate_psd rate fftlen (npsd_of fftlen) freq psd
      = Raise (NameError "name 'si' is not defined")).
Proof.
  split; [apply interpolate_psd_raises|].
  intros Hrate Hn Hf Hp NV Hpos. apply Qlt_not_eq0 in Hrate.
  apply interpolate_psd_name_error; assumption.
Qed.

Lemma interpolation_stops_before_dc_bin_witness :
  interpolate_psd 100 8 (npsd_of 8) [0%Q; 50%Q] [3%Q; 1%Q]
  = Raise (NameError "name 'si' is not defined").
Proof.
  apply (proj2 (interpolation_stops_before_dc_bin 100 8 5
                  [0%Q; 50%Q] [3%Q; 1%Q])).
  - reflexivity.
  - lia.
  - discriminate.
  - discriminate.
  - apply preconditions_holdb_sound. reflexivity.
  - left. reflexivity.
Defined.

(** ** Tables without a positive PSD value *)

(** C10: on a table that meets the four stated preconditions but whose PSD
    values are all zero, the call fails in the minimum over the positive
    values; and whenever the call succeeds, some PSD value is strictly
    positive. *)
Theorem zero_psd_not_total `{Numerics}
    (realization telescope component obsindx detindx : Z) (rate : Q)
    (firstsamp samples oversample fftlen : Z) (freq psd : list Q) :
  (0 < rate)%Q -> freq <> [] -> psd <> [] ->
  fft_length oversample samples = Some fftlen ->
  ~ precondition_violated rate fftlen freq psd ->
  (Forall (fun p => (p == 0)%Q) psd ->
   is_value_error
     (sim_noise_timestream_py realization telescope component obsindx detindx
        rate firstsamp samples oversample freq psd)) /\
  (is_ok
     (sim_noise_timestream_py realization telescope component obsindx detindx
        rate firstsamp samples oversample freq psd) ->
   psd_positive psd).
Proof.
  intros Hrate Hf Hp Hfft NV. apply Qlt_not_eq0 in Hrate.
  destruct (sim_noise_timestream_py_classified realization telescope component
              obsindx detindx rate firstsamp samples oversample freq psd
              Hrate Hf Hp) as (fftlen' & Hfft' & _ & Hclass).
  rewrite Hfft in Hfft'. injection Hfft' as <-.
  split.
  - intros Hzero.
    assert (~ psd_positive psd) as Hnone.
    { intros Hpos. apply Exists_exists in Hpos. destruct Hpos as (p & Hin & Hlt).
      rewrite Forall_forall in Hzero. specialize (Hzero p Hin).
      rewrite Hzero in Hlt. exact (Qlt_irrefl 0 Hlt). }
    destruct (sim_noise_timestream_py _ _ _ _ _ _ _ _ _ _ _)
      as [[[ts ifreq] ipsd]|[]|]; cbn in Hclass |- *; tauto.
  - destruct (sim_noise_timestream_py _ _ _ _ _ _ _ _ _ _ _)
      as [[[ts ifreq] ipsd]|[]|]; cbn in Hclass |- *; tauto.
Qed.

Lemma zero_psd_not_total_witness :
  is_value_error
    (sim_noise_timestream_py 0 0 0 0 7 200 0 4 2
       [0%Q; 50%Q; 100%Q] [0%Q; 0%Q; 0%Q]).
Proof.
  apply (zero_psd_not_total 0 0 0 0 7 200 0 4 2 16
           [0%Q; 50%Q; 100%Q] [0%Q; 0%Q; 0%Q]).
  - reflexivity.
  - discriminate.
  - discriminate.
  - reflexivity.
  - apply preconditions_holdb_sound. reflexivity.
  - repeat constructor.
Defined.

(** ** The operator: weights *)

Lemma Qabs_zero (x : Q) : (Qabs x == 0)%Q -> (x == 0)%Q.
Proof.
  intros Hx. assert (Qabs x <= 0)%Q as Hle by (rewrite Hx; apply Qle_refl).
  apply Qabs_Qle_condition in Hle. destruct Hle as [Hlo Hhi].
  apply Qle_antisym; [exact Hhi | exact Hlo].
Qed.

Lemma fold_abs_zero (w : string -> Q) (dets : list string) :
  forall acc : Q,
    (0 <= acc)%Q ->
    (fold_left (fun a d => (a + Qabs (w d))%Q) dets acc == 0)%Q ->
    (acc == 0)%Q /\ Forall (fun d => (w d == 0)%Q) dets.
Proof.
  induction dets as [|d dets IH]; intros acc Hacc Hsum; cbn [fold_left] in Hsum.
  - split; [exact Hsum | constructor].
  - pose proof (Qabs_nonneg (w d)) as Habs.
    destruct (IH (acc + Qabs (w d))%Q) as [Hz Hall].
    + rewrite <- (Qplus_0_r 0). apply Qplus_le_compat; assumption.
    + exact Hsum.
    + assert (acc == 0)%Q as Ha.
      { apply Qle_antisym; [|exact Hacc]. rewrite <- Hz.
        rewrite <- (Qplus_0_r acc) at 1. apply Qplus_le_compat;
          [apply Qle_refl | exact Habs]. }
      split; [exact Ha|]. constructor; [|exact Hall].
      apply Qabs_zero. rewrite Ha, Qplus_0_l in Hz. exact Hz.
Qed.

Lemma key_weight_zero (nse : NoiseModel) (dets : list string) (key : string) :
  Qeq_bool (key_weight nse dets key) 0 = true ->
  Forall (fun d => (nse_weight nse d key == 0)%Q) dets.
Proof.
  intros Hz. apply Qeq_bool_iff in Hz. unfold key_weight in Hz.
  apply (fold_abs_zero (fun d => nse_weight nse d key) dets 0%Q);
    [apply Qle_refl | exact Hz].
Qed.

(** ** The operator: buffers *)

Lemma set_detdata_twice (ob : Observation) (d1 d2 : gmap string (gmap string (list Q))) :
  set_detdata (set_detdata ob d1) d2 = set_detdata ob d2.
Proof. reflexivity. Qed.

(** ** Element-wise equality of rational vectors *)

Lemma veq_refl (a : list Q) : Forall2 Qeq a a.
Proof. induction a; constructor; [apply Qeq_refl | assumption]. Qed.

Lemma veq_trans (a b c : list Q) :
  Forall2 Qeq a b -> Forall2 Qeq b c -> Forall2 Qeq a c.
Proof.
  intros Hab. revert c. induction Hab as [|x y a b Hxy Hab IH]; intros c Hbc.
  - inversion Hbc. constructor.
  - inversion Hbc as [|y' z b' c' Hyz Hbc']; subst. constructor.
    + exact (Qeq_trans _ _ _ Hxy Hyz).
    + apply IH. exact Hbc'.
Qed.

Lemma add_weighted_proper (a b : list Q) (w : Q) (ts : list Q) :
  Forall2 Qeq a b -> Forall2 Qeq (add_weighted a w ts) (add_weighted b w ts).
Proof.
  unfold add_weighted. intros Hab. revert ts.
  induction Hab as [|x y a b Hxy Hab IH]; intros [|t ts]; cbn; try constructor.
  - rewrite Hxy. reflexivity.
  - apply IH.
Qed.

Lemma add_weighted_zero (a : list Q) (w : Q) (ts : list Q) :
  (w == 0)%Q -> (length a <= length ts)%nat ->
  Forall2 Qeq a (add_weighted a w ts).
Proof.
  unfold add_weighted. intros Hw. revert ts.
  induction a as [|x a IH]; intros [|t ts] Hlen; cbn in *; try constructor; try lia.
  - rewrite Hw. ring.
  - apply IH. lia.
Qed.

Lemma length_add_weighted (a : list Q) (w : Q) (ts : list Q) :
  length (add_weighted a w ts) = Nat.min (length a) (length ts).
Proof. unfold add_weighted. rewrite length_zip_with, length_map. reflexivity. Qed.

Section Operator.
Context `{Numerics} `{Libtoast}.

Lemma detdata_iadd_spec (self : SimNoise) (ob : Observation) (det : string)
    (buf v : list Q) :
  out_buffer self ob det = Some buf -> length v = length buf ->
  exists ob',
    detdata_iadd ob (out self) det v = Ok ob' /\
    ob' = set_detdata ob (ob_detdata ob') /\
    out_buffer self ob' det = Some (zip_with Qplus buf v) /\
    (forall d, d <> det -> out_buffer self ob' d = out_buffer self ob d) /\
    (forall name, name <> out self -> ob_detdata ob' !! name = ob_detdata ob !! name).
Proof.
  unfold out_buffer, detdata_iadd. intros Hbuf Hlen.
  destruct (ob_detdata ob !! out self) as [bufs|] eqn:Ebufs; [|discriminate].
  rewrite Hbuf. unfold np_inplace2. rewrite Hlen, Nat.eqb_refl, bind_Ok.
  eexists. split; [reflexivity|]. cbn [ob_detdata set_detdata].
  split; [reflexivity|]. split; [|split].
  - rewrite lookup_insert_eq. apply lookup_insert_eq.
  - intros d Hd. rewrite lookup_insert_eq. apply lookup_insert_ne. congruence.
  - intros name Hname. apply lookup_insert_ne. congruence.
Qed.

Lemma add_noise_spec (self : SimNoise) (nse : NoiseModel) (key : string)
    (nsedata : list Q) (dets : list string) :
  NoDup dets ->
  forall ob,
    buffers_ready self ob dets (length nsedata) ->
    exists ob',
      add_noise self nse key nsedata dets ob = (ob', Ok tt) /\
      ob' = set_detdata ob (ob_detdata ob') /\
      (forall d,
          out_buffer self ob' d
          = (fun buf =>
               if decide (d ∈ dets /\ Qeq_bool (nse_weight nse d key) 0 = false)
               then add_weighted buf (nse_weight nse d key) nsedata
               else buf) <$> out_buffer self ob d) /\
      (forall name, name <> out self ->
                    ob_detdata ob' !! name = ob_detdata ob !! name).
Proof.
  induction 1 as [|det dets Hnotin Hnodup IH]; intros ob Hready.
  - exists ob. cbn [add_noise]. split; [reflexivity|].
    split; [destruct ob; reflexivity|]. split; [|reflexivity].
    intros d. destruct (out_buffer self ob d); cbn; [|reflexivity].
    destruct (decide _) as [[Hin _]|_]; [inversion Hin | reflexivity].
  - cbn [add_noise].
    destruct (Qeq_bool (nse_weight nse det key) 0) eqn:Ew.
    + destruct (IH ob) as (ob' & Hrun & Hrec & Hbuf & Hframe).
      { intros d Hd. apply Hready. right. exact Hd. }
      exists ob'. split; [exact Hrun|]. split; [exact Hrec|]. split; [|exact Hframe].
      intros d. rewrite Hbuf. destruct (out_buffer self ob d); cbn; [|reflexivity].
      f_equal. destruct (decide (d ∈ dets /\ _)) as [[Hin Hw]|Hno];
        destruct (decide (d ∈ det :: dets /\ _)) as [[Hin' Hw']|Hno'];
        try reflexivity.
      * exfalso. apply Hno'. split; [right; exact Hin | exact Hw].
      * exfalso. apply Hno. split; [|exact Hw'].
        apply elem_of_cons in Hin'. destruct Hin' as [->|Hin']; [congruence | exact Hin'].
    + destruct (Hready det) as (buf & Hb & Hl); [left|].
      destruct (detdata_iadd_spec self ob det buf
                  (map (Qmult (nse_weight nse det key)) nsedata) Hb)
        as (ob1 & Hrun1 & Hrec1 & Hb1 & Hother1 & Hframe1).
      { rewrite length_map. symmetry. exact Hl. }
      rewrite Hrun1.
      destruct (IH ob1) as (ob' & Hrun & Hrec & Hbuf & Hframe).
      { intros d Hd. rewrite Hother1 by (intros ->; contradiction).
        apply Hready. right. exact Hd. }
      exists ob'. split; [exact Hrun|]. split; [|split].
      * rewrite Hrec, Hrec1 at 1. apply set_detdata_twice.
      * intros d. rewrite Hbuf. destruct (decide (d = det)) as [->|Hne].
        -- rewrite Hb1, Hb. cbn. f_equal.
           destruct (decide (det ∈ dets /\ _)) as [[Hin _]|_]; [contradiction|].
           destruct (decide (det ∈ det :: dets /\ _)) as [_|Hno]; [reflexivity|].
           exfalso. apply Hno. split; [left | exact Ew].
        -- rewrite Hother1 by exact Hne.
           destruct (out_buffer self ob d); cbn; [|reflexivity]. f_equal.
           destruct (decide (d ∈ dets /\ _)) as [[Hin Hw]|Hno];
             destruct (decide (d ∈ det :: dets /\ _)) as [[Hin' Hw']|Hno'];
             try reflexivity.
           ++ exfalso. apply Hno'. split; [right; exact Hin | exact Hw].
           ++ exfalso. apply Hno. split; [|exact Hw'].
              apply elem_of_cons in Hin'. destruct Hin' as [->|Hin'];
                [congruence | exact Hin'].
      * intros name Hname. rewrite Hframe, Hframe1 by exact Hname. reflexivity.
Qed.

Lemma length_compiled (c : SynthCall) (ts : list Q) :
  sim_noise_timestream_compiled c = Ok ts -> length ts = Z.to_nat (sc_samples c).
Proof.
  unfold sim_noise_timestream_compiled. intros Hc.
  apply bind_Ok_inv in Hc. destruct Hc as (fill & _ & [= <-]).
  rewrite length_map, length_seq. reflexivity.
Qed.

Lemma length_key_timestream (self : SimNoise) (ob : Observation) (nse : NoiseModel)
    (rate : Q) (global_offset : Z) (key : string) :
  length (key_timestream self ob nse rate global_offset key)
  = Z.to_nat (ob_n_local_samples ob).
Proof.
  unfold key_timestream.
  destruct (sim_noise_timestream_compiled _) as [ts| |] eqn:E.
  - apply length_compiled in E. exact E.
  - unfold np_zeros. apply length_replicate.
  - unfold np_zeros. apply length_replicate.
Qed.

Lemma weighted_sum_proper (self : SimNoise) (ob : Observation) (nse : NoiseModel)
    (rate : Q) (global_offset : Z) (det : string) (keys : list string) :
  forall a b, Forall2 Qeq a b ->
    Forall2 Qeq (weighted_sum self ob nse rate global_offset det keys a)
                (weighted_sum self ob nse rate global_offset det keys b).
Proof.
  unfold weighted_sum. induction keys as [|key keys IH]; intros a b Hab; cbn [fold_left].
  - exact Hab.
  - apply IH. apply add_weighted_proper. exact Hab.
Qed.

Lemma exec_key_skip (self : SimNoise) (nse : NoiseModel) (rate : Q)
    (global_offset : Z) (dets : list string) (key : string) (st : exec_state) :
  Qeq_bool (key_weight nse dets key) 0 = true ->
  exec_key self nse rate global_offset dets key st = (st, Ok tt).
Proof. intros Hz. unfold exec_key. destruct st as [ob calls]. rewrite Hz. reflexivity. Qed.

Lemma exec_key_calls (self : SimNoise) (nse : NoiseModel) (rate : Q)
    (global_offset : Z) (dets : list string) (key : string)
    (ob : Observation) (calls : list SynthCall) :
  Qeq_bool (key_weight nse dets key) 0 = false ->
  snd (fst (exec_key self nse rate global_offset dets key (ob, calls)))
  = calls ++ [key_call self ob nse rate global_offset key].
Proof.
  intros Hz. unfold exec_key. rewrite Hz.
  destruct (sim_noise_timestream _ false) as [[ts a b|ts]|e|]; try reflexivity.
  - destruct (add_noise _ _ _ _ _ _). reflexivity.
  - destruct (add_noise _ _ _ _ _ _). reflexivity.
Qed.

Lemma exec_key_run (self : SimNoise) (nse : NoiseModel) (rate : Q)
    (global_offset : Z) (dets : list string) (key : string)
    (ob : Observation) (calls : list SynthCall) (ts : list Q) :
  Qeq_bool (key_weight nse dets key) 0 = false ->
  sim_noise_timestream_compiled (key_call self ob nse rate global_offset key) = Ok ts ->
  NoDup dets ->
  buffers_ready self ob dets (length ts) ->
  exists ob',
    exec_key self nse rate global_offset dets key (ob, calls)
      = ((ob', calls ++ [key_call self ob nse rate global_offset key]), Ok tt) /\
    ob' = set_detdata ob (ob_detdata ob') /\
    (forall d,
        out_buffer self ob' d
        = (fun buf =>
             if decide (d ∈ dets /\ Qeq_bool (nse_weight nse d key) 0 = false)
             then add_weighted buf (nse_weight nse d key) ts
             else buf) <$> out_buffer self ob d) /\
    (forall name, name <> out self ->
                  ob_detdata ob' !! name = ob_detdata ob !! name).
Proof.
  intros Hz Hts Hnodup Hready.
  destruct (add_noise_spec self nse key ts dets Hnodup ob Hready)
    as (ob' & Hrun & Hrec & Hbuf & Hframe).
  exists ob'. split; [|split; [exact Hrec | split; [exact Hbuf | exact Hframe]]].
  unfold exec_key. rewrite Hz. unfold sim_noise_timestream. rewrite Hts, bind_Ok.
  rewrite Hrun. reflexivity.
Qed.

Lemma exec_keys_spec (self : SimNoise) (nse : NoiseModel) (rate : Q)
    (global_offset : Z) (dets : list string) :
  NoDup dets ->
  forall keys ob calls,
    buffers_ready self ob dets (Z.to_nat (ob_n_local_samples ob)) ->
    (forall key, key ∈ needed_keys nse dets keys ->
       is_ok (sim_noise_timestream_compiled
                (key_call self ob nse rate global_offset key))) ->
    exists ob',
      exec_keys self nse rate global_offset dets keys (ob, calls)
        = ((ob', calls ++ map (key_call self ob nse rate global_offset)
                            (needed_keys nse dets keys)), Ok tt) /\
      ob' = set_detdata ob (ob_detdata ob') /\
      (forall d buf, d ∈ dets -> out_buffer self ob d = Some buf ->
         exists final,
           out_buffer self ob' d = Some final /\
           Forall2 Qeq final
             (weighted_sum self ob nse rate global_offset d keys buf)) /\
      (forall d, d ∉ dets -> out_buffer self ob' d = out_buffer self ob d) /\
      (forall name, name <> out self ->
                    ob_detdata ob' !! name = ob_detdata ob !! name).
Proof.
  intros Hnodup keys. induction keys as [|key keys IH]; intros ob calls Hready Hok.
  - exists ob. cbn [exec_keys needed_keys filter map]. rewrite app_nil_r.
    split; [reflexivity|]. split; [destruct ob; reflexivity|].
    split; [|split; reflexivity].
    intros d buf _ Hb. exists buf. split; [exact Hb | apply veq_refl].
  - cbn [exec_keys].
    destruct (Qeq_bool (key_weight nse dets key) 0) eqn:Ez.
    + rewrite (exec_key_skip self nse rate global_offset dets key (ob, calls) Ez).
      assert (needed_keys nse dets (key :: keys) = needed_keys nse dets keys) as Hnk.
      { unfold needed_keys. apply filter_cons_False. congruence. }
      rewrite Hnk in *.
      destruct (IH ob calls Hready Hok) as (ob' & Hrun & Hrec & Hbuf & Hout & Hframe).
      exists ob'. split; [exact Hrun|]. split; [exact Hrec|].
      split; [|split; assumption].
      intros d buf Hd Hb. destruct (Hbuf d buf Hd Hb) as (final & Hf & Hsum).
      exists final. split; [exact Hf|].
      apply (veq_trans _ _ _ Hsum). unfold weighted_sum at 2. cbn [fold_left].
      apply weighted_sum_proper. apply add_weighted_zero.
      * pose proof (key_weight_zero nse dets key Ez) as Hall.
        rewrite Forall_forall in Hall. apply Hall. exact Hd.
      * destruct (Hready d Hd) as (buf' & Hb' & Hl). rewrite Hb in Hb'.
        injection Hb' as <-. rewrite Hl, length_key_timestream. lia.
    + assert (needed_keys nse dets (key :: keys) = key :: needed_keys nse dets keys) as Hnk.
      { unfold needed_keys. apply filter_cons_True. exact Ez. }
      rewrite Hnk in *.
      destruct (sim_noise_timestream_compiled
                  (key_call self ob nse rate global_offset key)) as [ts|e|] eqn:Hts.
      2,3: exfalso; specialize (Hok key ltac:(left)); rewrite Hts in Hok; exact Hok.
      pose proof (length_compiled _ _ Hts) as Hlts. cbn [key_call sc_samples] in Hlts.
      rewrite <- Hlts in Hready.
      destruct (exec_key_run self nse rate global_offset dets key ob calls ts
                  Ez Hts Hnodup Hready)
        as (ob1 & Hrun1 & Hrec1 & Hbuf1 & Hframe1).
      rewrite Hrun1.
      assert (ob_n_local_samples ob1 = ob_n_local_samples ob) as Hn1
        by (rewrite Hrec1; reflexivity).
      assert (forall k, key_call self ob1 nse rate global_offset k
                        = key_call self ob nse rate global_offset k) as Hkc
        by (intros k; rewrite Hrec1; reflexivity).
      assert (forall d ks b, weighted_sum self ob1 nse rate global_offset d ks b
                             = weighted_sum self ob nse rate global_offset d ks b) as Hws
        by (intros d ks b; rewrite Hrec1; reflexivity).
      destruct (IH ob1 (calls ++ [key_call self ob nse rate global_offset key]))
        as (ob' & Hrun & Hrec & Hbuf & Hout & Hframe).
      { intros d Hd. destruct (Hready d Hd) as (buf & Hb & Hl).
        rewrite Hbuf1, Hb, Hn1. cbn. eexists. split; [reflexivity|].
        destruct (decide _); [|lia].
        rewrite length_add_weighted, Hl. lia. }
      { intros k Hk. rewrite Hkc. apply Hok. right. exact Hk. }
      exists ob'. split; [|split; [|split; [|split]]].
      * rewrite Hrun, <- app_assoc. cbn [map app].
        rewrite (map_ext _ _ Hkc). reflexivity.
      * rewrite Hrec, Hrec1 at 1. apply set_detdata_twice.
      * intros d buf Hd Hb.
        destruct (Hbuf d _ Hd (eq_trans (Hbuf1 d) (f_equal _ Hb)))
          as (final & Hf & Hsum).
        exists final. split; [exact Hf|].
        apply (veq_trans _ _ _ Hsum). rewrite Hws.
        unfold weighted_sum at 2. cbn [fold_left].
        apply weighted_sum_proper.
        unfold key_timestream. rewrite Hts.
        destruct (decide _) as [_|Hno]; [apply veq_refl|].
        apply add_weighted_zero.
        -- destruct (Qeq_bool (nse_weight nse d key) 0) eqn:Ew.
           ++ apply Qeq_bool_iff. exact Ew.
           ++ exfalso. apply Hno. split; [exact Hd | reflexivity].
        -- destruct (Hready d Hd) as (buf' & Hb' & Hl). rewrite Hb in Hb'.
           injection Hb' as <-. lia.
      * intros d Hd. rewrite (Hout d Hd), Hbuf1.
        destruct (out_buffer self ob d); cbn; [|reflexivity].
        destruct (decide _) as [[Hin _]|_]; [contradiction | reflexivity].
      * intros name Hname. rewrite Hframe, Hframe1 by exact Hname. reflexivity.
Qed.

Lemma select_local_detectors_NoDup (ob : Observation) (detectors : option (list string)) :
  NoDup (ob_local_detectors ob) -> NoDup (select_local_detectors ob detectors).
Proof.
  intros Hnd. unfold select_local_detectors. destruct detectors as [sel|];
    [apply NoDup_filter|]; exact Hnd.
Qed.

Lemma select_local_detectors_local (ob : Observation) (detectors : option (list string))
    (d : string) :
  d ∈ select_local_detectors ob detectors -> d ∈ ob_local_detectors ob.
Proof.
  unfold select_local_detectors. destruct detectors as [sel|]; [|tauto].
  intros Hd. apply list_elem_of_filter in Hd. tauto.
Qed.

Lemma lookup_constant_map (l : list string) (z : list Q) (d : string) :
  d ∈ l ->
  (list_to_map (map (fun d => (d, z)) l) : gmap string (list Q)) !! d = Some z.
Proof.
  induction l as [|x l IH]; intros Hd; [inversion Hd|].
  cbn [map list_to_map foldr fst snd]. destruct (decide (x = d)) as [->|Hne].
  - apply lookup_insert_eq.
  - rewrite lookup_insert_ne by exact Hne. apply IH.
    apply elem_of_cons in Hd. destruct Hd as [->|Hd]; [congruence | exact Hd].
Qed.

Lemma detdata_create_buffer (self : SimNoise) (ob : Observation) (d : string) :
  d ∈ ob_local_detectors ob ->
  out_buffer self (detdata_create ob (out self)) d
  = Some (np_zeros (ob_n_local_samples ob) 0%Q).
Proof.
  intros Hd. unfold out_buffer, detdata_create. cbn [ob_detdata set_detdata].
  rewrite lookup_insert_eq. apply lookup_constant_map. exact Hd.
Qed.

Lemma ensure_output_record (self : SimNoise) (ob : Observation) :
  ensure_output self ob = set_detdata ob (ob_detdata (ensure_output self ob)).
Proof.
  unfold ensure_output. destruct (ob_detdata ob !! out self);
    [destruct ob|]; reflexivity.
Qed.

(** C8: in the loop over the keys of an observation whose active detectors
    are distinct, a key whose absolute weights sum to zero changes nothing
    and makes no call; any other key makes exactly one call and, when the
    call returns, adds weight times its timestream to the buffer of each
    active detector of nonzero weight, leaving the other buffers as they
    were; and after the whole observation the calls made are one for each
    key of nonzero total weight, and each active detector's buffer is what
    it held before plus the sum over the keys of its weighted timestreams
    (the buffer starts from zeros when the operator creates it). *)
Theorem noise_accumulation
    (self : SimNoise) (detectors : option (list string)) (ob : Observation)
    (calls : list SynthCall) (nse : NoiseModel) (t : list Q)
    (dets : list string) (rate : Q) (global_offset : Z) :
  select_local_detectors ob detectors = dets ->
  rate_from_times t = rate ->
  global_offset_of ob = global_offset ->
  NoDup (ob_local_detectors ob) ->
  dets <> [] ->
  ob_noise ob !! noise_model self = Some nse ->
  ob_comm_row_size ob = 1 ->
  ob_shared ob !! times self = Some t ->
  (forall bufs, ob_detdata ob !! out self = Some bufs ->
     forall d, d ∈ dets ->
       exists buf, bufs !! d = Some buf /\
                   length buf = Z.to_nat (ob_n_local_samples ob)) ->
  (forall key, key ∈ needed_keys nse dets (nse_keys nse) ->
     is_ok (sim_noise_timestream_compiled
              (key_call self ob nse rate global_offset key))) ->
  (forall key st,
      Qeq_bool (key_weight nse dets key) 0 = true ->
      exec_key self nse rate global_offset dets key st = (st, Ok tt)) /\
  (forall key ob1 calls1,
      Qeq_bool (key_weight nse dets key) 0 = false ->
      snd (fst (exec_key self nse rate global_offset dets key (ob1, calls1)))
        = calls1 ++ [key_call self ob1 nse rate global_offset key] /\
      forall ts,
        sim_noise_timestream_compiled
          (key_call self ob1 nse rate global_offset key) = Ok ts ->
        buffers_ready self ob1 dets (length ts) ->
        exists ob2,
          exec_key self nse rate global_offset dets key (ob1, calls1)
            = ((ob2, calls1 ++ [key_call self ob1 nse rate global_offset key]), Ok tt) /\
          forall d,
            out_buffer self ob2 d
            = (fun buf =>
                 if decide (d ∈ dets /\ Qeq_bool (nse_weight nse d key) 0 = false)
                 then add_weighted buf (nse_weight nse d key) ts
                 else buf) <$> out_buffer self ob1 d) /\
  (exists ob',
      exec_observation self detectors (ob, calls)
        = ((ob', calls ++ map (key_call self ob nse rate global_offset)
                            (needed_keys nse dets (nse_keys nse))), Ok tt) /\
      forall d, d ∈ dets ->
        exists buf final,
          out_buffer self (ensure_output self ob) d = Some buf /\
          (ob_detdata ob !! out self = None ->
           buf = np_zeros (ob_n_local_samples ob) 0%Q) /\
          out_buffer self ob' d = Some final /\
          Forall2 Qeq final
            (weighted_sum self ob nse rate global_offset d (nse_keys nse) buf)).
Proof.
  intros Edets Erate Eoffset Hlocal Hdets Hnse Hrow Ht Hexist Hok.
  set (ob0 := ensure_output self ob).
  assert (NoDup dets) as Hnodup
    by (rewrite <- Edets; apply select_local_detectors_NoDup; exact Hlocal).
  split; [|split].
  - intros key st Hz. apply exec_key_skip. exact Hz.
  - intros key ob1 calls1 Hz. split; [apply exec_key_calls; exact Hz|].
    intros ts Hts Hready.
    destruct (exec_key_run self nse rate global_offset dets key ob1 calls1 ts
                Hz Hts Hnodup Hready) as (ob2 & Hrun & _ & Hbuf & _).
    exists ob2. split; assumption.
  - pose proof (ensure_output_record self ob) as Hrec0. fold ob0 in Hrec0.
    assert (forall d, d ∈ dets ->
              exists buf, out_buffer self ob0 d = Some buf /\
                          length buf = Z.to_nat (ob_n_local_samples ob) /\
                          (ob_detdata ob !! out self = None ->
                           buf = np_zeros (ob_n_local_samples ob) 0%Q)) as Hbufs0.
    { intros d Hd. unfold ob0, ensure_output.
      destruct (ob_detdata ob !! out self) as [bufs|] eqn:Eout.
      - destruct (Hexist bufs eq_refl d Hd) as (buf & Hb & Hl).
        exists buf. unfold out_buffer. rewrite Eout.
        split; [exact Hb|]. split; [exact Hl | discriminate].
      - exists (np_zeros (ob_n_local_samples ob) 0%Q).
        split; [|split; [|reflexivity]].
        + apply detdata_create_buffer.
          apply (select_local_detectors_local ob detectors).
          rewrite Edets. exact Hd.
        + unfold np_zeros. apply length_replicate. }
    assert (ob_n_local_samples ob0 = ob_n_local_samples ob) as Hn0
      by (rewrite Hrec0; reflexivity).
    assert (forall k, key_call self ob0 nse rate global_offset k
                      = key_call self ob nse rate global_offset k) as Hkc
      by (intros k; rewrite Hrec0; reflexivity).
    assert (forall d ks b, weighted_sum self ob0 nse rate global_offset d ks b
                           = weighted_sum self ob nse rate global_offset d ks b) as Hws
      by (intros d ks b; rewrite Hrec0; reflexivity).
    destruct (exec_keys_spec self nse rate global_offset dets Hnodup
                (nse_keys nse) ob0 calls) as (ob' & Hrun & _ & Hbuf & _).
    { intros d Hd. destruct (Hbufs0 d Hd) as (buf & Hb & Hl & _).
      exists buf. rewrite Hn0. split; assumption. }
    { intros k Hk. rewrite Hkc. apply Hok. exact Hk. }
    exists ob'. split.
    + unfold exec_observation. rewrite Edets.
      destruct (Nat.eqb_spec (length dets) 0) as [Hlen|_].
      { destruct dets; [congruence | discriminate]. }
      rewrite Hnse, Hrow. cbn [Z.eqb Pos.eqb negb]. fold ob0.
      assert (ob_shared ob0 = ob_shared ob) as -> by (rewrite Hrec0; reflexivity).
      rewrite Ht, Erate, Eoffset, Hrun.
      rewrite (map_ext _ _ Hkc). reflexivity.
    + intros d Hd. destruct (Hbufs0 d Hd) as (buf & Hb & _ & Hzero).
      destruct (Hbuf d buf Hd Hb) as (final & Hf & Hsum).
      exists buf, final. rewrite Hws in Hsum. repeat split; assumption.
Qed.

End Operator.

Lemma noise_accumulation_witness :
  exists ob',
    exec_observation sample_operator None (sample_observation, [])
      = ((ob', map (key_call sample_operator sample_observation sample_noise 3 0)
                 ["common"; "second"]), Ok tt) /\
    forall d, d ∈ ["d1"; "d2"] ->
      exists final,
        out_buffer sample_operator ob' d = Some final /\
        Forall2 Qeq final
          (weighted_sum sample_operator sample_observation sample_noise 3 0 d
             ["common"; "unused"; "second"] [0%Q; 0%Q; 0%Q]).
Proof.
  destruct (noise_accumulation sample_operator None sample_observation []
              sample_noise [0%Q; 1%Q; 2%Q] ["d1"; "d2"] 3 0)
    as (_ & _ & ob' & Hrun & Hsum).
  - reflexivity.
  - reflexivity.
  - reflexivity.
  - apply (bool_decide_unpack _). vm_compute. exact I.
  - discriminate.
  - vm_compute. reflexivity.
  - reflexivity.
  - vm_compute. reflexivity.
  - intros bufs Hb. vm_compute in Hb. discriminate.
  - intros key _. exact I.
  - exists ob'. split; [exact Hrun|].
    intros d Hd. destruct (Hsum d Hd) as (buf & final & _ & Hzero & Hf & Hs).
    exists final. split; [exact Hf|].
    rewrite (Hzero eq_refl) in Hs. exact Hs.
Defined.

(** ** The guards of the operator *)

(** C9: an observation without active local detectors is left as it is,
    without error and without a call, and the loop goes on to the next one;
    with active detectors, a missing noise model raises [KeyError], and a
    present noise model on a process grid with more than one rank in the
    sample direction raises [NotImplementedError]; in both cases the
    observation is as it was, no call has been made, and the observations
    after it are not processed. *)
Theorem exec_observation_guards `{Numerics} `{Libtoast}
    (self : SimNoise) (detectors : option (list string)) (ob : Observation)
    (calls : list SynthCall) (obs : list Observation) :
  (select_local_detectors ob detectors = [] ->
     exec_observation self detectors (ob, calls) = ((ob, calls), Ok tt) /\
     _exec self (ob :: obs) detectors calls
       = (let '(obs', calls', r) := _exec self obs detectors calls in
          (ob :: obs', calls', r))) /\
  (select_local_detectors ob detectors <> [] ->
   ob_noise ob !! noise_model self = None ->
     exists msg,
       exec_observation self detectors (ob, calls)
         = ((ob, calls), Raise (KeyError msg)) /\
       _exec self (ob :: obs) detectors calls
         = (ob :: obs, calls, Raise (KeyError msg))) /\
  (select_local_detectors ob detectors <> [] ->
   is_Some (ob_noise ob !! noise_model self) ->
   ob_comm_row_size ob <> 1 ->
     exists msg,
       exec_observation self detectors (ob, calls)
         = ((ob, calls), Raise (NotImplementedError msg)) /\
       _exec self (ob :: obs) detectors calls
         = (ob :: obs, calls, Raise (NotImplementedError msg))).
Proof.
  split; [|split].
  - intros Hdets.
    assert (exec_observation self detectors (ob, calls) = ((ob, calls), Ok tt)) as Hrun
      by (unfold exec_observation; rewrite Hdets; reflexivity).
    split; [exact Hrun|]. cbn [_exec]. rewrite Hrun. reflexivity.
  - intros Hdets Hnone. eexists.
    assert (exec_observation self detectors (ob, calls)
            = ((ob, calls),
               Raise (KeyError ("Observation does not contain noise model key '"
                                  +:+ noise_model self +:+ "'")))) as Hrun.
    { unfold exec_observation.
      destruct (select_local_detectors ob detectors); [congruence|].
      cbn [length Nat.eqb]. rewrite Hnone. reflexivity. }
    split; [exact Hrun|]. cbn [_exec]. rewrite Hrun. reflexivity.
  - intros Hdets [nse Hnse] Hrow. eexists.
    assert (exec_observation self detectors (ob, calls)
            = ((ob, calls),
               Raise (NotImplementedError "Noise simulation for process grids with multiple ranks in the sample direction not implemented"))) as Hrun.
    { unfold exec_observation.
      destruct (select_local_detectors ob detectors); [congruence|].
      cbn [length Nat.eqb]. rewrite Hnse.
      destruct (Z.eqb_spec (ob_comm_row_size ob) 1); [contradiction|]. reflexivity. }
    split; [exact Hrun|]. cbn [_exec]. rewrite Hrun. reflexivity.
Qed.

Lemma exec_observation_guards_witness :
  exec_observation sample_operator (Some []) (sample_observation, [])
    = ((sample_observation, []), Ok tt) /\
  (exists msg,
      _exec sample_lost_operator [sample_observation; sample_observation] None []
        = ([sample_observation; sample_observation], [], Raise (KeyError msg))) /\
  (exists msg,
      _exec sample_operator [sample_split_observation; sample_observation] None []
        = ([sample_split_observation; sample_observation], [],
           Raise (NotImplementedError msg))).
Proof.
  split; [|split].
  - apply (exec_observation_guards sample_operator (Some []) sample_observation [] []).
    reflexivity.
  - destruct (exec_observation_guards sample_lost_operator None sample_observation
                [] [sample_observation]) as (_ & Hkey & _).
    destruct Hkey as (msg & _ & Hrun); [discriminate | vm_compute; reflexivity |].
    exists msg. exact Hrun.
  - destruct (exec_observation_guards sample_operator None sample_split_observation
                [] [sample_observation]) as (_ & _ & Hsplit).
    destruct Hsplit as (msg & _ & Hrun);
      [discriminate | eexists; vm_compute; reflexivity | discriminate |].
    exists msg. exact Hrun.
Defined.

(** * Further properties of the synthesis *)

(** ** Size of the transform *)

(** X1: the transform is never shorter than two samples, is longer than the
    oversampled request, and at most twice as long when that request has at
    least one sample; a request of fewer than two oversampled samples gets
    the two-sample transform. *)
Theorem fft_length_bounds (oversample samples : Z) :
  exists fftlen,
    fft_length oversample samples = Some fftlen /\
    2 <= fftlen /\ oversample * samples < fftlen /\
    (1 <= oversample * samples -> fftlen <= 2 * (oversample * samples)) /\
    (oversample * samples < 2 -> fftlen = 2 /\ npsd_of fftlen = 2).
Proof.
  destruct (fft_length_spec oversample samples) as (n & Hn & (k & Hk & ->) & Hgt & Hmin).
  exists (2 ^ k). split; [exact Hn|].
  assert (2 <= 2 ^ k) as H2.
  { change 2 with (2 ^ 1) at 1. apply Z.pow_le_mono_r; lia. }
  split; [exact H2|]. split; [exact Hgt|]. split.
  - intros Hpos. destruct (Z.eq_dec k 1) as [->|Hne]; [cbn; lia|].
    assert (oversample * samples < 2 ^ (k - 1) -> False) as Hno.
    { intros Hlt. specialize (Hmin (k - 1) ltac:(lia) Hlt).
      apply Z.pow_le_mono_r_iff in Hmin; lia. }
    replace k with (1 + (k - 1)) by lia. rewrite Z.pow_add_r by lia.
    change (2 ^ 1) with 2. lia.
  - intros Hsmall. specialize (Hmin 1 ltac:(lia) Hsmall). change (2 ^ 1) with 2 in Hmin.
    assert (2 ^ k = 2) as -> by lia. split; reflexivity.
Qed.

Lemma fft_length_bounds_witness :
  exists fftlen,
    fft_length 2 5 = Some fftlen /\ 10 < fftlen /\ fftlen <= 20.
Proof.
  destruct (fft_length_bounds 2 5) as (fftlen & Hlen & _ & Hgt & Hle & _).
  exists fftlen. split; [exact Hlen|]. split; [exact Hgt|]. apply Hle. lia.
Defined.

(** X2: a longer oversampled request never gets a shorter transform. *)
Theorem fft_length_monotone (oversample samples oversample' samples' n n' : Z) :
  oversample * samples <= oversample' * samples' ->
  fft_length oversample samples = Some n ->
  fft_length oversample' samples' = Some n' ->
  n <= n'.
Proof.
  intros Hle Hn Hn'.
  destruct (fft_length_spec oversample samples) as (m & Hm & _ & _ & Hmin).
  destruct (fft_length_spec oversample' samples')
    as (m' & Hm' & (k' & Hk' & Ek') & Hgt' & _).
  rewrite Hn in Hm. injection Hm as <-. rewrite Hn' in Hm'. injection Hm' as ->.
  rewrite Ek' in *. apply Hmin; lia.
Qed.

Lemma fft_length_monotone_witness : 16 <= 32.
Proof.
  apply (fft_length_monotone 2 5 2 9 16 32); [lia | reflexivity | reflexivity].
Defined.

(** ** The packing loses no sample *)

(** X3: the real parts of the bins are the first [npsd] samples in order, and
    the imaginary parts of the interior bins, read backwards, are the
    remaining ones: every sample drawn is used exactly once. *)
Theorem pack_fdata_lossless (npsd : Z) (rngdata : list Q) :
  2 <= npsd -> Z.of_nat (length rngdata) = 2 * (npsd - 1) ->
  exists fdata,
    pack_fdata npsd rngdata = Ok fdata /\
    map fst fdata = take (Z.to_nat npsd) rngdata /\
    map snd (take (Z.to_nat npsd - 2) (drop 1 fdata))
      = reverse (drop (Z.to_nat npsd) rngdata) /\
    rngdata
      = map fst fdata
        ++ reverse (map snd (take (Z.to_nat npsd - 2) (drop 1 fdata))).
Proof.
  intros Hn Hlen. set (N := Z.to_nat npsd).
  assert (2 <= N)%nat as HN by lia.
  assert (length rngdata = (2 * (N - 1))%nat) as HL by lia.
  destruct (pack_fdata_spec N rngdata HN HL) as (fdata & Hpack & Hfl & H0 & Hlast & Hmid).
  exists fdata. replace npsd with (Z.of_nat N) by lia. split; [exact Hpack|].
  unfold complex in *.
  assert (map fst fdata = take N rngdata) as Hre.
  { apply list_eq. intros i. rewrite list_lookup_fmap.
    destruct (lt_dec i N) as [Hi|Hi].
    - rewrite lookup_take_lt by exact Hi.
      rewrite (lookup_nth_Some rngdata i 0%Q) by lia.
      destruct (Nat.eq_dec i 0%nat) as [->|Hi0]; [rewrite H0; reflexivity|].
      destruct (Nat.eq_dec i (N - 1)%nat) as [->|HiN]; [rewrite Hlast; reflexivity|].
      rewrite Hmid by lia. reflexivity.
    - rewrite lookup_take_ge by lia.
      rewrite (lookup_ge_None_2 fdata i) by lia. reflexivity. }
  assert (map snd (take (N - 2)%nat (drop 1 fdata)) = reverse (drop N rngdata)) as Him.
  { apply list_eq. intros i. rewrite list_lookup_fmap.
    destruct (lt_dec i (N - 2)%nat) as [Hi|Hi].
    - rewrite lookup_take_lt by exact Hi. rewrite lookup_drop.
      rewrite Hmid by lia. cbn.
      rewrite reverse_lookup by (rewrite length_drop; lia).
      rewrite length_drop, lookup_drop.
      rewrite (lookup_nth_Some rngdata _ 0%Q) by lia.
      do 2 f_equal. lia.
    - rewrite lookup_take_ge by lia. cbn. symmetry.
      apply lookup_ge_None_2. rewrite length_reverse, length_drop. lia. }
  split; [exact Hre|]. split; [exact Him|].
  rewrite Hre, Him, reverse_involutive. symmetry. apply take_drop.
Qed.

Lemma pack_fdata_lossless_witness :
  exists fdata,
    pack_fdata 4 (map inject_Z [10; 11; 12; 13; 14; 15]) = Ok fdata /\
    map inject_Z [10; 11; 12; 13; 14; 15]
      = map fst fdata ++ reverse (map snd (take 2 (drop 1 fdata))).
Proof.
  destruct (pack_fdata_lossless 4 (map inject_Z [10; 11; 12; 13; 14; 15]))
    as (fdata & Hpack & _ & _ & Hall); [lia | reflexivity |].
  exists fdata. split; [exact Hpack | exact Hall].
Defined.

(** ** Which check fails first *)

Section CheckOrder.
Context `{Numerics}.

Lemma interpolate_psd_check_order (rate : Q) (fftlen : Z) (freq psd : list Q) :
  ~ (rate == 0)%Q -> 2 <= fftlen -> freq <> [] -> psd <> [] ->
  (freq_negative freq ->
   interpolate_psd rate fftlen (npsd_of fftlen) freq psd
   = Raise (RuntimeError "input PSD frequencies should be >= zero")) /\
  (~ freq_negative freq -> psd_negative psd ->
   interpolate_psd rate fftlen (npsd_of fftlen) freq psd
   = Raise (RuntimeError "input PSD values should be >= zero")) /\
  (~ freq_negative freq -> ~ psd_negative psd ->
   low_freq_uncovered rate fftlen freq ->
   interpolate_psd rate fftlen (npsd_of fftlen) freq psd
   = Raise (RuntimeError "input PSD does not go to low enough frequency to allow for interpolation")) /\
  (~ freq_negative freq -> ~ psd_negative psd ->
   ~ low_freq_uncovered rate fftlen freq -> nyquist_mismatch rate freq ->
   exists fl,
     last freq = Some fl /\
     interpolate_psd rate fftlen (npsd_of fftlen) freq psd
     = Raise (RuntimeError
                ("last frequency element does not match Nyquist frequency for given sample rate: "
                 +:+ float_str fl +:+ " != " +:+ float_str (rate / 2)))).
Proof.
  intros Hrate Hn Hf Hp. unfold interpolate_psd.
  rewrite (py_div_ok 1 rate Hrate), bind_Ok.
  destruct (np_rfftfreq_ok fftlen (1 / rate) (rfftfreq_divisor _ _ Hn Hrate))
    as (ifreq & Hif & Hlen).
  rewrite Hif, bind_Ok.
  assert (0 <= fftlen / 2) as Hhalf by (apply Z.div_pos; lia).
  assert (Z.of_nat (length ifreq) = npsd_of fftlen) as Hlen'
    by (rewrite Hlen; unfold npsd_of; lia).
  rewrite Hlen', Z.eqb_refl. cbn [negb].
  destruct (np_amin_nonempty freq Hf) as (fmin & Hfmin).
  rewrite Hfmin, bind_Ok.
  destruct (Qltb fmin 0) eqn:E1.
  { assert (freq_negative freq) as Y1
      by (apply (np_amin_lt 0 freq fmin Hfmin); apply Qltb_lt; exact E1).
    repeat split; intros; first [reflexivity | contradiction]. }
  assert (~ freq_negative freq) as N1.
  { intros Hneg. apply (np_amin_lt 0 freq fmin Hfmin) in Hneg.
    apply Qltb_lt in Hneg. congruence. }
  destruct (np_amin_nonempty psd Hp) as (pmin & Hpmin).
  rewrite Hpmin, bind_Ok.
  destruct (Qltb pmin 0) eqn:E2.
  { assert (psd_negative psd) as Y2
      by (apply (np_amin_lt 0 psd pmin Hpmin); apply Qltb_lt; exact E2).
    repeat split; intros; first [reflexivity | contradiction]. }
  assert (~ psd_negative psd) as N2.
  { intros Hneg. apply (np_amin_lt 0 psd pmin Hpmin) in Hneg.
    apply Qltb_lt in Hneg. congruence. }
  assert (~ (inject_Z fftlen == 0)%Q) as Hfz
    by (unfold Qeq, inject_Z; cbn; lia).
  rewrite (py_div_ok rate _ Hfz), bind_Ok.
  destruct freq as [|f0 freq']; [congruence|].
  rewrite py_getitem_first, bind_Ok.
  destruct (Qltb (rate / inject_Z fftlen) f0) eqn:E3.
  { assert (low_freq_uncovered rate fftlen (f0 :: freq')) as Y3
      by (exists f0; split; [reflexivity | apply Qltb_lt; exact E3]).
    repeat split; intros; first [reflexivity | contradiction]. }
  assert (~ low_freq_uncovered rate fftlen (f0 :: freq')) as N3.
  { intros (f & [= <-] & Hlt). apply Qltb_lt in Hlt. congruence. }
  assert (~ (2 == 0)%Q) as H2 by discriminate.
  rewrite (py_div_ok rate 2 H2), bind_Ok.
  destruct (last (f0 :: freq')) as [fl|] eqn:Elast;
    [|apply last_None in Elast; discriminate].
  rewrite (py_getitem_last _ _ Elast), bind_Ok.
  destruct (Qltb (1 # 100) (Qabs ((fl - rate / 2) / (rate / 2)))) eqn:E4.
  { split; [intros; contradiction|]. split; [intros; contradiction|].
    split; [intros; contradiction|].
    intros _ _ _ _. exists fl. split; reflexivity. }
  assert (~ nyquist_mismatch rate (f0 :: freq')) as N4.
  { intros (f & Hf' & Hlt). rewrite Elast in Hf'. injection Hf' as <-.
    apply Qltb_lt in Hlt. congruence. }
  repeat split; intros; contradiction.
Qed.

(** X6: the checks on the tables are made in a fixed order and the first one
    that fails decides the message: a negative frequency is reported even
    when the PSD is negative too, a negative PSD value before a first
    frequency that is too high, and that before a last frequency off
    Nyquist, whose message ends with the last frequency and the Nyquist
    frequency [rate / 2] as [format] renders them. *)
Theorem psd_checks_in_order
    (realization telescope component obsindx detindx : Z) (rate : Q)
    (firstsamp samples oversample fftlen : Z) (freq psd : list Q) :
  ~ (rate == 0)%Q -> freq <> [] -> psd <> [] ->
  fft_length oversample samples = Some fftlen ->
  (freq_negative freq ->
   sim_noise_timestream_py realization telescope component obsindx detindx
     rate firstsamp samples oversample freq psd
   = Raise (RuntimeError "input PSD frequencies should be >= zero")) /\
  (~ freq_negative freq -> psd_negative psd ->
   sim_noise_timestream_py realization telescope component obsindx detindx
     rate firstsamp samples oversample freq psd
   = Raise (RuntimeError "input PSD values should be >= zero")) /\
  (~ freq_negative freq -> ~ psd_negative psd ->
   low_freq_uncovered rate fftlen freq ->
   sim_noise_timestream_py realization telescope component obsindx detindx
     rate firstsamp samples oversample freq psd
   = Raise (RuntimeError "input PSD does not go to low enough frequency to allow for interpolation")) /\
  (~ freq_negative freq -> ~ psd_negative psd ->
   ~ low_freq_uncovered rate fftlen freq -> nyquist_mismatch rate freq ->
   exists fl,
     last freq = Some fl /\
     sim_noise_timestream_py realization telescope component obsindx detindx
       rate firstsamp samples oversample freq psd
     = Raise (RuntimeError
                ("last frequency element does not match Nyquist frequency for given sample rate: "
                 +:+ float_str fl +:+ " != " +:+ float_str (rate / 2)))).
Proof.
  intros Hrate Hf Hp Hfft.
  destruct (fft_length_even _ _ _ Hfft) as [H2 _].
  destruct (interpolate_psd_check_order rate fftlen freq psd Hrate H2 Hf Hp)
    as (C1 & C2 & C3 & C4).
  unfold sim_noise_timestream_py. rewrite Hfft. cbn [from_fuel].
  rewrite bind_Ok. cbv zeta.
  repeat split; intros.
  - rewrite C1 by assumption. reflexivity.
  - rewrite C2 by assumption. reflexivity.
  - rewrite C3 by assumption. reflexivity.
  - destruct C4 as (fl & Hlast & C4); [assumption..|].
    exists fl. split; [exact Hlast|]. rewrite C4. reflexivity.
Qed.

(** X7: a zero rate fails in the division that computes the sample spacing,
    before any table is looked at; with a nonzero rate an empty frequency
    table, or an empty PSD table beside non-negative frequencies, fails in
    the minimum over the table, which is not one of the precondition
    errors. *)
Theorem degenerate_tables_fail
    (realization telescope component obsindx detindx : Z) (rate : Q)
    (firstsamp samples oversample : Z) (freq psd : list Q) :
  ((rate == 0)%Q ->
   sim_noise_timestream_py realization telescope component obsindx detindx
     rate firstsamp samples oversample freq psd = Raise ZeroDivisionError) /\
  (~ (rate == 0)%Q -> freq = [] ->
   is_value_error
     (sim_noise_timestream_py realization telescope component obsindx detindx
        rate firstsamp samples oversample freq psd)) /\
  (~ (rate == 0)%Q -> freq <> [] -> ~ freq_negative freq -> psd = [] ->
   is_value_error
     (sim_noise_timestream_py realization telescope component obsindx detindx
        rate firstsamp samples oversample freq psd)).
Proof.
  destruct (fft_length_spec oversample samples) as (fftlen & Hfft & _).
  destruct (fft_length_even _ _ _ Hfft) as [H2 _].
  unfold sim_noise_timestream_py. rewrite Hfft. cbn [from_fuel].
  rewrite bind_Ok. cbv zeta. unfold interpolate_psd.
  split; [|split].
  - intros Hz.
    assert (py_div 1 rate = Raise ZeroDivisionError) as ->.
    { unfold py_div. apply Qeq_bool_iff in Hz. rewrite Hz. reflexivity. }
    reflexivity.
  - intros Hrate ->. rewrite (py_div_ok 1 rate Hrate), bind_Ok.
    destruct (np_rfftfreq_ok fftlen (1 / rate) (rfftfreq_divisor _ _ H2 Hrate))
      as (ifreq & Hif & Hlen).
    rewrite Hif, bind_Ok.
    assert (0 <= fftlen / 2) as Hhalf by (apply Z.div_pos; lia).
    replace (Z.of_nat (length ifreq)) with (npsd_of fftlen)
      by (rewrite Hlen; unfold npsd_of; lia).
    rewrite Z.eqb_refl. exact I.
  - intros Hrate Hf N1 ->. rewrite (py_div_ok 1 rate Hrate), bind_Ok.
    destruct (np_rfftfreq_ok fftlen (1 / rate) (rfftfreq_divisor _ _ H2 Hrate))
      as (ifreq & Hif & Hlen).
    rewrite Hif, bind_Ok.
    assert (0 <= fftlen / 2) as Hhalf by (apply Z.div_pos; lia).
    replace (Z.of_nat (length ifreq)) with (npsd_of fftlen)
      by (rewrite Hlen; unfold npsd_of; lia).
    rewrite Z.eqb_refl. cbn [negb].
    destruct (np_amin_nonempty freq Hf) as (fmin & Hfmin).
    rewrite Hfmin, bind_Ok.
    destruct (Qltb fmin 0) eqn:E1; [|exact I].
    exfalso. apply N1. apply (np_amin_lt 0 freq fmin Hfmin).
    apply Qltb_lt. exact E1.
Qed.

End CheckOrder.

Lemma psd_checks_in_order_witness :
  sim_noise_timestream_py 0 0 0 0 0 100 0 3 2 [(-1)%Q; 70%Q] [(-1)%Q; 1%Q]
  = Raise (RuntimeError "input PSD frequencies should be >= zero")
  /\ exists fl,
       last [0%Q; 70%Q] = Some fl /\
       sim_noise_timestream_py 0 0 0 0 0 100 0 3 2 [0%Q; 70%Q] [1%Q; 1%Q]
       = Raise (RuntimeError
                  ("last frequency element does not match Nyquist frequency for given sample rate: "
                   +:+ float_str fl +:+ " != " +:+ float_str (100 / 2))).
Proof.
  split.
  - apply (psd_checks_in_order 0 0 0 0 0 100 0 3 2 8 [(-1)%Q; 70%Q] [(-1)%Q; 1%Q]);
      try discriminate; try reflexivity.
    left. reflexivity.
  - apply (psd_checks_in_order 0 0 0 0 0 100 0 3 2 8 [0%Q; 70%Q] [1%Q; 1%Q]);
      try discriminate; try reflexivity.
    + apply forallb_not_Exists_lt. reflexivity.
    + apply forallb_not_Exists_lt. reflexivity.
    + intros (f0 & [= <-] & Hlt). revert Hlt. apply Qle_not_lt. discriminate.
    + exists 70%Q. split; reflexivity.
Defined.

Lemma degenerate_tables_fail_witness :
  sim_noise_timestream_py 0 0 0 0 0 0 0 3 2 [] [] = Raise ZeroDivisionError /\
  is_value_error (sim_noise_timestream_py 0 0 0 0 0 100 0 3 2 [] [1%Q]) /\
  is_value_error (sim_noise_timestream_py 0 0 0 0 0 100 0 3 2 [0%Q; 50%Q] []).
Proof.
  split; [|split].
  - destruct (degenerate_tables_fail 0 0 0 0 0 0 0 3 2 [] []) as (Hzero & _ & _).
    apply Hzero. reflexivity.
  - destruct (degenerate_tables_fail 0 0 0 0 0 100 0 3 2 [] [1%Q]) as (_ & Hfreq & _).
    apply Hfreq; [discriminate | reflexivity].
  - destruct (degenerate_tables_fail 0 0 0 0 0 100 0 3 2 [0%Q; 50%Q] [])
      as (_ & _ & Hpsd).
    apply Hpsd; [discriminate | discriminate | | reflexivity].
    apply forallb_not_Exists_lt. reflexivity.
Defined.

(** ** The window cut from a transform *)

(** X8: the cropping of lines 164-169, on any transform of [fftlen]
    values and for any sample count between 1 and [fftlen]: the result has
    [samples] values, is the window that starts at [(fftlen - samples) // 2]
    with the mean of that window subtracted from each value, and has mean
    zero in exact arithmetic. *)
Theorem crop_window_centered (tdata : list Q) (fftlen samples : Z) :
  1 <= samples <= fftlen -> Z.of_nat (length tdata) = fftlen ->
  let offset := Z.to_nat ((fftlen - samples) / 2) in
  let w := take (Z.to_nat samples) (drop offset tdata) in
  Z.of_nat (length (crop_window tdata fftlen samples)) = samples /\
  (offset + Z.to_nat samples <= length tdata)%nat /\
  crop_window tdata fftlen samples = map (fun x => (x - np_mean w)%Q) w /\
  (np_mean (crop_window tdata fftlen samples) == 0)%Q.
Proof.
  intros Hs Hlen. cbv zeta.
  destruct (crop_window_spec tdata fftlen samples) as [Hcrop Hw]; [lia | exact Hlen |].
  cbv zeta in Hcrop, Hw.
  assert (0 <= (fftlen - samples) / 2) as Hoff by (apply Z.div_pos; lia).
  assert ((fftlen - samples) / 2 + samples <= fftlen) as Hend.
  { pose proof (Z.mul_div_le (fftlen - samples) 2 ltac:(lia)). lia. }
  split; [rewrite Hcrop, length_map, Hw; lia|].
  split; [lia|]. split; [exact Hcrop|].
  rewrite Hcrop. apply np_mean_centered.
  intros Hnil. rewrite Hnil in Hw. cbn in Hw. lia.
Qed.

Lemma crop_window_centered_witness :
  Z.of_nat (length (crop_window [5; 1; 2; 6; 9; 7; 0; 4]%Q 8 3)) = 3 /\
  crop_window [5; 1; 2; 6; 9; 7; 0; 4]%Q 8 3
  = map (fun x => (x - np_mean [2; 6; 9]%Q)%Q) [2; 6; 9]%Q /\
  (np_mean (crop_window [5; 1; 2; 6; 9; 7; 0; 4]%Q 8 3) == 0)%Q.
Proof.
  destruct (crop_window_centered [5; 1; 2; 6; 9; 7; 0; 4]%Q 8 3)
    as (Hlen & _ & Hcrop & Hmean); [lia | reflexivity |].
  split; [exact Hlen|]. split; [exact Hcrop | exact Hmean].
Defined.

Section OperatorFrame.
Context `{Numerics} `{Libtoast}.

Lemma only_output_changed_refl (self : SimNoise) (ob : Observation) :
  only_output_changed self ob ob.
Proof. split; [destruct ob; reflexivity | reflexivity]. Qed.

Lemma only_output_changed_trans (self : SimNoise) (a b c : Observation) :
  only_output_changed self a b -> only_output_changed self b c ->
  only_output_changed self a c.
Proof.
  intros [Hab Fab] [Hbc Fbc]. split.
  - rewrite Hbc, Hab at 1. apply set_detdata_twice.
  - intros name Hname. rewrite Fbc, Fab by exact Hname. reflexivity.
Qed.

Lemma np_inplace2_length {A B} (f : A -> B -> A) (x : list A) (y : list B)
    (r : list A) :
  np_inplace2 f x y = Ok r -> length r = length x.
Proof.
  unfold np_inplace2. destruct (Nat.eqb_spec (length x) (length y)) as [Heq|Hne].
  - intros [= <-]. rewrite length_zip_with. lia.
  - destruct y as [|b [|b' y]]; try discriminate.
    intros [= <-]. apply length_map.
Qed.

Lemma detdata_iadd_inv (self : SimNoise) (ob ob' : Observation) (det : string)
    (v : list Q) :
  detdata_iadd ob (out self) det v = Ok ob' ->
  only_output_changed self ob ob' /\
  (forall d, d <> det -> out_buffer self ob' d = out_buffer self ob d) /\
  same_shape self ob ob'.
Proof.
  unfold detdata_iadd, same_shape, out_buffer.
  destruct (ob_detdata ob !! out self) as [bufs|] eqn:Ebufs; [|discriminate].
  destruct (bufs !! det) as [buf|] eqn:Ebuf; [|discriminate].
  intros Hok. apply bind_Ok_inv in Hok. destruct Hok as (buf' & Hadd & [= <-]).
  apply np_inplace2_length in Hadd. cbn [ob_detdata set_detdata].
  split; [split; [reflexivity|]|split].
  - intros name Hname. apply lookup_insert_ne. congruence.
  - intros d Hd. rewrite lookup_insert_eq. apply lookup_insert_ne. congruence.
  - intros d. rewrite lookup_insert_eq. destruct (decide (det = d)) as [<-|Hne].
    + rewrite lookup_insert_eq, Ebuf. cbn. rewrite Hadd. reflexivity.
    + rewrite lookup_insert_ne by exact Hne. reflexivity.
Qed.

Lemma add_noise_frame (self : SimNoise) (nse : NoiseModel) (key : string)
    (nsedata : list Q) (dets : list string) :
  forall ob ob' r,
    add_noise self nse key nsedata dets ob = (ob', r) ->
    only_output_changed self ob ob' /\
    (forall d, d ∉ dets \/ Qeq_bool (nse_weight nse d key) 0 = true ->
               out_buffer self ob' d = out_buffer self ob d) /\
    same_shape self ob ob'.
Proof.
  induction dets as [|det dets IH]; intros ob ob' r Hrun; cbn [add_noise] in Hrun.
  - injection Hrun as <- <-. split; [apply only_output_changed_refl|].
    split; [reflexivity | intros d; reflexivity].
  - destruct (Qeq_bool (nse_weight nse det key) 0) eqn:Ew.
    + destruct (IH ob ob' r Hrun) as (Hrec & Hsame & Hshape).
      split; [exact Hrec|]. split; [|exact Hshape].
      intros d [Hd|Hd]; apply Hsame; [left | right; exact Hd].
      intros Hin. apply Hd. right. exact Hin.
    + destruct (detdata_iadd ob (out self) det _) as [ob1|e|] eqn:Hadd.
      * destruct (detdata_iadd_inv self ob ob1 det _ Hadd) as (Hrec1 & Hsame1 & Hshape1).
        destruct (IH ob1 ob' r Hrun) as (Hrec & Hsame & Hshape).
        split; [exact (only_output_changed_trans _ _ _ _ Hrec1 Hrec)|]. split.
        -- intros d Hd. assert (d <> det) as Hne.
           { intros ->. destruct Hd as [Hd|Hd]; [apply Hd; left | congruence]. }
           rewrite <- (Hsame1 d Hne). apply Hsame.
           destruct Hd as [Hd|Hd]; [left | right; exact Hd].
           intros Hin. apply Hd. right. exact Hin.
        -- intros d. rewrite Hshape, Hshape1. reflexivity.
      * injection Hrun as <- <-. split; [apply only_output_changed_refl|].
        split; [reflexivity | intros d; reflexivity].
      * injection Hrun as <- <-. split; [apply only_output_changed_refl|].
        split; [reflexivity | intros d; reflexivity].
Qed.

Lemma key_call_frame (self : SimNoise) (ob ob' : Observation) (nse : NoiseModel)
    (rate : Q) (global_offset : Z) (key : string) :
  only_output_changed self ob ob' ->
  key_call self ob' nse rate global_offset key
  = key_call self ob nse rate global_offset key.
Proof. intros [-> _]. reflexivity. Qed.

Lemma exec_key_frame (self : SimNoise) (nse : NoiseModel) (rate : Q)
    (global_offset : Z) (dets : list string) (key : string)
    (ob ob' : Observation) (calls calls' : list SynthCall) (r : outcome unit) :
  exec_key self nse rate global_offset dets key (ob, calls) = ((ob', calls'), r) ->
  only_output_changed self ob ob' /\
  (forall d, d ∉ dets \/ Qeq_bool (nse_weight nse d key) 0 = true ->
             out_buffer self ob' d = out_buffer self ob d) /\
  same_shape self ob ob' /\
  calls' = calls ++ (if Qeq_bool (key_weight nse dets key) 0 then []
                     else [key_call self ob nse rate global_offset key]).
Proof.
  unfold exec_key. destruct (Qeq_bool (key_weight nse dets key) 0).
  - intros [= <- <- <-]. rewrite app_nil_r.
    split; [apply only_output_changed_refl|].
    split; [reflexivity|]. split; [intros d; reflexivity | reflexivity].
  - destruct (sim_noise_timestream _ false) as [[ts a b|ts]|e|].
    + destruct (add_noise _ _ _ _ _ _) as [ob1 r1] eqn:Hadd.
      intros [= <- <- <-].
      destruct (add_noise_frame _ _ _ _ _ _ _ _ Hadd) as (Hrec & Hsame & Hshape).
      repeat split; try assumption; apply Hrec.
    + destruct (add_noise _ _ _ _ _ _) as [ob1 r1] eqn:Hadd.
      intros [= <- <- <-].
      destruct (add_noise_frame _ _ _ _ _ _ _ _ Hadd) as (Hrec & Hsame & Hshape).
      repeat split; try assumption; apply Hrec.
    + intros [= <- <- <-]. split; [apply only_output_changed_refl|].
      split; [reflexivity|]. split; [intros d; reflexivity | reflexivity].
    + intros [= <- <- <-]. split; [apply only_output_changed_refl|].
      split; [reflexivity|]. split; [intros d; reflexivity | reflexivity].
Qed.

Lemma exec_keys_frame (self : SimNoise) (nse : NoiseModel) (rate : Q)
    (global_offset : Z) (dets : list string) (keys : list string) :
  forall ob ob' calls calls' r,
    exec_keys self nse rate global_offset dets keys (ob, calls) = ((ob', calls'), r) ->
    only_output_changed self ob ob' /\
    (forall d, d ∉ dets \/ Forall (fun key => Qeq_bool (nse_weight nse d key) 0 = true) keys ->
               out_buffer self ob' d = out_buffer self ob d) /\
    same_shape self ob ob' /\
    exists n,
      calls' = calls ++ map (key_call self ob nse rate global_offset)
                            (take n (needed_keys nse dets keys)).
Proof.
  induction keys as [|key keys IH]; intros ob ob' calls calls' r Hrun;
    cbn [exec_keys] in Hrun.
  - injection Hrun as <- <- <-. split; [apply only_output_changed_refl|].
    split; [reflexivity|]. split; [intros d; reflexivity|].
    exists 0%nat. cbn. rewrite app_nil_r. reflexivity.
  - destruct (exec_key self nse rate global_offset dets key (ob, calls))
      as [[ob1 calls1] r1] eqn:Hkey.
    destruct (exec_key_frame _ _ _ _ _ _ _ _ _ _ _ Hkey)
      as (Hrec1 & Hsame1 & Hshape1 & Hcalls1).
    assert (forall d, d ∉ dets
                      \/ Forall (fun key => Qeq_bool (nse_weight nse d key) 0 = true)
                                (key :: keys) ->
                      out_buffer self ob1 d = out_buffer self ob d) as Hsame1'.
    { intros d [Hd|Hd]; apply Hsame1; [left; exact Hd | right].
      apply Forall_cons in Hd. tauto. }
    unfold needed_keys. rewrite filter_cons. fold (needed_keys nse dets keys).
    destruct (Qeq_bool (key_weight nse dets key) 0) eqn:Ez.
    + rewrite app_nil_r in Hcalls1. subst calls1.
      destruct (decide (true = false)) as [Hbad|_]; [discriminate|].
      destruct r1 as [[]|e|].
      * destruct (IH _ _ _ _ _ Hrun) as (Hrec & Hsame & Hshape & n & Hn).
        split; [exact (only_output_changed_trans _ _ _ _ Hrec1 Hrec)|]. split; [|split].
        -- intros d Hd. rewrite <- (Hsame1' d Hd). apply Hsame.
           destruct Hd as [Hd|Hd]; [left; exact Hd | right].
           apply Forall_cons in Hd. tauto.
        -- intros d. rewrite Hshape, Hshape1. reflexivity.
        -- exists n. rewrite Hn.
           rewrite (map_ext _ _ (fun k => key_call_frame self ob ob1 nse rate
                                            global_offset k Hrec1)).
           reflexivity.
      * injection Hrun as <- <- <-. split; [exact Hrec1|]. split; [exact Hsame1'|].
        split; [exact Hshape1|]. exists 0%nat. cbn. rewrite app_nil_r. reflexivity.
      * injection Hrun as <- <- <-. split; [exact Hrec1|]. split; [exact Hsame1'|].
        split; [exact Hshape1|]. exists 0%nat. cbn. rewrite app_nil_r. reflexivity.
    + subst calls1.
      destruct (decide (false = false)) as [_|Hbad]; [|congruence].
      destruct r1 as [[]|e|].
      * destruct (IH _ _ _ _ _ Hrun) as (Hrec & Hsame & Hshape & n & Hn).
        split; [exact (only_output_changed_trans _ _ _ _ Hrec1 Hrec)|]. split; [|split].
        -- intros d Hd. rewrite <- (Hsame1' d Hd). apply Hsame.
           destruct Hd as [Hd|Hd]; [left; exact Hd | right].
           apply Forall_cons in Hd. tauto.
        -- intros d. rewrite Hshape, Hshape1. reflexivity.
        -- exists (S n). rewrite Hn, <- app_assoc. cbn [take map app].
           rewrite (map_ext _ _ (fun k => key_call_frame self ob ob1 nse rate
                                            global_offset k Hrec1)).
           reflexivity.
      * injection Hrun as <- <- <-. split; [exact Hrec1|]. split; [exact Hsame1'|].
        split; [exact Hshape1|]. exists 1%nat. cbn [take map]. reflexivity.
      * injection Hrun as <- <- <-. split; [exact Hrec1|]. split; [exact Hsame1'|].
        split; [exact Hshape1|]. exists 1%nat. cbn [take map]. reflexivity.
Qed.

End OperatorFrame.

Section OperatorOutcomes.
Context `{Numerics} `{Libtoast}.

Lemma ensure_output_frame (self : SimNoise) (ob : Observation) :
  only_output_changed self ob (ensure_output self ob).
Proof.
  split; [apply ensure_output_record|].
  intros name Hname. unfold ensure_output.
  destruct (ob_detdata ob !! out self); [reflexivity|].
  unfold detdata_create. cbn [ob_detdata set_detdata].
  apply lookup_insert_ne. congruence.
Qed.

Lemma ensure_output_present (self : SimNoise) (ob : Observation)
    (bufs : gmap string (list Q)) :
  ob_detdata ob !! out self = Some bufs -> ensure_output self ob = ob.
Proof. intros Hb. unfold ensure_output. rewrite Hb. reflexivity. Qed.

(** What one pass over an observation can have done, whatever its
    outcome. *)
Lemma exec_observation_frame (self : SimNoise) (detectors : option (list string))
    (ob ob' : Observation) (calls calls' : list SynthCall) (r : outcome unit) :
  exec_observation self detectors (ob, calls) = ((ob', calls'), r) ->
  only_output_changed self ob ob' /\
  (forall bufs, ob_detdata ob !! out self = Some bufs ->
     same_shape self ob ob' /\
     forall d,
       d ∉ select_local_detectors ob detectors
       \/ (forall nse, ob_noise ob !! noise_model self = Some nse ->
             Forall (fun key => Qeq_bool (nse_weight nse d key) 0 = true)
                    (nse_keys nse)) ->
       out_buffer self ob' d = out_buffer self ob d) /\
  exists extra,
    calls' = calls ++ extra /\
    forall c, c ∈ extra ->
      exists nse t key,
        ob_noise ob !! noise_model self = Some nse /\
        ob_shared ob !! times self = Some t /\
        key ∈ needed_keys nse (select_local_detectors ob detectors) (nse_keys nse) /\
        c = key_call self ob nse (rate_from_times t) (global_offset_of ob) key.
Proof.
  unfold exec_observation.
  set (dets := select_local_detectors ob detectors).
  assert (only_output_changed self ob ob /\
          (forall bufs, ob_detdata ob !! out self = Some bufs ->
             same_shape self ob ob /\
             forall d,
               d ∉ dets
               \/ (forall nse, ob_noise ob !! noise_model self = Some nse ->
                     Forall (fun key => Qeq_bool (nse_weight nse d key) 0 = true)
                            (nse_keys nse)) ->
               out_buffer self ob d = out_buffer self ob d) /\
          exists extra,
            calls = calls ++ extra /\
            forall c, c ∈ extra ->
              exists nse t key,
                ob_noise ob !! noise_model self = Some nse /\
                ob_shared ob !! times self = Some t /\
                key ∈ needed_keys nse dets (nse_keys nse) /\
                c = key_call self ob nse (rate_from_times t) (global_offset_of ob) key)
    as Hidle.
  { split; [apply only_output_changed_refl|]. split.
    - intros bufs _. split; [intros d; reflexivity | reflexivity].
    - exists []. rewrite app_nil_r. split; [reflexivity|].
      intros c Hc. inversion Hc. }
  destruct (Nat.eqb (length dets) 0); [intros [= <- <- <-]; exact Hidle|].
  destruct (ob_noise ob !! noise_model self) as [nse|] eqn:Hnse;
    [|intros [= <- <- <-]; exact Hidle].
  destruct (negb (ob_comm_row_size ob =? 1)); [intros [= <- <- <-]; exact Hidle|].
  pose proof (ensure_output_frame self ob) as Hrec0.
  assert (ob_shared (ensure_output self ob) = ob_shared ob) as Hshared
    by (destruct Hrec0 as [-> _]; reflexivity).
  rewrite Hshared.
  destruct (ob_shared ob !! times self) as [t|] eqn:Ht.
  - intros Hrun.
    destruct (exec_keys_frame _ _ _ _ _ _ _ _ _ _ _ Hrun)
      as (Hrec & Hsame & Hshape & n & Hn).
    split; [exact (only_output_changed_trans _ _ _ _ Hrec0 Hrec)|]. split.
    + intros bufs Hb. rewrite (ensure_output_present self ob bufs Hb) in *.
      split; [exact Hshape|]. intros d [Hd|Hd]; apply Hsame; [left; exact Hd|].
      right. apply Hd. reflexivity.
    + eexists. split; [exact Hn|]. intros c Hc.
      apply list_elem_of_fmap in Hc. destruct Hc as (key & -> & Hkey).
      exists nse, t, key. split; [reflexivity|]. split; [reflexivity|].
      split; [exact (subseteq_take _ _ _ Hkey)|].
      apply key_call_frame. exact Hrec0.
  - intros [= <- <- <-]. split; [exact Hrec0|]. split.
    + intros bufs Hb. rewrite (ensure_output_present self ob bufs Hb).
      split; [intros d; reflexivity | reflexivity].
    + exists []. rewrite app_nil_r. split; [reflexivity|].
      intros c Hc. inversion Hc.
Qed.

End OperatorOutcomes.

Section OperatorTheorems.
Context `{Numerics} `{Libtoast}.

(** X9: in every outcome, a run over a list of observations leaves each
    observation as it was except for the buffers under the output key, and
    only appends to the list of synthesis calls. *)
Theorem exec_writes_only_output (self : SimNoise) (detectors : option (list string))
    (obs obs' : list Observation) (calls calls' : list SynthCall)
    (r : outcome unit) :
  _exec self obs detectors calls = (obs', calls', r) ->
  Forall2 (only_output_changed self) obs obs' /\
  exists extra, calls' = calls ++ extra.
Proof.
  revert obs' calls calls' r.
  induction obs as [|ob obs IH]; intros obs' calls calls' r Hrun; cbn [_exec] in Hrun.
  - injection Hrun as <- <- <-. split; [constructor|].
    exists []. rewrite app_nil_r. reflexivity.
  - destruct (exec_observation self detectors (ob, calls))
      as [[ob1 calls1] r1] eqn:Hob.
    destruct (exec_observation_frame _ _ _ _ _ _ _ Hob)
      as (Hrec & _ & extra1 & Hextra1 & _).
    assert (Forall2 (only_output_changed self) obs obs) as Hsame.
    { clear. induction obs; constructor;
        [apply only_output_changed_refl | assumption]. }
    destruct r1 as [[]|e|].
    + destruct (_exec self obs detectors calls1) as [[obs2 calls2] r2] eqn:Hrest.
      injection Hrun as <- <- <-.
      destruct (IH _ _ _ _ Hrest) as (Hall & extra2 & Hextra2).
      split; [constructor; assumption|].
      exists (extra1 ++ extra2). rewrite Hextra2, Hextra1, app_assoc. reflexivity.
    + injection Hrun as <- <- <-. split; [constructor; assumption|].
      exists extra1. exact Hextra1.
    + injection Hrun as <- <- <-. split; [constructor; assumption|].
      exists extra1. exact Hextra1.
Qed.

(** X10: every synthesis call made for an observation, whatever the outcome,
    carries the operator's realization, component and oversampling factor
    and the observation's telescope, id, sample count and first sample
    (local offset plus global offset); two such calls with different PSD
    indices use different generator keys. *)
Theorem synthesis_calls_of_observation (self : SimNoise)
    (detectors : option (list string)) (ob ob' : Observation)
    (calls calls' : list SynthCall) (r : outcome unit) :
  exec_observation self detectors (ob, calls) = ((ob', calls'), r) ->
  exists extra,
    calls' = calls ++ extra /\
    (forall c, c ∈ extra ->
       sc_realization c = realization self /\
       sc_component c = component self /\
       sc_oversample c = _oversample self /\
       sc_telescope c = ob_telescope_id ob /\
       sc_obsindx c = ob_UID ob /\
       sc_samples c = ob_n_local_samples ob /\
       sc_firstsamp c = ob_local_index_offset ob + global_offset_of ob) /\
    (forall c1 c2, c1 ∈ extra -> c2 ∈ extra ->
       sc_detindx c1 <> sc_detindx c2 ->
       (rng_key1 (sc_realization c1) (sc_telescope c1) (sc_component c1),
        rng_key2 (sc_obsindx c1) (sc_detindx c1))
       <> (rng_key1 (sc_realization c2) (sc_telescope c2) (sc_component c2),
           rng_key2 (sc_obsindx c2) (sc_detindx c2))).
Proof.
  intros Hrun.
  destruct (exec_observation_frame _ _ _ _ _ _ _ Hrun)
    as (_ & _ & extra & Hextra & Hcalls).
  assert (forall c, c ∈ extra ->
            sc_realization c = realization self /\
            sc_component c = component self /\
            sc_oversample c = _oversample self /\
            sc_telescope c = ob_telescope_id ob /\
            sc_obsindx c = ob_UID ob /\
            sc_samples c = ob_n_local_samples ob /\
            sc_firstsamp c = ob_local_index_offset ob + global_offset_of ob) as Hfields.
  { intros c Hc. destruct (Hcalls c Hc) as (nse & t & key & _ & _ & _ & ->).
    cbn. repeat split. }
  exists extra. split; [exact Hextra|]. split; [exact Hfields|].
  intros c1 c2 H1 H2 Hne Hkeys.
  destruct (Hfields c1 H1) as (_ & _ & _ & _ & Ho1 & _).
  destruct (Hfields c2 H2) as (_ & _ & _ & _ & Ho2 & _).
  injection Hkeys as _ Hk2. unfold rng_key2 in Hk2. rewrite Ho1, Ho2 in Hk2.
  apply Hne. lia.
Qed.

(** X11: when the output already exists, a pass over the observation, whatever
    its outcome, keeps the set of detectors that have a buffer and the
    length of every buffer, and leaves untouched the buffer of every
    detector that is not active or whose weights are zero for all keys. *)
Theorem inactive_buffers_untouched (self : SimNoise)
    (detectors : option (list string)) (ob ob' : Observation)
    (calls calls' : list SynthCall) (r : outcome unit)
    (bufs : gmap string (list Q)) :
  exec_observation self detectors (ob, calls) = ((ob', calls'), r) ->
  ob_detdata ob !! out self = Some bufs ->
  (forall d, length <$> out_buffer self ob' d = length <$> bufs !! d) /\
  (forall d, d ∉ select_local_detectors ob detectors ->
             out_buffer self ob' d = bufs !! d) /\
  (forall d nse,
      ob_noise ob !! noise_model self = Some nse ->
      Forall (fun key => Qeq_bool (nse_weight nse d key) 0 = true) (nse_keys nse) ->
      out_buffer self ob' d = bufs !! d).
Proof.
  intros Hrun Hb.
  destruct (exec_observation_frame _ _ _ _ _ _ _ Hrun) as (_ & Hout & _).
  destruct (Hout bufs Hb) as (Hshape & Hsame).
  assert (forall d, out_buffer self ob d = bufs !! d) as Hbuf
    by (intros d; unfold out_buffer; rewrite Hb; reflexivity).
  split; [|split].
  - intros d. rewrite <- Hbuf. apply Hshape.
  - intros d Hd. rewrite <- Hbuf. apply Hsame. left. exact Hd.
  - intros d nse Hnse Hzero. rewrite <- Hbuf. apply Hsame. right.
    intros nse' Hnse'. rewrite Hnse in Hnse'. injection Hnse' as <-. exact Hzero.
Qed.

(** X12: with active detectors, a noise model and a single rank in the sample
    direction, a missing timestamp array raises [KeyError] only after the
    output has been created: the observation is left with zeroed buffers
    for its local detectors and no synthesis has been called. *)
Theorem missing_times_after_output (self : SimNoise)
    (detectors : option (list string)) (ob : Observation)
    (calls : list SynthCall) (nse : NoiseModel) :
  select_local_detectors ob detectors <> [] ->
  ob_noise ob !! noise_model self = Some nse ->
  ob_comm_row_size ob = 1 ->
  ob_shared ob !! times self = None ->
  exec_observation self detectors (ob, calls)
    = ((ensure_output self ob, calls), Raise (KeyError (times self))) /\
  (ob_detdata ob !! out self = None ->
   forall d, d ∈ ob_local_detectors ob ->
     out_buffer self (ensure_output self ob) d
     = Some (np_zeros (ob_n_local_samples ob) 0%Q)).
Proof.
  intros Hdets Hnse Hrow Ht. split.
  - unfold exec_observation.
    destruct (select_local_detectors ob detectors); [congruence|].
    cbn [length Nat.eqb]. rewrite Hnse, Hrow. cbn [Z.eqb Pos.eqb negb].
    assert (ob_shared (ensure_output self ob) = ob_shared ob) as ->
      by (destruct (ensure_output_frame self ob) as [-> _]; reflexivity).
    rewrite Ht. reflexivity.
  - intros Hnone d Hd. unfold ensure_output. rewrite Hnone.
    apply detdata_create_buffer. exact Hd.
Qed.

End OperatorTheorems.

Lemma exec_writes_only_output_witness :
  Forall2 (only_output_changed sample_operator)
    [sample_observation; sample_split_observation]
    (fst (fst (_exec sample_operator [sample_observation; sample_split_observation]
                 None []))).
Proof.
  destruct (_exec sample_operator [sample_observation; sample_split_observation]
              None []) as [[obs' calls'] r] eqn:E.
  exact (proj1 (exec_writes_only_output _ _ _ _ _ _ _ E)).
Defined.

Lemma synthesis_calls_of_observation_witness :
  exists c1 c2 rest,
    snd (fst (exec_observation sample_operator None (sample_mixed_observation, [])))
      = c1 :: c2 :: rest /\
    sc_realization c1 = 0 /\ sc_component c1 = 0 /\ sc_oversample c1 = 2 /\
    sc_telescope c1 = 1 /\ sc_obsindx c1 = 7 /\ sc_samples c1 = 3 /\
    sc_firstsamp c1 = 4 + 10 /\
    (rng_key1 (sc_realization c1) (sc_telescope c1) (sc_component c1),
     rng_key2 (sc_obsindx c1) (sc_detindx c1))
    <> (rng_key1 (sc_realization c2) (sc_telescope c2) (sc_component c2),
        rng_key2 (sc_obsindx c2) (sc_detindx c2)).
Proof.
  assert (exists c1 c2 c3,
             snd (fst (exec_observation sample_operator None
                         (sample_mixed_observation, []))) = [c1; c2; c3]
             /\ sc_detindx c1 = 5 /\ sc_detindx c2 = 6)
    as (c1 & c2 & c3 & Hcalls & Hd1 & Hd2).
  { eexists _, _, _. split; [vm_compute; reflexivity|]. split; reflexivity. }
  destruct (exec_observation sample_operator None (sample_mixed_observation, []))
    as [[ob' calls'] r] eqn:E.
  destruct (synthesis_calls_of_observation _ _ _ _ _ _ _ E)
    as (extra & Hextra & Hfields & Hkeys).
  cbn [fst snd] in Hcalls. cbn [app] in Hextra. subst calls' extra.
  exists c1, c2, [c3]. split; [reflexivity|].
  destruct (Hfields c1) as (H1 & H2 & H3 & H4 & H5 & H6 & H7); [left|].
  repeat (split; [assumption|]).
  apply Hkeys.
  - left.
  - right. left.
  - rewrite Hd1, Hd2. discriminate.
Defined.

Lemma inactive_buffers_untouched_witness :
  out_buffer sample_operator
    (fst (fst (exec_observation sample_operator (Some ["d1"])
                 (sample_written_observation, []))))
    "d2"
  = Some [2%Q; 2%Q; 2%Q].
Proof.
  destruct (exec_observation sample_operator (Some ["d1"])
              (sample_written_observation, [])) as [[ob' calls'] r] eqn:E.
  destruct (inactive_buffers_untouched sample_operator (Some ["d1"])
              sample_written_observation ob' [] calls' r
              {["d1" := [1%Q; 1%Q; 1%Q]; "d2" := [2%Q; 2%Q; 2%Q]]} E)
    as (_ & Hsame & _); [vm_compute; reflexivity|].
  cbn [fst]. rewrite Hsame; [vm_compute; reflexivity|].
  intros Hin. vm_compute in Hin.
  apply elem_of_cons in Hin. destruct Hin as [Hin|Hin]; [discriminate|inversion Hin].
Defined.

Lemma missing_times_after_output_witness :
  exec_observation sample_operator None (sample_untimed_observation, [])
  = ((ensure_output sample_operator sample_untimed_observation, []),
     Raise (KeyError "times")).
Proof.
  apply (missing_times_after_output sample_operator None
           sample_untimed_observation [] sample_noise).
  - discriminate.
  - vm_compute. reflexivity.
  - reflexivity.
  - vm_compute. reflexivity.
Defined.

Section KeyLoop.
Context `{Numerics} `{Libtoast}.

Lemma exec_keys_app (self : SimNoise) (nse : NoiseModel) (rate : Q)
    (global_offset : Z) (dets : list string) (keys1 keys2 : list string) :
  forall st,
    exec_keys self nse rate global_offset dets (keys1 ++ keys2) st
    = match exec_keys self nse rate global_offset dets keys1 st with
      | (st', Ok _) => exec_keys self nse rate global_offset dets keys2 st'
      | (st', r) => (st', r)
      end.
Proof.
  induction keys1 as [|key keys1 IH]; intros st; cbn [app exec_keys].
  - reflexivity.
  - destruct (exec_key self nse rate global_offset dets key st) as [st1 [[]|e|]];
      [apply IH | reflexivity | reflexivity].
Qed.

(** X13: when the synthesis of a key raises, the loop stops with that exception:
    the failed call is recorded, the contributions of the keys before it
    stay in the buffers, and the keys after it are not processed. *)
Theorem synthesis_failure_keeps_earlier_keys (self : SimNoise) (nse : NoiseModel)
    (rate : Q) (global_offset : Z) (dets : list string)
    (before after : list string) (key : string)
    (ob ob1 : Observation) (calls calls1 : list SynthCall) (e : exn) :
  exec_keys self nse rate global_offset dets before (ob, calls)
    = ((ob1, calls1), Ok tt) ->
  Qeq_bool (key_weight nse dets key) 0 = false ->
  sim_noise_timestream_compiled (key_call self ob1 nse rate global_offset key)
    = Raise e ->
  exec_keys self nse rate global_offset dets (before ++ key :: after) (ob, calls)
    = ((ob1, calls1 ++ [key_call self ob1 nse rate global_offset key]), Raise e).
Proof.
  intros Hbefore Hz Hfail. rewrite exec_keys_app, Hbefore.
  cbn [exec_keys]. unfold exec_key. rewrite Hz.
  unfold sim_noise_timestream. rewrite Hfail, bind_Raise. reflexivity.
Qed.

(** X14: the keys to which no active detector couples can be left out: the
    loop over all keys and the loop over the keys of nonzero total weight
    end in the same state with the same outcome. *)
Theorem unused_keys_can_be_dropped (self : SimNoise) (nse : NoiseModel)
    (rate : Q) (global_offset : Z) (dets keys : list string) (st : exec_state) :
  exec_keys self nse rate global_offset dets keys st
  = exec_keys self nse rate global_offset dets (needed_keys nse dets keys) st.
Proof.
  revert st. induction keys as [|key keys IH]; intros st; [reflexivity|].
  unfold needed_keys. rewrite filter_cons. fold (needed_keys nse dets keys).
  destruct (Qeq_bool (key_weight nse dets key) 0) eqn:Ez.
  - destruct (decide (true = false)) as [Hbad|_]; [discriminate|].
    cbn [exec_keys]. rewrite (exec_key_skip self nse rate global_offset dets key st Ez).
    apply IH.
  - destruct (decide (false = false)) as [_|Hbad]; [|congruence].
    cbn [exec_keys].
    destruct (exec_key self nse rate global_offset dets key st) as [st1 [[]|e|]];
      [apply IH | reflexivity | reflexivity].
Qed.

(** X15: with an empty selection of detectors the operator does nothing to any
    observation, makes no call and raises nothing, even for observations
    that lack the noise model or are split over several ranks. *)
Theorem empty_selection_is_noop (self : SimNoise) (obs : list Observation)
    (calls : list SynthCall) :
  _exec self obs (Some []) calls = (obs, calls, Ok tt).
Proof.
  induction obs as [|ob obs IH]; [reflexivity|].
  cbn [_exec].
  assert (select_local_detectors ob (Some []) = []) as Hnone.
  { unfold select_local_detectors.
    induction (ob_local_detectors ob) as [|d l IHl]; [reflexivity|].
    rewrite filter_cons. destruct (decide (d ∈ [])) as [Hin|_]; [inversion Hin|].
    exact IHl. }
  unfold exec_observation. rewrite Hnone. cbn [length Nat.eqb].
  rewrite IH. reflexivity.
Qed.

(** X16: the operator is created exactly for non-negative realization and
    component indices (zero included); it then keeps the given names and
    indices and an oversampling factor of 2, and every synthesis call it
    makes for an observation uses that factor and those indices. *)
Theorem operator_creation (name : string) (real comp : Z) (tms outp : string) :
  (0 <= real -> 0 <= comp ->
   SimNoise_init name real comp tms outp
   = Ok {| noise_model := name; realization := real; component := comp;
           times := tms; out := outp; _oversample := 2 |}) /\
  (real < 0 \/ comp < 0 ->
   exists msg, SimNoise_init name real comp tms outp = Raise (TraitError msg)) /\
  (forall self detectors ob ob' calls calls' r,
      SimNoise_init name real comp tms outp = Ok self ->
      exec_observation self detectors (ob, calls) = ((ob', calls'), r) ->
      exists extra,
        calls' = calls ++ extra /\
        forall c, c ∈ extra ->
          sc_oversample c = 2 /\
          sc_realization c = real /\ 0 <= sc_realization c /\
          sc_component c = comp /\ 0 <= sc_component c).
Proof.
  unfold SimNoise_init, _check_realization, _check_component.
  split; [|split].
  - intros Hr Hc. destruct (Z.ltb_spec real 0); [lia|].
    destruct (Z.ltb_spec comp 0); [lia|]. reflexivity.
  - intros Hneg. destruct (Z.ltb_spec real 0); [eexists; reflexivity|].
    destruct (Z.ltb_spec comp 0); [eexists; reflexivity | lia].
  - intros self detectors ob ob' calls calls' r Hinit Hrun.
    destruct (Z.ltb_spec real 0) as [|Hr]; [discriminate|].
    destruct (Z.ltb_spec comp 0) as [|Hc]; [discriminate|].
    injection Hinit as <-.
    destruct (exec_observation_frame _ _ _ _ _ _ _ Hrun)
      as (_ & _ & extra & Hextra & Hcalls).
    exists extra. split; [exact Hextra|]. intros c Hin.
    destruct (Hcalls c Hin) as (nse & t & key & _ & _ & _ & ->).
    cbn. repeat split; assumption.
Qed.

(** X17: the declarations of the operator agree with what a pass does: the only
    key of the detector data that a pass can change is the one listed by
    [_provides], and when the keys listed by [_requires] are present, with
    active detectors and a single rank in the sample direction, the pass
    reaches the loop over the keys of the noise model. *)
Theorem declarations_match_exec (self : SimNoise)
    (detectors : option (list string)) (ob : Observation)
    (calls : list SynthCall) :
  (forall ob' calls' r name,
      exec_observation self detectors (ob, calls) = ((ob', calls'), r) ->
      ob_detdata ob' !! name <> ob_detdata ob !! name ->
      name ∈ declared (_provides self) "detdata") /\
  (select_local_detectors ob detectors <> [] ->
   ob_comm_row_size ob = 1 ->
   (forall name, name ∈ declared (_requires self) "meta" ->
                 is_Some (ob_noise ob !! name)) ->
   (forall name, name ∈ declared (_requires self) "shared" ->
                 is_Some (ob_shared ob !! name)) ->
   exists nse t,
     ob_noise ob !! noise_model self = Some nse /\
     ob_shared ob !! times self = Some t /\
     exec_observation self detectors (ob, calls)
     = exec_keys self nse (rate_from_times t) (global_offset_of ob)
         (select_local_detectors ob detectors) (nse_keys nse)
         (ensure_output self ob, calls)).
Proof.
  split.
  - intros ob' calls' r name Hrun Hne.
    destruct (exec_observation_frame _ _ _ _ _ _ _ Hrun) as ([_ Hframe] & _).
    destruct (decide (name = out self)) as [->|Hname].
    + cbn. left.
    + exfalso. apply Hne. apply Hframe. exact Hname.
  - intros Hdets Hrow Hmeta Hshared.
    destruct (Hmeta (noise_model self)) as [nse Hnse]; [cbn; left|].
    destruct (Hshared (times self)) as [t Ht]; [cbn; left|].
    exists nse, t. split; [exact Hnse|]. split; [exact Ht|].
    unfold exec_observation.
    destruct (select_local_detectors ob detectors) as [|d l] eqn:Ed; [congruence|].
    cbn [length Nat.eqb]. rewrite Hnse, Hrow. cbn [Z.eqb Pos.eqb negb].
    assert (ob_shared (ensure_output self ob) = ob_shared ob) as ->
      by (destruct (ensure_output_frame self ob) as [-> _]; reflexivity).
    rewrite Ht. reflexivity.
Qed.

End KeyLoop.

Lemma synthesis_failure_keeps_earlier_keys_witness :
  let ob0 := ensure_output sample_operator sample_observation in
  let st1 :=
    fst (@exec_keys sample_numerics failing_libtoast sample_operator
           sample_mixed_noise 3 0 ["d1"; "d2"] ["white"] (ob0, [])) in
  @exec_keys sample_numerics failing_libtoast sample_operator sample_mixed_noise
    3 0 ["d1"; "d2"] ["white"; "common"; "white"] (ob0, [])
  = ((fst st1,
      snd st1 ++ [key_call sample_operator (fst st1) sample_mixed_noise 3 0 "common"]),
     Raise (RuntimeError "synthesis failed")) /\
  out_buffer sample_operator (fst st1) "d1" = Some [5%Q; 5%Q; 5%Q].
Proof.
  intros ob0 st1. split; [|vm_compute; reflexivity].
  apply (@synthesis_failure_keeps_earlier_keys sample_numerics failing_libtoast
           sample_operator sample_mixed_noise 3 0 ["d1"; "d2"]
           ["white"] ["white"] "common" ob0 (fst st1) [] (snd st1)).
  - vm_compute. reflexivity.
  - reflexivity.
  - vm_compute. reflexivity.
Defined.

Lemma operator_creation_witness :
  SimNoise_init "noise_model" 0 0 "times" "noise" = Ok sample_operator /\
  exists msg, SimNoise_init "noise_model" 0 (-1) "times" "noise"
              = Raise (TraitError msg).
Proof.
  destruct (operator_creation "noise_model" 0 0 "times" "noise") as (Hok & _ & _).
  destruct (operator_creation "noise_model" 0 (-1) "times" "noise") as (_ & Hbad & _).
  split; [apply Hok; lia | apply Hbad; lia].
Defined.

Lemma declarations_match_exec_witness :
  exists nse t,
    exec_observation sample_operator None (sample_observation, [])
    = exec_keys sample_operator nse (rate_from_times t)
        (global_offset_of sample_observation)
        (select_local_detectors sample_observation None) (nse_keys nse)
        (ensure_output sample_operator sample_observation, []).
Proof.
  destruct (declarations_match_exec sample_operator None sample_observation [])
    as (_ & Hreq).
  destruct Hreq as (nse & t & _ & _ & Hrun).
  - discriminate.
  - reflexivity.
  - intros name Hin. apply list_elem_of_singleton in Hin. subst name.
    vm_compute. eexists. reflexivity.
  - intros name Hin. apply list_elem_of_singleton in Hin. subst name.
    vm_compute. eexists. reflexivity.
  - exists nse, t. exact Hrun.
Defined.

(** * Properties of the map-making operator *)

Module MadamProps.
Import Madam.

(** ** Strings *)

Lemma append_assoc (a b c : string) : (a +:+ b) +:+ c = a +:+ (b +:+ c).
Proof.
  induction a as [|x a IH]; [reflexivity|].
  change (String x ((a +:+ b) +:+ c) = String x (a +:+ (b +:+ c))).
  f_equal. exact IH.
Qed.

Lemma append_empty_r (a : string) : a +:+ "" = a.
Proof.
  induction a as [|x a IH]; [reflexivity|].
  change (String x (a +:+ "") = String x a). f_equal. exact IH.
Qed.

(** The items of a list, each followed by a semicolon. *)
Lemma fold_terminated {A} (f : A -> string) (l : list A) :
  forall acc,
    fold_left (fun s x => s +:+ (f x +:+ ";")) l acc
    = acc +:+ fold_right (fun x r => f x +:+ ";" +:+ r) "" l.
Proof.
  induction l as [|x l IH]; intros acc; cbn [fold_left fold_right].
  - symmetry. apply append_empty_r.
  - rewrite IH, !append_assoc. reflexivity.
Qed.

Lemma append_cons (x : ascii) (a b : string) :
  String x a +:+ b = String x (a +:+ b).
Proof. reflexivity. Qed.

Lemma append_empty_l (a : string) : "" +:+ a = a.
Proof. reflexivity. Qed.

Lemma terminated_split (a b r r' : string) :
  free_of ";"%char a -> free_of ";"%char b ->
  a +:+ ";" +:+ r = b +:+ ";" +:+ r' -> a = b /\ r = r'.
Proof.
  revert b. induction a as [|x a IH]; intros [|y b] Ha Hb Heq;
    rewrite ?append_cons, ?append_empty_l in Heq.
  - injection Heq as ->. split; reflexivity.
  - injection Heq as Hy _. destruct Hb as [Hb _]. congruence.
  - injection Heq as Hx _. destruct Ha as [Ha _]. congruence.
  - injection Heq as -> Heq. destruct Ha as [_ Ha], Hb as [_ Hb].
    destruct (IH b Ha Hb Heq) as [-> ->]. split; reflexivity.
Qed.

Lemma terminated_injective (l1 l2 : list string) :
  Forall (free_of ";"%char) l1 -> Forall (free_of ";"%char) l2 ->
  fold_right (fun x r => x +:+ ";" +:+ r) "" l1
  = fold_right (fun x r => x +:+ ";" +:+ r) "" l2 ->
  l1 = l2.
Proof.
  revert l2. induction l1 as [|a l1 IH]; intros [|b l2] H1 H2 Heq;
    cbn [fold_right] in Heq.
  - reflexivity.
  - destruct b; discriminate.
  - destruct a; discriminate.
  - apply Forall_cons in H1. apply Forall_cons in H2.
    destruct H1 as [Ha H1], H2 as [Hb H2].
    destruct (terminated_split _ _ _ _ Ha Hb Heq) as [-> Hrest].
    f_equal. apply IH; assumption.
Qed.

(** X18: detector names without a semicolon can be read back from the string
    built for them: two lists of such names with the same string are the
    same list. *)
Theorem detstring_injective (dets1 dets2 : list string) :
  Forall (free_of ";"%char) dets1 -> Forall (free_of ";"%char) dets2 ->
  _dets2detstring dets1 = _dets2detstring dets2 ->
  dets1 = dets2.
Proof.
  intros H1 H2. unfold _dets2detstring.
  rewrite !(fold_terminated (fun d => d)). cbn [append].
  apply terminated_injective; assumption.
Qed.

Lemma detstring_injective_witness :
  ["det_a"; "det_b"] = ["det_a"; "det_b"].
Proof.
  apply (detstring_injective ["det_a"; "det_b"] ["det_a"; "det_b"]).
  - repeat constructor; discriminate.
  - repeat constructor; discriminate.
  - reflexivity.
Defined.

Lemma entry_split (k k' v v' : string) :
  free_of "="%char k -> free_of "="%char k' ->
  k +:+ " = " +:+ v = k' +:+ " = " +:+ v' -> k = k' /\ v = v'.
Proof.
  revert k'. induction k as [|x k IH]; intros [|y k'] Hk Hk' Heq;
    rewrite ?append_cons, ?append_empty_l in Heq.
  - injection Heq as ->. split; reflexivity.
  - injection Heq as Hy Heq. subst y. destruct k' as [|z k''];
      rewrite ?append_cons, ?append_empty_l in Heq.
    + discriminate.
    + injection Heq as Hz _. destruct Hk' as [_ [Hz' _]]. congruence.
  - injection Heq as Hx Heq. subst x. destruct k as [|z k''];
      rewrite ?append_cons, ?append_empty_l in Heq.
    + discriminate.
    + injection Heq as Hz _. destruct Hk as [_ [Hz' _]]. congruence.
  - injection Heq as -> Heq. destruct Hk as [_ Hk], Hk' as [_ Hk'].
    destruct (IH k' Hk Hk' Heq) as [-> ->]. split; reflexivity.
Qed.

Lemma free_of_append (c : ascii) (a b : string) :
  free_of c a -> free_of c b -> free_of c (a +:+ b).
Proof.
  induction a as [|x a IH]; [intros _ Hb; exact Hb|].
  intros [Hx Ha] Hb. rewrite append_cons. split; auto.
Qed.

(** X19: parameters whose keys hold neither a semicolon nor an equals sign and
    whose values hold no semicolon can be read back from the parameter
    string: two such dictionaries with the same string have the same items
    in the same order. *)
Theorem parstring_injective (d1 d2 : list (string * string)) :
  Forall (fun kv => free_of ";"%char (fst kv) /\ free_of "="%char (fst kv)
                    /\ free_of ";"%char (snd kv)) d1 ->
  Forall (fun kv => free_of ";"%char (fst kv) /\ free_of "="%char (fst kv)
                    /\ free_of ";"%char (snd kv)) d2 ->
  _dict2parstring d1 = _dict2parstring d2 ->
  d1 = d2.
Proof.
  intros H1 H2. unfold _dict2parstring.
  assert (forall (d : list (string * string)) acc,
            fold_left (fun s kv => s +:+ (fst kv +:+ " = " +:+ snd kv +:+ ";")) d acc
            = acc +:+ fold_right (fun x r => x +:+ ";" +:+ r) ""
                        (map (fun kv => fst kv +:+ " = " +:+ snd kv) d)) as Hmap.
  { induction d as [|kv d IH]; intros acc; cbn [fold_left fold_right map].
    - symmetry. apply append_empty_r.
    - rewrite IH, !append_assoc. reflexivity. }
  rewrite !Hmap, !append_empty_l. intros Heq.
  assert (forall d : list (string * string),
            Forall (fun kv => free_of ";"%char (fst kv) /\ free_of "="%char (fst kv)
                              /\ free_of ";"%char (snd kv)) d ->
            Forall (free_of ";"%char)
                   (map (fun kv => fst kv +:+ " = " +:+ snd kv) d))
    as Hfree.
  { intros d Hd. apply Forall_fmap. eapply Forall_impl; [exact Hd|].
    intros kv (Hk & _ & Hv). cbn.
    apply free_of_append; [exact Hk|].
    rewrite !append_cons, append_empty_l. cbn [free_of].
    repeat split; try discriminate. exact Hv. }
  apply terminated_injective in Heq; [|apply Hfree; assumption..].
  clear Hmap Hfree. revert d2 H2 Heq.
  induction H1 as [|[k v] d1 (_ & Hk & _) _ IH]; intros [|[k' v'] d2] H2 Heq;
    try discriminate; [reflexivity|].
  cbn [map fst snd] in Heq. injection Heq as Hentry Hrest.
  apply Forall_cons in H2. destruct H2 as [(_ & Hk' & _) H2].
  cbn [fst snd] in Hk, Hk'.
  destruct (entry_split k k' v v' Hk Hk' Hentry) as [-> ->].
  f_equal. apply IH; assumption.
Qed.

Lemma parstring_injective_witness :
  [("nside", "64"); ("base first", "1.0")] = [("nside", "64"); ("base first", "1.0")].
Proof.
  apply (parstring_injective [("nside", "64"); ("base first", "1.0")]
           [("nside", "64"); ("base first", "1.0")]).
  - repeat constructor; discriminate.
  - repeat constructor; discriminate.
  - reflexivity.
Defined.

(** ** Arrays and loops *)

Lemma np_full_ok {A} (n : Z) (x : A) :
  0 <= n -> np_full n x = Ok (replicate (Z.to_nat n) x).
Proof.
  intros Hn. unfold np_full.
  destruct (Z.ltb_spec n 0); [lia | reflexivity].
Qed.

Lemma np_full_inv {A} (n : Z) (x : A) (l : list A) :
  np_full n x = Ok l -> 0 <= n /\ l = replicate (Z.to_nat n) x.
Proof.
  unfold np_full. destruct (Z.ltb_spec n 0); [discriminate|].
  intros [= <-]. split; [assumption | reflexivity].
Qed.

Lemma slice_bound_range (n i : Z) : 0 <= n -> 0 <= slice_bound n i <= n.
Proof.
  intros Hn. unfold slice_bound. destruct (Z.ltb_spec i 0); lia.
Qed.

Lemma np_setslice_length {A} (a : list A) (s e : Z) (v r : list A) :
  np_setslice a s e v = Ok r -> length r = length a.
Proof.
  unfold np_setslice.
  pose proof (slice_bound_range (Z.of_nat (length a)) s ltac:(lia)) as Hs.
  pose proof (slice_bound_range (Z.of_nat (length a)) e ltac:(lia)) as He.
  set (s' := slice_bound _ s) in *. set (e' := slice_bound _ e) in *.
  destruct (Nat.eqb_spec (length v) (Z.to_nat (e' - s'))) as [Hv|Hv].
  - intros [= <-]. rewrite !length_app, length_take, length_drop. lia.
  - destruct v as [|b [|? ?]]; try discriminate.
    intros [= <-].
    rewrite !length_app, length_take, length_replicate, length_drop. lia.
Qed.

Lemma py_setitem_length {A} (a : list A) (i : Z) (x : A) (r : list A) :
  py_setitem a i x = Ok r -> length r = length a.
Proof.
  unfold py_setitem. destruct (_ || _); [discriminate|].
  intros [= <-]. apply length_insert.
Qed.

Lemma py_setitem_nth {A} (a : list A) (i : nat) (x : A) :
  (i < length a)%nat -> py_setitem a (Z.of_nat i) x = Ok (<[i := x]> a).
Proof.
  intros Hi. unfold py_setitem.
  destruct (Z.ltb_spec (Z.of_nat i) 0); [lia|].
  destruct (Z.ltb_spec (Z.of_nat i) 0); [lia|].
  destruct (Z.leb_spec (Z.of_nat (length a)) (Z.of_nat i)); [lia|].
  cbn. rewrite Nat2Z.id. reflexivity.
Qed.

Lemma py_getitem_nat {A} (a : list A) (i : nat) (x : A) :
  a !! i = Some x -> py_getitem a (Z.of_nat i) = Ok x.
Proof.
  intros Hx. apply py_getitem_nth; [lia|]. rewrite Nat2Z.id. exact Hx.
Qed.

Lemma py_getitem_inv {A} (a : list A) (i : Z) (x : A) :
  py_getitem a i = Ok x -> x ∈ a.
Proof.
  unfold py_getitem. destruct (_ || _); [discriminate|].
  destruct (a !! _) eqn:E; [|discriminate].
  intros [= <-]. eapply list_elem_of_lookup_2; eassumption.
Qed.

(** A property that every round of a loop keeps holds when it ends. *)
Lemma for_range_invariant {S} (P : S -> Prop) (body : Z -> S -> outcome S) :
  (forall j s s', P s -> body j s = Ok s' -> P s') ->
  forall n i s r, P s -> for_range body i n s = Ok r -> P r.
Proof.
  intros Hstep. induction n as [|n IH]; intros i s r Hs; cbn [for_range].
  - intros [= <-]. exact Hs.
  - intros Hr. apply bind_Ok_inv in Hr as (s' & Hb & Hr).
    eapply IH; [|exact Hr]. eapply Hstep; eassumption.
Qed.

(** The loop [for d in range(n): arr[d] = f(src[d])] fills [arr] with the
    images of [src], in order. *)
Lemma fill_loop {A B} (src : list A) (f : A -> outcome B) (z : B) :
  forall (k i : nat) (pre qs : list B),
    length pre = i -> (i + k)%nat = length src ->
    Forall2 (fun a q => f a = Ok q) (drop i src) qs ->
    for_range (fun d arr => a ← py_getitem src d; w ← f a; py_setitem arr d w)
      (Z.of_nat i) k (pre ++ replicate k z) = Ok (pre ++ qs).
Proof.
  induction k as [|k IH]; intros i pre qs Hpre Hlen Hqs; cbn [for_range].
  - rewrite drop_ge in Hqs by lia. inversion Hqs; subst. reflexivity.
  - destruct (lookup_lt_is_Some_2 src i) as [a Ha]; [lia|].
    rewrite (drop_S _ _ _ Ha) in Hqs.
    inversion Hqs as [|? q ? qs' Hq Hqs']; subst.
    rewrite (py_getitem_nat _ _ _ Ha), bind_Ok, Hq, bind_Ok.
    rewrite py_setitem_nth by (rewrite length_app, length_replicate; lia).
    rewrite bind_Ok.
    replace (Z.of_nat (length pre) + 1) with (Z.of_nat (S (length pre))) by lia.
    replace (<[length pre := q]> (pre ++ replicate (S k) z))
      with ((pre ++ [q]) ++ replicate k z).
    + rewrite (IH (S (length pre)) (pre ++ [q]) qs').
      * rewrite <- app_assoc. reflexivity.
      * rewrite length_app. cbn. lia.
      * lia.
      * exact Hqs'.
    + rewrite insert_app_r_alt by lia. rewrite Nat.sub_diag.
      cbn. rewrite <- app_assoc. reflexivity.
Qed.

(** The loop stops at the first element whose image fails. *)
Lemma fill_loop_fail {A B} (src : list A) (f : A -> outcome B) (e : exn) :
  forall (mid : list A) (a : A) (post : list A) (k i : nat) (arr : list B),
    length arr = (i + k)%nat -> (i + k)%nat = length src ->
    drop i src = mid ++ a :: post ->
    Forall (fun a => exists q, f a = Ok q) mid ->
    f a = Raise e ->
    for_range (fun d arr => a ← py_getitem src d; w ← f a; py_setitem arr d w)
      (Z.of_nat i) k arr = Raise e.
Proof.
  induction mid as [|m mid IH]; intros a post k i arr Harr Hlen Hdrop Hmid Ha.
  - assert (src !! i = Some a) as Hi.
    { rewrite <- (Nat.add_0_r i), <- lookup_drop, Hdrop. reflexivity. }
    destruct k as [|k]; [apply lookup_lt_Some in Hi; lia|].
    cbn [for_range].
    rewrite (py_getitem_nat _ _ _ Hi), bind_Ok, Ha. reflexivity.
  - assert (src !! i = Some m) as Hi.
    { rewrite <- (Nat.add_0_r i), <- lookup_drop, Hdrop. reflexivity. }
    inversion Hmid as [|? ? [q Hq] Hmid']; subst.
    destruct k as [|k]; [apply lookup_lt_Some in Hi; lia|].
    cbn [for_range].
    rewrite (py_getitem_nat _ _ _ Hi), bind_Ok, Hq, bind_Ok.
    rewrite py_setitem_nth by lia. rewrite bind_Ok.
    replace (Z.of_nat i + 1) with (Z.of_nat (S i)) by lia.
    apply (IH a post).
    + rewrite length_insert. lia.
    + lia.
    + rewrite (drop_S _ _ _ Hi) in Hdrop. cbn in Hdrop. congruence.
    + exact Hmid'.
    + exact Ha.
Qed.

(** ** Pointing periods (lines 168-174) *)

Lemma make_periods_eq (bounds : list Z) : make_periods bounds = Ok bounds.
Proof.
  unfold make_periods.
  rewrite np_full_ok by lia. rewrite bind_Ok, Nat2Z.id.
  apply (fill_loop bounds Ok 0 (length bounds) 0%nat [] bounds).
  - reflexivity.
  - reflexivity.
  - rewrite drop_0. induction bounds; constructor; auto.
Qed.

(** X20: the pointing periods passed to the library are the starts of
    the intervals that meet the local samples, as local indices in interval
    order: none is negative, each lies inside a non-empty local chunk, and
    there are no more periods than intervals. *)
Theorem periods_are_local_starts (intervals : list Interval) (first nlocal : Z) :
  make_periods (local_bounds intervals (first, nlocal))
  = Ok (local_bounds intervals (first, nlocal))
  /\ Forall (fun b => 0 <= b /\ (0 < nlocal -> b < nlocal))
            (local_bounds intervals (first, nlocal))
  /\ (length (local_bounds intervals (first, nlocal)) <= length intervals)%nat.
Proof.
  split; [apply make_periods_eq|].
  unfold local_bounds. split.
  - apply Forall_forall. intros b Hb.
    apply list_elem_of_fmap in Hb as (t & -> & Ht).
    apply list_elem_of_In, filter_In in Ht as [_ Ht].
    apply andb_prop in Ht as [Hl Hf]. cbn [fst snd] in *.
    destruct (Z.gtb_spec (iv_first t) first); lia.
  - rewrite length_map. apply List.filter_length_le.
Qed.

Lemma periods_are_local_starts_witness :
  make_periods
    (local_bounds
       [{| iv_start := 0; iv_stop := 9; iv_first := 0; iv_last := 9 |};
        {| iv_start := 5; iv_stop := 6; iv_first := 5; iv_last := 6 |};
        {| iv_start := 20; iv_stop := 30; iv_first := 20; iv_last := 30 |}]
       (4, 3))
  = Ok [0; 1]
  /\ Forall (fun b => 0 <= b /\ (0 < 3 -> b < 3)) [0; 1].
Proof.
  destruct (periods_are_local_starts
              [{| iv_start := 0; iv_stop := 9; iv_first := 0; iv_last := 9 |};
               {| iv_start := 5; iv_stop := 6; iv_first := 5; iv_last := 6 |};
               {| iv_start := 20; iv_stop := 30; iv_first := 20; iv_last := 30 |}]
              4 3) as (Hcopy & Hrange & _).
  split; [exact Hcopy | exact Hrange].
Defined.

(** ** Detector weights (lines 178-187) *)

Lemma dict_get_set_same {V} (d : list (string * V)) (key : string) (v : V) :
  dict_get (dict_set d key v) key = Ok v.
Proof.
  unfold dict_get. induction d as [|kv d IH]; cbn.
  - rewrite String.eqb_refl. reflexivity.
  - destruct (String.eqb_spec (fst kv) key) as [E|E]; cbn.
    + rewrite String.eqb_refl. reflexivity.
    + destruct (String.eqb_spec (fst kv) key); [contradiction | exact IH].
Qed.

Lemma dict_get_set_other {V} (d : list (string * V)) (key key' : string) (v : V) :
  key <> key' -> dict_get (dict_set d key v) key' = dict_get d key'.
Proof.
  intros Hne. unfold dict_get. induction d as [|kv d IH]; cbn.
  - destruct (String.eqb_spec key key'); [contradiction | reflexivity].
  - destruct (String.eqb_spec (fst kv) key) as [E|E]; cbn.
    + destruct (String.eqb_spec key key'); [contradiction|].
      destruct (String.eqb_spec (fst kv) key'); [congruence | reflexivity].
    + destruct (String.eqb_spec (fst kv) key'); [reflexivity | exact IH].
Qed.

Lemma dict_get_missing {V} (d : list (string * V)) (key : string) :
  Forall (fun kv => fst kv <> key) d -> dict_get d key = Raise (KeyError key).
Proof.
  unfold dict_get. induction 1 as [|kv d Hkv _ IH]; cbn; [reflexivity|].
  destruct (String.eqb_spec (fst kv) key); [contradiction | exact IH].
Qed.

(** The dictionary of uniform weights holds one for every detector seen. *)
Lemma uniform_loop (dets : list string) :
  forall (k i : nat) (detw : list (string * Q)),
    (i + k)%nat = length dets ->
    (forall det, det ∈ take i dets -> dict_get detw det = Ok 1%Q) ->
    exists detw',
      for_range (fun d detw => det ← py_getitem dets d; Ok (dict_set detw det 1%Q))
        (Z.of_nat i) k detw = Ok detw'
      /\ forall det, det ∈ dets -> dict_get detw' det = Ok 1%Q.
Proof.
  induction k as [|k IH]; intros i detw Hlen Hinv; cbn [for_range].
  - exists detw. split; [reflexivity|].
    intros det Hdet. apply Hinv. rewrite take_ge by lia. exact Hdet.
  - destruct (lookup_lt_is_Some_2 dets i) as [a Ha]; [lia|].
    rewrite (py_getitem_nat _ _ _ Ha), !bind_Ok.
    replace (Z.of_nat i + 1) with (Z.of_nat (S i)) by lia.
    apply IH; [lia|].
    intros det Hdet. rewrite (take_S_r _ _ _ Ha) in Hdet.
    destruct (String.eqb_spec a det) as [->|Hne].
    + apply dict_get_set_same.
    + rewrite dict_get_set_other by exact Hne.
      apply Hinv. apply elem_of_app in Hdet as [Hdet|Hdet]; [exact Hdet|].
      apply list_elem_of_singleton in Hdet. congruence.
Qed.

Section Weights.
Context `{TodLib}.

(** X21: without weights at construction every detector weighs one, also
    when a detector name occurs twice. *)
Theorem detweights_uniform (self : OpMadam) (tod : TOD) :
  _detw self = None ->
  make_detweights self tod (Z.of_nat (length (tod_detectors tod)))
  = Ok (replicate (length (tod_detectors tod)) 1%Q).
Proof.
  intros Hw. unfold make_detweights. rewrite Hw, Nat2Z.id.
  destruct (uniform_loop (tod_detectors tod) (length (tod_detectors tod)) 0%nat [])
    as (detw & Hloop & Hdetw).
  - reflexivity.
  - intros det Hdet. rewrite take_0 in Hdet. inversion Hdet.
  - change (Z.of_nat 0) with 0 in Hloop. rewrite Hloop.
    rewrite bind_Ok, np_full_ok by lia. rewrite bind_Ok, Nat2Z.id.
    apply (fill_loop (tod_detectors tod) (dict_get detw) 0%Q _ 0%nat []
             (replicate (length (tod_detectors tod)) 1%Q)).
    + reflexivity.
    + reflexivity.
    + rewrite drop_0. apply Forall2_replicate_r; [reflexivity|].
      apply Forall_forall. intros det Hdet. apply Hdetw. exact Hdet.
Qed.

(** X22: weights given at construction are looked up detector by
    detector, in the order of the detectors; the first detector without a
    weight is reported by a [KeyError]. *)
Theorem detweights_given (self : OpMadam) (tod : TOD) (w : list (string * Q)) :
  _detw self = Some w ->
  (forall qs,
     Forall2 (fun det q => dict_get w det = Ok q) (tod_detectors tod) qs ->
     make_detweights self tod (Z.of_nat (length (tod_detectors tod))) = Ok qs)
  /\ (forall pre det post,
        tod_detectors tod = pre ++ det :: post ->
        Forall (fun d => exists q, dict_get w d = Ok q) pre ->
        Forall (fun kv => fst kv <> det) w ->
        make_detweights self tod (Z.of_nat (length (tod_detectors tod)))
        = Raise (KeyError det)).
Proof.
  intros Hw. unfold make_detweights. rewrite Hw, bind_Ok, Nat2Z.id.
  rewrite np_full_ok by lia. rewrite bind_Ok, Nat2Z.id. split.
  - intros qs Hqs.
    apply (fill_loop (tod_detectors tod) (dict_get w) 0%Q _ 0%nat [] qs);
      [reflexivity | reflexivity | rewrite drop_0; exact Hqs].
  - intros pre det post Hsplit Hpre Hdet.
    apply (fill_loop_fail (tod_detectors tod) (dict_get w) (KeyError det)
             pre det post _ 0%nat).
    + rewrite length_replicate. reflexivity.
    + reflexivity.
    + rewrite drop_0. exact Hsplit.
    + exact Hpre.
    + apply dict_get_missing. exact Hdet.
Qed.

End Weights.

Lemma detweights_uniform_witness :
  @make_detweights sample_tod_lib (@init sample_tod_lib None None None true [])
    sample_tod 2
  = Ok [1%Q; 1%Q].
Proof.
  apply (@detweights_uniform sample_tod_lib
           (@init sample_tod_lib None None None true []) sample_tod).
  reflexivity.
Defined.

Lemma detweights_given_witness :
  @make_detweights sample_tod_lib
    (@init sample_tod_lib None None (Some [("b", 3%Q); ("a", 2%Q)]) true [])
    sample_tod 2
  = Ok [2%Q; 3%Q]
  /\ @make_detweights sample_tod_lib
       (@init sample_tod_lib None None (Some [("a", 2%Q)]) true [])
       sample_tod 2
     = Raise (KeyError "b").
Proof.
  split.
  - apply (proj1 (@detweights_given sample_tod_lib
                    (@init sample_tod_lib None None
                       (Some [("b", 3%Q); ("a", 2%Q)]) true [])
                    sample_tod [("b", 3%Q); ("a", 2%Q)] eq_refl)).
    repeat constructor.
  - apply (proj2 (@detweights_given sample_tod_lib
                    (@init sample_tod_lib None None (Some [("a", 2%Q)]) true [])
                    sample_tod [("a", 2%Q)] eq_refl) ["a"] "b" []).
    + reflexivity.
    + repeat constructor. exists 2%Q. reflexivity.
    + repeat constructor. discriminate.
Defined.

(** ** Noise spectra (lines 189-210) *)

Lemma Zsum_ones (n : nat) : Zsum (replicate n 1) = Z.of_nat n.
Proof.
  induction n as [|n IH]; [reflexivity|].
  cbn [replicate Zsum fold_right]. fold (Zsum (replicate n 1)). lia.
Qed.

Lemma np_setslice_exact {A} (a v : list A) (s e : nat) :
  (s <= e)%nat -> (e <= length a)%nat -> length v = (e - s)%nat ->
  np_setslice a (Z.of_nat s) (Z.of_nat e) v = Ok (take s a ++ v ++ drop e a).
Proof.
  intros Hse He Hv. unfold np_setslice, slice_bound.
  destruct (Z.ltb_spec (Z.of_nat s) 0); [lia|].
  destruct (Z.ltb_spec (Z.of_nat e) 0); [lia|].
  rewrite !Z.min_l by lia.
  replace (Z.to_nat (Z.of_nat e - Z.of_nat s)) with (e - s)%nat by lia.
  rewrite Nat2Z.id, Hv, Nat.eqb_refl.
  replace (s + (e - s))%nat with e by lia. reflexivity.
Qed.

(** The loop of lines 200-201 lays the spectra of the detectors end to end. *)
Lemma psd_loop (dets : list string) (psd : string -> list Q) (nb : nat) :
  Forall (fun det => length (psd det) = nb) dets ->
  forall (k i : nat) (pre : list Q),
    length pre = (i * nb)%nat -> (i + k)%nat = length dets ->
    for_range (fun d psdvals =>
                 det ← py_getitem dets d;
                 np_setslice psdvals (d * Z.of_nat nb) ((d + 1) * Z.of_nat nb)
                   (psd det))
      (Z.of_nat i) k (pre ++ replicate (k * nb) 0%Q)
    = Ok (pre ++ concat (map psd (drop i dets))).
Proof.
  intros Hlen. induction k as [|k IH]; intros i pre Hpre Hik; cbn [for_range].
  - rewrite drop_ge by lia. reflexivity.
  - destruct (lookup_lt_is_Some_2 dets i) as [det Hdet]; [lia|].
    rewrite (py_getitem_nat _ _ _ Hdet), bind_Ok.
    assert (length (psd det) = nb) as Hpsd.
    { rewrite Forall_forall in Hlen. apply Hlen.
      eapply list_elem_of_lookup_2; eassumption. }
    replace (Z.of_nat i * Z.of_nat nb) with (Z.of_nat (i * nb)) by lia.
    replace ((Z.of_nat i + 1) * Z.of_nat nb) with (Z.of_nat (i * nb + nb)) by lia.
    rewrite np_setslice_exact;
      [| lia | rewrite length_app, length_replicate; lia | lia].
    rewrite bind_Ok.
    rewrite take_app_length' by (symmetry; exact Hpre).
    rewrite drop_app_ge by lia.
    replace (i * nb + nb - length pre)%nat with nb by lia.
    rewrite drop_replicate.
    replace (S k * nb - nb)%nat with (k * nb)%nat by lia.
    replace (Z.of_nat i + 1) with (Z.of_nat (S i)) by lia.
    rewrite app_assoc.
    rewrite (IH (S i) (pre ++ psd det)).
    + rewrite (drop_S _ _ _ Hdet). cbn [map concat].
      rewrite <- !app_assoc. reflexivity.
    + rewrite length_app. lia.
    + lia.
Qed.

Section Spectra.
Context `{TodLib}.

(** The sizes of the spectra agree with the arrays. *)
Lemma make_psd_sizes (nse : option Noise) (tod : TOD) (ndet : Z)
    (pa : PsdArgs) :
  make_psd nse tod ndet = Ok pa ->
  0 <= ndet
  /\ pa_npsd pa = replicate (Z.to_nat ndet) 1
  /\ pa_npsdtot pa = ndet
  /\ Z.of_nat (length (pa_psdstarts pa)) = pa_npsdtot pa
  /\ Z.of_nat (length (pa_psdfreqs pa)) = pa_npsdbin pa
  /\ pa_npsdval pa = pa_npsdbin pa * pa_npsdtot pa
  /\ Z.of_nat (length (pa_psdvals pa)) = pa_npsdval pa.
Proof.
  unfold make_psd. destruct nse as [nse|]; intros Hpa.
  - apply bind_Ok_inv in Hpa as (npsd & Hnpsd & Hpa).
    apply np_full_inv in Hnpsd as [Hndet ->].
    rewrite Zsum_ones, Z2Nat.id in Hpa by exact Hndet.
    apply bind_Ok_inv in Hpa as (starts & Hstarts & Hpa).
    apply np_full_inv in Hstarts as [_ ->].
    apply bind_Ok_inv in Hpa as (vals0 & Hvals0 & Hpa).
    apply np_full_inv in Hvals0 as [Hval ->].
    apply bind_Ok_inv in Hpa as (vals & Hvals & Hpa).
    injection Hpa as <-. cbn.
    apply (for_range_invariant
             (fun v : list Q =>
                length v = Z.to_nat (Z.of_nat (length (noise_freq nse)) * ndet)))
      in Hvals.
    + rewrite Hvals, length_replicate. repeat split; lia.
    + intros j s s' Hs Hstep.
      apply bind_Ok_inv in Hstep as (det & _ & Hstep).
      apply np_setslice_length in Hstep. congruence.
    + apply length_replicate.
  - apply bind_Ok_inv in Hpa as (npsd & Hnpsd & Hpa).
    apply np_full_inv in Hnpsd as [Hndet ->].
    rewrite Zsum_ones, Z2Nat.id in Hpa by exact Hndet.
    apply bind_Ok_inv in Hpa as (starts & Hstarts & Hpa).
    apply np_full_inv in Hstarts as [_ ->].
    apply bind_Ok_inv in Hpa as (vals & Hvals & Hpa).
    apply np_full_inv in Hvals as [Hval ->].
    injection Hpa as <-. cbn -[Z.mul].
    rewrite !length_replicate. repeat split; lia.
Qed.

(** X23: the sizes handed to the library agree with the arrays: one
    spectrum per detector, [npsdtot] starts, [npsdbin] frequencies and
    [npsdval = npsdbin * npsdtot] values, with or without a noise model. *)
Theorem psd_sizes_consistent (nse : option Noise) (tod : TOD) (ndet : Z)
    (pa : PsdArgs) :
  make_psd nse tod ndet = Ok pa ->
  0 <= ndet
  /\ pa_npsd pa = replicate (Z.to_nat ndet) 1
  /\ pa_npsdtot pa = ndet
  /\ Z.of_nat (length (pa_psdstarts pa)) = pa_npsdtot pa
  /\ Z.of_nat (length (pa_psdfreqs pa)) = pa_npsdbin pa
  /\ pa_npsdval pa = pa_npsdbin pa * pa_npsdtot pa
  /\ Z.of_nat (length (pa_psdvals pa)) = pa_npsdval pa.
Proof. apply make_psd_sizes. Qed.

(** X24: with a noise model whose spectra all have the length of the
    frequency grid, the values are the spectra of the detectors, end to
    end in detector order, on the frequencies of the model. *)
Theorem psd_values_concatenated (nse : Noise) (tod : TOD) :
  Forall (fun det => length (noise_psd nse det) = length (noise_freq nse))
         (tod_detectors tod) ->
  exists pa,
    make_psd (Some nse) tod (Z.of_nat (length (tod_detectors tod))) = Ok pa
    /\ pa_psdfreqs pa = noise_freq nse
    /\ pa_psdvals pa = concat (map (noise_psd nse) (tod_detectors tod)).
Proof.
  intros Hlen.
  pose proof (psd_loop (tod_detectors tod) (noise_psd nse)
                (length (noise_freq nse)) Hlen
                (length (tod_detectors tod)) 0%nat [] eq_refl eq_refl) as Hloop.
  cbn [app] in Hloop. change (Z.of_nat 0) with 0 in Hloop.
  rewrite drop_0 in Hloop.
  eexists. split.
  - unfold make_psd.
    rewrite np_full_ok by lia. rewrite bind_Ok, Nat2Z.id, Zsum_ones.
    rewrite !np_full_ok by lia. rewrite !bind_Ok, Nat2Z.id.
    replace (Z.to_nat (Z.of_nat (length (noise_freq nse))
                       * Z.of_nat (length (tod_detectors tod))))
      with (length (tod_detectors tod) * length (noise_freq nse))%nat by lia.
    rewrite Hloop, bind_Ok. reflexivity.
  - split; reflexivity.
Qed.

End Spectra.

Lemma psd_sizes_consistent_witness :
  exists pa,
    @make_psd sample_tod_lib None sample_tod 2 = Ok pa
    /\ pa_npsdtot pa = 2
    /\ pa_npsdbin pa = 10
    /\ Z.of_nat (length (pa_psdvals pa)) = 20.
Proof.
  eexists. split; [vm_compute; reflexivity|].
  destruct (@psd_sizes_consistent sample_tod_lib None sample_tod 2 _ eq_refl)
    as (_ & _ & Htot & _ & Hbin & Hval & Hvals).
  split; [exact Htot|]. split; [reflexivity|]. exact Hvals.
Defined.

Lemma psd_values_concatenated_witness :
  exists pa,
    @make_psd sample_tod_lib
      (Some {| noise_freq := [0; 5]%Q;
               noise_psd := fun det => if String.eqb det "a" then [1; 2]%Q
                                       else [3; 4]%Q |})
      sample_tod 2 = Ok pa
    /\ pa_psdfreqs pa = [0; 5]%Q
    /\ pa_psdvals pa = [1; 2; 3; 4]%Q.
Proof.
  apply (@psd_values_concatenated sample_tod_lib
           {| noise_freq := [0; 5]%Q;
              noise_psd := fun det => if String.eqb det "a" then [1; 2]%Q
                                      else [3; 4]%Q |}
           sample_tod).
  repeat constructor.
Defined.

(** ** Flags (lines 162-163) *)

Lemma repeat_length {A} (l : list A) (k : nat) :
  length (concat (map (replicate k) l)) = (length l * k)%nat.
Proof.
  induction l as [|a l IH]; [reflexivity|].
  cbn [map concat length]. rewrite length_app, length_replicate, IH. lia.
Qed.

Lemma repeat_lookup {A} (l : list A) (k i j : nat) (a : A) :
  l !! i = Some a -> (j < k)%nat ->
  concat (map (replicate k) l) !! (i * k + j)%nat = Some a.
Proof.
  revert i. induction l as [|b l IH]; intros i Ha Hj; [discriminate|].
  cbn [map concat]. destruct i as [|i].
  - injection Ha as ->. rewrite lookup_app_l by (rewrite length_replicate; lia).
    apply lookup_replicate_2. lia.
  - rewrite lookup_app_r by (rewrite length_replicate; lia).
    rewrite length_replicate.
    replace (S i * k + j - k)%nat with (i * k + j)%nat by lia.
    apply IH; assumption.
Qed.

Lemma mask_assign_lookup {A} (a : list A) (mask : list bool) (x : A)
    (i : nat) (m : bool) :
  mask !! i = Some m ->
  zip_with (fun v (m : bool) => if m then x else v) a mask !! i
  = if m then (match a !! i with Some _ => Some x | None => None end) else a !! i.
Proof.
  intros Hm. rewrite lookup_zip_with, Hm.
  destruct (a !! i), m; reflexivity.
Qed.

(** What [apply_flags] returns on arrays of matching sizes. *)
Lemma apply_flags_spec (flags pixels : list Z) (pixweights : list Q)
    (nnz : Z) :
  0 <= nnz ->
  length pixels = length flags ->
  length pixweights = (length flags * Z.to_nat nnz)%nat ->
  exists pixels' pixweights',
    apply_flags flags nnz pixels pixweights = Ok (pixels', pixweights')
    /\ length pixels' = length pixels
    /\ length pixweights' = length pixweights
    /\ forall (i : nat) (f : Z),
         flags !! i = Some f ->
         pixels' !! i = (if f =? 0 then pixels !! i else Some (-1))
         /\ forall j : nat,
              (j < Z.to_nat nnz)%nat ->
              pixweights' !! (i * Z.to_nat nnz + j)%nat
              = if f =? 0 then pixweights !! (i * Z.to_nat nnz + j)%nat
                else Some 0%Q.
Proof.
  intros Hnnz Hpix Hw. unfold apply_flags, np_mask_assign, np_repeat.
  rewrite length_map, Hpix, Nat.eqb_refl, bind_Ok.
  destruct (Z.ltb_spec nnz 0); [lia|]. rewrite bind_Ok.
  rewrite length_map, repeat_length, Hw, Nat.eqb_refl, bind_Ok.
  eexists _, _. split; [reflexivity|].
  split; [rewrite length_zip_with, length_map; lia|].
  split; [rewrite length_zip_with, length_map, repeat_length; lia|].
  intros i f Hf. split.
  - rewrite (mask_assign_lookup _ _ _ _ (negb (f =? 0))).
    + destruct (lookup_lt_is_Some_2 pixels i) as [p Hp].
      { apply lookup_lt_Some in Hf. lia. }
      rewrite Hp. destruct (f =? 0); reflexivity.
    + rewrite list_lookup_fmap, Hf. reflexivity.
  - intros j Hj.
    rewrite (mask_assign_lookup _ _ _ _ (negb (f =? 0))).
    + destruct (lookup_lt_is_Some_2 pixweights (i * Z.to_nat nnz + j)) as [p Hp].
      { apply lookup_lt_Some in Hf. nia. }
      rewrite Hp. destruct (f =? 0); reflexivity.
    + rewrite list_lookup_fmap, (repeat_lookup _ _ _ _ f Hf Hj). reflexivity.
Qed.

(** X25: the detector flags reach the library through the pointing: a
    flagged sample gets pixel -1 and zero in each of its [nnz] weights, an
    unflagged one keeps its pointing, and no array changes its length. *)
Theorem flags_applied_to_pointing (flags pixels : list Z) (pixweights : list Q)
    (nnz : Z) :
  0 <= nnz ->
  length pixels = length flags ->
  length pixweights = (length flags * Z.to_nat nnz)%nat ->
  exists pixels' pixweights',
    apply_flags flags nnz pixels pixweights = Ok (pixels', pixweights')
    /\ length pixels' = length pixels
    /\ length pixweights' = length pixweights
    /\ forall (i : nat) (f : Z),
         flags !! i = Some f ->
         pixels' !! i = (if f =? 0 then pixels !! i else Some (-1))
         /\ forall j : nat,
              (j < Z.to_nat nnz)%nat ->
              pixweights' !! (i * Z.to_nat nnz + j)%nat
              = if f =? 0 then pixweights !! (i * Z.to_nat nnz + j)%nat
                else Some 0%Q.
Proof. apply apply_flags_spec. Qed.

Lemma flags_applied_to_pointing_witness :
  exists pixels' pixweights',
    apply_flags [0; 1] 2 [10; 11] [1; 2; 3; 4]%Q = Ok (pixels', pixweights')
    /\ length pixels' = 2%nat
    /\ length pixweights' = 4%nat
    /\ forall (i : nat) (f : Z),
         [0; 1] !! i = Some f ->
         pixels' !! i = (if f =? 0 then [10; 11] !! i else Some (-1))
         /\ forall j : nat,
              (j < Z.to_nat 2)%nat ->
              pixweights' !! (i * Z.to_nat 2 + j)%nat
              = if f =? 0 then [1; 2; 3; 4]%Q !! (i * Z.to_nat 2 + j)%nat
                else Some 0%Q.
Proof.
  apply (flags_applied_to_pointing [0; 1] [10; 11] [1; 2; 3; 4]%Q 2).
  - lia.
  - reflexivity.
  - reflexivity.
Defined.

(** ** [exec] as a whole (lines 102-217) *)

Lemma apply_flags_length (flags : list Z) (nnz : Z) (pixels : list Z)
    (pixweights : list Q) (pixels' : list Z) (pixweights' : list Q) :
  apply_flags flags nnz pixels pixweights = Ok (pixels', pixweights') ->
  length pixels' = length pixels /\ length pixweights' = length pixweights.
Proof.
  unfold apply_flags, np_mask_assign, np_repeat. intros Happ.
  destruct (Nat.eqb_spec (length (map (fun f => negb (f =? 0)) flags))
              (length pixels)) as [E1|]; [|discriminate].
  rewrite bind_Ok in Happ.
  destruct (nnz <? 0); [discriminate|]. rewrite bind_Ok in Happ.
  destruct (Nat.eqb_spec
              (length (map (fun f => negb (f =? 0))
                         (concat (map (replicate (Z.to_nat nnz)) flags))))
              (length pixweights)) as [E2|]; [|discriminate].
  rewrite bind_Ok in Happ. injection Happ as <- <-.
  rewrite !length_zip_with. lia.
Qed.

Section Exec.
Context `{TodLib}.

(** The reading loop keeps the sizes of the four buffers. *)
Lemma read_detector_lengths (self : OpMadam) (nlocal nnz d : Z) (b b' : Buffers) :
  read_detector self nlocal nnz d b = Ok b' ->
  length (b_signal b') = length (b_signal b)
  /\ length (b_flags b') = length (b_flags b)
  /\ length (b_pixels b') = length (b_pixels b)
  /\ length (b_pixweights b') = length (b_pixweights b).
Proof.
  unfold read_detector. intros Hr.
  apply bind_Ok_inv in Hr as (det & _ & Hr).
  apply bind_Ok_inv in Hr as ([sig flg] & _ & Hr).
  apply bind_Ok_inv in Hr as (signal & Hsig & Hr).
  apply bind_Ok_inv in Hr as (flags & Hflg & Hr).
  apply bind_Ok_inv in Hr as (det' & _ & Hr).
  apply bind_Ok_inv in Hr as ([pix wgt] & _ & Hr).
  apply bind_Ok_inv in Hr as (pixels & Hpix & Hr).
  apply bind_Ok_inv in Hr as (pixweights & Hwgt & Hr).
  apply bind_Ok_inv in Hr as (tod' & _ & Hr).
  injection Hr as <-. cbn.
  apply np_setslice_length in Hsig, Hflg, Hpix, Hwgt. auto.
Qed.

Lemma make_detweights_length (self : OpMadam) (tod : TOD) (ndet : Z) (w : list Q) :
  make_detweights self tod ndet = Ok w -> Z.of_nat (length w) = ndet.
Proof.
  unfold make_detweights. intros Hw.
  apply bind_Ok_inv in Hw as (detw & _ & Hw).
  apply bind_Ok_inv in Hw as (w0 & Hw0 & Hw).
  apply np_full_inv in Hw0 as [Hndet ->].
  apply (for_range_invariant (fun v : list Q => length v = Z.to_nat ndet)) in Hw.
  - lia.
  - intros j s s' Hs Hstep.
    apply bind_Ok_inv in Hstep as (det & _ & Hstep).
    apply bind_Ok_inv in Hstep as (q & _ & Hstep).
    apply py_setitem_length in Hstep. congruence.
  - apply length_replicate.
Qed.

(** What a successful [exec] has gone through. *)
Lemma exec_inv (libmadam : bool) (self : OpMadam) (obs : list Obs)
    (c : DestripeCall) (tod' : TOD) :
  exec libmadam self obs = Ok (c, tod') ->
  exists ob tod det0 nnz timestamps b pixels pixweights detweights psd,
    libmadam = true /\ obs = [ob] /\ obs_tod ob = Some tod
    /\ tod_timedist tod = true
    /\ tod_detectors tod !! 0%nat = Some det0
    /\ tod_pmat_nnz tod (_pmat self) det0 = Ok nnz
    /\ tod_read_times tod 0 (snd (tod_local_samples tod)) = Ok timestamps
    /\ 0 <= Z.of_nat (length (tod_detectors tod)) * snd (tod_local_samples tod)
    /\ 0 <= Z.of_nat (length (tod_detectors tod)) * snd (tod_local_samples tod) * nnz
    /\ for_range (read_detector self (snd (tod_local_samples tod)) nnz) 0
         (length (tod_detectors tod))
         {| b_tod := tod;
            b_signal := replicate (Z.to_nat (Z.of_nat (length (tod_detectors tod))
                                             * snd (tod_local_samples tod))) 0%Q;
            b_flags := replicate (Z.to_nat (Z.of_nat (length (tod_detectors tod))
                                            * snd (tod_local_samples tod))) 0;
            b_pixels := replicate (Z.to_nat (Z.of_nat (length (tod_detectors tod))
                                             * snd (tod_local_samples tod))) 0;
            b_pixweights :=
              replicate (Z.to_nat (Z.of_nat (length (tod_detectors tod))
                                   * snd (tod_local_samples tod) * nnz)) 0%Q |}
       = Ok b
    /\ tod' = b_tod b
    /\ apply_flags (b_flags b) nnz (b_pixels b) (b_pixweights b)
       = Ok (pixels, pixweights)
    /\ make_detweights self tod' (Z.of_nat (length (tod_detectors tod)))
       = Ok detweights
    /\ make_psd (obs_noise ob) tod' (Z.of_nat (length (tod_detectors tod))) = Ok psd
    /\ c = {| dc_todfcomm := tod_py2f tod;
              dc_parstring := _dict2parstring (_params self);
              dc_ndet := Z.of_nat (length (tod_detectors tod));
              dc_detstring := _dets2detstring (tod_detectors tod);
              dc_detweights := detweights;
              dc_nlocal := snd (tod_local_samples tod);
              dc_nnz := nnz;
              dc_timestamps := timestamps;
              dc_pixels := pixels;
              dc_pixweights := pixweights;
              dc_signal := b_signal b;
              dc_nperiod :=
                Z.of_nat (length (local_bounds
                                    (match obs_intervals ob with
                                     | Some intervals => intervals
                                     | None => default_intervals tod
                                     end) (tod_local_samples tod')));
              dc_periods :=
                local_bounds (match obs_intervals ob with
                              | Some intervals => intervals
                              | None => default_intervals tod
                              end) (tod_local_samples tod');
              dc_npsd := pa_npsd psd;
              dc_npsdtot := pa_npsdtot psd;
              dc_psdstarts := pa_psdstarts psd;
              dc_npsdbin := pa_npsdbin psd;
              dc_psdfreqs := pa_psdfreqs psd;
              dc_npsdval := pa_npsdval psd;
              dc_psdvals := pa_psdvals psd |}.
Proof.
  unfold exec. intros He.
  destruct libmadam; [|discriminate]. cbn [negb] in He.
  destruct obs as [|ob [|? ?]]; try discriminate. cbn [length Nat.eqb negb] in He.
  rewrite py_getitem_first, bind_Ok in He.
  destruct (obs_tod ob) as [tod|] eqn:Htod; [|discriminate].
  rewrite bind_Ok in He.
  destruct (tod_timedist tod) eqn:Htd; [|discriminate]. cbn [negb] in He.
  apply bind_Ok_inv in He as (det0 & Hdet0 & He).
  apply bind_Ok_inv in He as (nnz & Hnnz & He).
  apply bind_Ok_inv in He as (timestamps & Htimes & He).
  apply bind_Ok_inv in He as (signal & Hsignal & He).
  apply np_full_inv in Hsignal as [Hn1 ->].
  apply bind_Ok_inv in He as (flags & Hflags & He).
  apply np_full_inv in Hflags as [_ ->].
  apply bind_Ok_inv in He as (pixels & Hpixels & He).
  apply np_full_inv in Hpixels as [_ ->].
  apply bind_Ok_inv in He as (pixweights & Hpixweights & He).
  apply np_full_inv in Hpixweights as [Hn2 ->].
  apply bind_Ok_inv in He as (b & Hb & He).
  apply bind_Ok_inv in He as ([pixels' pixweights'] & Hflags & He).
  rewrite make_periods_eq, bind_Ok in He.
  apply bind_Ok_inv in He as (detweights & Hdw & He).
  apply bind_Ok_inv in He as (psd & Hpsd & He).
  injection He as <- <-.
  rewrite Nat2Z.id in Hb.
  exists ob, tod, det0, nnz, timestamps, b, pixels', pixweights', detweights, psd.
  repeat (split; [first [reflexivity | assumption] |]).
  split.
  { destruct (tod_detectors tod) as [|d0 ds]; [discriminate|].
    rewrite py_getitem_first in Hdet0. injection Hdet0 as ->. reflexivity. }
  repeat (split; [first [reflexivity | assumption] |]).
  reflexivity.
Qed.

(** X26: [exec] checks, in this order, that the library was found, that
    there is exactly one observation and that its data is distributed by
    time; data without a detector then fails at the first detector. *)
Theorem exec_guards (self : OpMadam) (obs : list Obs) :
  exec false self obs = Raise (RuntimeError "Cannot find libmadam")
  /\ (length obs <> 1%nat ->
      exec true self obs
      = Raise (RuntimeError "Madam requires a single observation"))
  /\ (forall ob tod,
        obs = [ob] -> obs_tod ob = Some tod ->
        (tod_timedist tod = false ->
         exec true self obs
         = Raise (RuntimeError "Madam requires data to be distributed by time"))
        /\ (tod_timedist tod = true -> tod_detectors tod = [] ->
            exists msg, exec true self obs = Raise (IndexError msg))).
Proof.
  split; [reflexivity|]. split.
  - intros Hlen. unfold exec. cbn [negb].
    destruct (Nat.eqb_spec (length obs) 1); [contradiction | reflexivity].
  - intros ob tod -> Htod. unfold exec. cbn [negb length Nat.eqb].
    rewrite py_getitem_first, bind_Ok, Htod, bind_Ok. split.
    + intros ->. reflexivity.
    + intros -> ->. eexists. reflexivity.
Qed.

(** X27: the sizes a successful [exec] passes to the library agree with
    the arrays it passes: [ndet * nlocal] signal samples and pixels, [nnz]
    weights per pixel, one weight per detector, [nperiod] periods, and
    consistent spectra; there is at least one detector. *)
Theorem exec_call_sizes (libmadam : bool) (self : OpMadam) (obs : list Obs)
    (c : DestripeCall) (tod' : TOD) :
  exec libmadam self obs = Ok (c, tod') ->
  0 < dc_ndet c
  /\ Z.of_nat (length (dc_signal c)) = dc_ndet c * dc_nlocal c
  /\ Z.of_nat (length (dc_pixels c)) = dc_ndet c * dc_nlocal c
  /\ Z.of_nat (length (dc_pixweights c)) = dc_ndet c * dc_nlocal c * dc_nnz c
  /\ Z.of_nat (length (dc_detweights c)) = dc_ndet c
  /\ Z.of_nat (length (dc_periods c)) = dc_nperiod c
  /\ Z.of_nat (length (dc_npsd c)) = dc_ndet c
  /\ dc_npsdtot c = dc_ndet c
  /\ Z.of_nat (length (dc_psdstarts c)) = dc_npsdtot c
  /\ Z.of_nat (length (dc_psdfreqs c)) = dc_npsdbin c
  /\ dc_npsdval c = dc_npsdbin c * dc_npsdtot c
  /\ Z.of_nat (length (dc_psdvals c)) = dc_npsdval c.
Proof.
  intros He.
  apply exec_inv in He
    as (ob & tod & det0 & nnz & ts & b & pixels & pixweights & dw & psd
        & _ & _ & _ & _ & Hdet0 & _ & _ & Hn1 & Hn2 & Hb & _ & Hflags
        & Hdw & Hpsd & ->).
  cbn.
  apply lookup_lt_Some in Hdet0.
  apply (for_range_invariant
           (fun b : Buffers =>
              Z.of_nat (length (b_signal b))
              = Z.of_nat (length (tod_detectors tod)) * snd (tod_local_samples tod)
              /\ Z.of_nat (length (b_flags b))
                 = Z.of_nat (length (tod_detectors tod)) * snd (tod_local_samples tod)
              /\ Z.of_nat (length (b_pixels b))
                 = Z.of_nat (length (tod_detectors tod)) * snd (tod_local_samples tod)
              /\ Z.of_nat (length (b_pixweights b))
                 = Z.of_nat (length (tod_detectors tod))
                   * snd (tod_local_samples tod) * nnz)) in Hb.
  - destruct Hb as (Hs & Hf & Hp & Hw).
    apply apply_flags_length in Hflags as [Hp' Hw'].
    apply make_detweights_length in Hdw.
    apply make_psd_sizes in Hpsd as (_ & Hnpsd & Htot & Hst & Hfr & Hval & Hvals).
    rewrite Hp', Hw', Hnpsd, length_replicate.
    repeat split; try assumption; lia.
  - intros j s s' (Hs & Hf & Hp & Hw) Hstep.
    apply read_detector_lengths in Hstep as (-> & -> & -> & ->). auto.
  - cbn. rewrite !length_replicate. lia.
Qed.

(** One round of the reading loop on one buffer. *)
Lemma setslice_step {A} (pre v : list A) (z0 : A) (i n k : nat) (s e : Z) :
  s = Z.of_nat (i * n) -> e = Z.of_nat (i * n + n) ->
  length pre = (i * n)%nat -> length v = n ->
  np_setslice (pre ++ replicate (S k * n) z0) s e v
  = Ok ((pre ++ v) ++ replicate (k * n) z0).
Proof.
  intros -> -> Hpre Hv.
  rewrite np_setslice_exact;
    [| lia | rewrite length_app, length_replicate; lia | lia].
  rewrite take_app_length' by (symmetry; exact Hpre).
  rewrite drop_app_ge by lia.
  replace (i * n + n - length pre)%nat with n by lia.
  rewrite drop_replicate.
  replace (S k * n - n)%nat with (k * n)%nat by lia.
  rewrite <- app_assoc. reflexivity.
Qed.

Lemma concat_blocks_lookup {A B} (g : A -> list B) (l : list A) (n : nat) :
  Forall (fun a => length (g a) = n) l ->
  forall (d s : nat) (a : A),
    l !! d = Some a -> (s < n)%nat ->
    concat (map g l) !! (d * n + s)%nat = g a !! s.
Proof.
  induction 1 as [|b l Hb Hl IH]; intros d s a Ha Hs; [discriminate|].
  cbn [map concat]. destruct d as [|d].
  - injection Ha as ->. apply lookup_app_l. lia.
  - rewrite lookup_app_r by lia.
    replace (S d * n + s - length (g b))%nat with (d * n + s)%nat by lia.
    apply IH; assumption.
Qed.

(** One round of the reading loop, when nothing is purged and the reads
    return [n] samples. *)
Lemma read_detector_step (self : OpMadam) (tod : TOD) (n z i k : nat)
    (det : string) (sig : list Q) (flg pix : list Z) (wgt : list Q)
    (ps : list Q) (pf pp : list Z) (pw : list Q) :
  _purge self = false ->
  tod_detectors tod !! i = Some det ->
  tod_read tod det (_flavor self) 0 (Z.of_nat n) = Ok (sig, flg) ->
  tod_read_pmat tod (_pmat self) det 0 (Z.of_nat n) = Ok (pix, wgt) ->
  length sig = n -> length flg = n -> length pix = n ->
  length wgt = (n * z)%nat ->
  length ps = (i * n)%nat -> length pf = (i * n)%nat ->
  length pp = (i * n)%nat -> length pw = (i * (n * z))%nat ->
  read_detector self (Z.of_nat n) (Z.of_nat z) (Z.of_nat i)
    {| b_tod := tod;
       b_signal := ps ++ replicate (S k * n) 0%Q;
       b_flags := pf ++ replicate (S k * n) 0;
       b_pixels := pp ++ replicate (S k * n) 0;
       b_pixweights := pw ++ replicate (S k * (n * z)) 0%Q |}
  = Ok {| b_tod := tod;
          b_signal := (ps ++ sig) ++ replicate (k * n) 0%Q;
          b_flags := (pf ++ map (fun f => f mod 256) flg) ++ replicate (k * n) 0;
          b_pixels := (pp ++ pix) ++ replicate (k * n) 0;
          b_pixweights := (pw ++ wgt) ++ replicate (k * (n * z)) 0%Q |}.
Proof.
  intros Hpurge Hdet Hrd Hrp Hls Hlf Hlp Hlw Hps Hpf Hpp Hpw.
  unfold read_detector. cbn [b_tod b_signal b_flags b_pixels b_pixweights].
  rewrite (py_getitem_nat _ _ _ Hdet), bind_Ok, Hrd, bind_Ok.
  rewrite (setslice_step ps sig 0%Q i n k) by (lia || assumption).
  rewrite bind_Ok.
  rewrite (setslice_step pf (map (fun f => f mod 256) flg) 0 i n k)
    by (lia || assumption || (rewrite length_map; assumption)).
  rewrite bind_Ok, bind_Ok, Hrp, bind_Ok.
  rewrite (setslice_step pp pix 0 i n k) by (lia || assumption).
  rewrite bind_Ok.
  rewrite (setslice_step pw wgt 0%Q i (n * z) k) by (lia || assumption).
  rewrite bind_Ok, Hpurge, bind_Ok. reflexivity.
Qed.

(** The reading loop, when nothing is purged and every read returns
    [n] samples: the buffers hold the detectors one after the other. *)
Lemma read_loop (self : OpMadam) (tod : TOD) (n z : nat)
    (sig : string -> list Q) (flg pix : string -> list Z)
    (wgt : string -> list Q) :
  _purge self = false ->
  (forall det, det ∈ tod_detectors tod ->
     tod_read tod det (_flavor self) 0 (Z.of_nat n) = Ok (sig det, flg det)
     /\ tod_read_pmat tod (_pmat self) det 0 (Z.of_nat n) = Ok (pix det, wgt det)
     /\ length (sig det) = n /\ length (flg det) = n
     /\ length (pix det) = n /\ length (wgt det) = (n * z)%nat) ->
  forall (k i : nat) (ps : list Q) (pf pp : list Z) (pw : list Q),
    length ps = (i * n)%nat -> length pf = (i * n)%nat ->
    length pp = (i * n)%nat -> length pw = (i * (n * z))%nat ->
    (i + k)%nat = length (tod_detectors tod) ->
    for_range (read_detector self (Z.of_nat n) (Z.of_nat z)) (Z.of_nat i) k
      {| b_tod := tod;
         b_signal := ps ++ replicate (k * n) 0%Q;
         b_flags := pf ++ replicate (k * n) 0;
         b_pixels := pp ++ replicate (k * n) 0;
         b_pixweights := pw ++ replicate (k * (n * z)) 0%Q |}
    = Ok {| b_tod := tod;
            b_signal := ps ++ concat (map sig (drop i (tod_detectors tod)));
            b_flags :=
              pf ++ concat (map (fun det => map (fun f => f mod 256) (flg det))
                              (drop i (tod_detectors tod)));
            b_pixels := pp ++ concat (map pix (drop i (tod_detectors tod)));
            b_pixweights :=
              pw ++ concat (map wgt (drop i (tod_detectors tod))) |}.
Proof.
  intros Hpurge Hread.
  induction k as [|k IH]; intros i ps pf pp pw Hps Hpf Hpp Hpw Hik;
    cbn [for_range].
  - rewrite drop_ge by lia. cbn. rewrite !app_nil_r. reflexivity.
  - destruct (lookup_lt_is_Some_2 (tod_detectors tod) i) as [det Hdet]; [lia|].
    destruct (Hread det) as (Hrd & Hrp & Hls & Hlf & Hlp & Hlw).
    { eapply list_elem_of_lookup_2; eassumption. }
    rewrite (read_detector_step self tod n z i k det (sig det) (flg det)
               (pix det) (wgt det)) by assumption.
    rewrite bind_Ok.
    replace (Z.of_nat i + 1) with (Z.of_nat (S i)) by lia.
    rewrite (IH (S i)); [| rewrite ?length_app, ?length_map; lia ..].
    rewrite (drop_S _ _ _ Hdet). cbn [map concat].
    rewrite <- !app_assoc. reflexivity.
Qed.

(** X29: the buffers are laid out detector by detector.  When nothing is
    purged and every read returns [n = nlocal] samples (with [nnz] weights
    each), a successful [exec] passes the signals of the detectors end to
    end, and sample [s] of detector number [d] sits at index [d * n + s]:
    its pixel is the one read, or -1 when its flag is nonzero as an
    unsigned byte, and its weights are the ones read, or zero. *)
Theorem exec_buffers_detector_major (self : OpMadam) (ob : Obs) (tod : TOD)
    (n : nat) (sig : string -> list Q) (flg pix : string -> list Z)
    (wgt : string -> list Q) (c : DestripeCall) (tod' : TOD) :
  _purge self = false ->
  obs_tod ob = Some tod ->
  snd (tod_local_samples tod) = Z.of_nat n ->
  exec true self [ob] = Ok (c, tod') ->
  (forall det, det ∈ tod_detectors tod ->
     tod_read tod det (_flavor self) 0 (Z.of_nat n) = Ok (sig det, flg det)
     /\ tod_read_pmat tod (_pmat self) det 0 (Z.of_nat n) = Ok (pix det, wgt det)
     /\ length (sig det) = n /\ length (flg det) = n
     /\ length (pix det) = n
     /\ length (wgt det) = (n * Z.to_nat (dc_nnz c))%nat) ->
  dc_signal c = concat (map sig (tod_detectors tod))
  /\ forall (d : nat) (det : string) (s : nat) (f : Z),
       tod_detectors tod !! d = Some det -> flg det !! s = Some f ->
       dc_pixels c !! (d * n + s)%nat
       = (if f mod 256 =? 0 then pix det !! s else Some (-1))
       /\ forall j : nat,
            (j < Z.to_nat (dc_nnz c))%nat ->
            dc_pixweights c !! ((d * n + s) * Z.to_nat (dc_nnz c) + j)%nat
            = if f mod 256 =? 0
              then wgt det !! (s * Z.to_nat (dc_nnz c) + j)%nat
              else Some 0%Q.
Proof.
  intros Hpurge Htod Hn He Hread.
  apply exec_inv in He
    as (ob' & tod0 & det0 & nnz & ts & b & pixels & pixweights & dw & psd
        & _ & Hob & Htod0 & _ & _ & _ & _ & _ & _ & Hb & _ & Hflags
        & _ & _ & ->).
  injection Hob as <-. rewrite Htod in Htod0. injection Htod0 as <-.
  cbn [dc_signal dc_pixels dc_pixweights dc_nnz] in *.
  assert (0 <= nnz) as Hnnz.
  { unfold apply_flags, np_repeat in Hflags.
    apply bind_Ok_inv in Hflags as (p & _ & Hflags).
    destruct (Z.ltb_spec nnz 0); [discriminate | assumption]. }
  set (z := Z.to_nat nnz) in *.
  rewrite Hn in Hb. replace nnz with (Z.of_nat z) in Hb by lia.
  pose proof (read_loop self tod n z sig flg pix wgt Hpurge Hread
                (length (tod_detectors tod)) 0%nat [] [] [] []
                eq_refl eq_refl eq_refl eq_refl eq_refl) as Hloop.
  cbn [app] in Hloop. change (Z.of_nat 0) with 0 in Hloop.
  rewrite drop_0 in Hloop.
  replace (Z.to_nat (Z.of_nat (length (tod_detectors tod)) * Z.of_nat n))
    with (length (tod_detectors tod) * n)%nat in Hb by lia.
  replace (Z.to_nat (Z.of_nat (length (tod_detectors tod)) * Z.of_nat n
                     * Z.of_nat z))
    with (length (tod_detectors tod) * (n * z))%nat in Hb by lia.
  rewrite Hloop in Hb. injection Hb as <-.
  cbn [b_signal b_flags b_pixels b_pixweights] in *.
  split; [reflexivity|].
  assert (Forall (fun det => length (map (fun f => f mod 256) (flg det)) = n)
            (tod_detectors tod)) as Hflg.
  { apply Forall_forall. intros det Hdet. rewrite length_map. apply Hread, Hdet. }
  assert (Forall (fun det => length (pix det) = n) (tod_detectors tod)) as Hpix.
  { apply Forall_forall. intros det Hdet. apply Hread, Hdet. }
  assert (Forall (fun det => length (wgt det) = (n * z)%nat) (tod_detectors tod))
    as Hwgt.
  { apply Forall_forall. intros det Hdet. apply Hread, Hdet. }
  destruct (apply_flags_spec
              (concat (map (fun det => map (fun f => f mod 256) (flg det))
                         (tod_detectors tod)))
              (concat (map pix (tod_detectors tod)))
              (concat (map wgt (tod_detectors tod))) nnz Hnnz)
    as (pixels0 & pixweights0 & Happ & _ & _ & Hspec).
  { clear -Hflg Hpix. induction (tod_detectors tod) as [|a l IH]; [reflexivity|].
    inversion Hflg; inversion Hpix; subst. cbn [map concat].
    rewrite !length_app, IH by assumption. lia. }
  { fold z. clear -Hflg Hwgt. induction (tod_detectors tod) as [|a l IH]; [reflexivity|].
    inversion Hflg; inversion Hwgt; subst. cbn [map concat].
    rewrite !length_app, IH by assumption. lia. }
  rewrite Happ in Hflags. injection Hflags as <- <-.
  intros d det s f Hdet Hf.
  assert (s < n)%nat as Hs.
  { apply lookup_lt_Some in Hf.
    destruct (Hread det) as (_ & _ & _ & Hlf & _);
      [eapply list_elem_of_lookup_2; eassumption | lia]. }
  destruct (Hspec (d * n + s)%nat (f mod 256)) as [Hp Hw].
  { rewrite (concat_blocks_lookup _ _ n Hflg d s det Hdet Hs).
    rewrite list_lookup_fmap, Hf. reflexivity. }
  split.
  - rewrite Hp, (concat_blocks_lookup _ _ n Hpix d s det Hdet Hs). reflexivity.
  - intros j Hj. fold z in Hw, Hj |- *. rewrite (Hw j Hj).
    replace ((d * n + s) * z + j)%nat with (d * (n * z) + (s * z + j))%nat by lia.
    rewrite (concat_blocks_lookup _ _ (n * z) Hwgt d (s * z + j) det Hdet) by nia.
    reflexivity.
Qed.

End Exec.

Lemma exec_guards_witness :
  @exec sample_tod_lib false (@init sample_tod_lib None None None true []) [sample_obs]
  = Raise (RuntimeError "Cannot find libmadam")
  /\ @exec sample_tod_lib true (@init sample_tod_lib None None None true [])
       [sample_obs; sample_obs]
     = Raise (RuntimeError "Madam requires a single observation").
Proof.
  split.
  - exact (proj1 (@exec_guards sample_tod_lib _ [sample_obs])).
  - apply (proj1 (proj2 (@exec_guards sample_tod_lib _ [sample_obs; sample_obs]))).
    discriminate.
Defined.

Lemma exec_call_sizes_witness :
  exists c tod',
    @exec sample_tod_lib true (@init sample_tod_lib None None None true [])
      [sample_obs] = Ok (c, tod')
    /\ dc_ndet c = 2 /\ dc_nlocal c = 3 /\ dc_nnz c = 2
    /\ Z.of_nat (length (dc_signal c)) = dc_ndet c * dc_nlocal c
    /\ Z.of_nat (length (dc_pixweights c)) = dc_ndet c * dc_nlocal c * dc_nnz c.
Proof.
  eexists _, _. split; [vm_compute; reflexivity|].
  do 3 (split; [reflexivity|]).
  match goal with
  | |- Z.of_nat (length (dc_signal ?c)) = _ /\ _ =>
      assert (@exec sample_tod_lib true
                (@init sample_tod_lib None None None true []) [sample_obs]
              = Ok (c, {| st_cleared := ["a"; "b"]; st_cleared_pmat := ["a"; "b"] |}))
        as Hc by (vm_compute; reflexivity);
      destruct (@exec_call_sizes sample_tod_lib true _ _ _ _ Hc)
        as (_ & Hs & _ & Hw & _)
  end.
  split; [exact Hs | exact Hw].
Defined.



Lemma exec_buffers_detector_major_witness :
  exists c,
    @exec sample_tod_lib true (@init sample_tod_lib None None None false [])
      [sample_obs] = Ok (c, sample_tod)
    /\ dc_signal c = [1; 2; 3; 7; 8; 9]%Q
    /\ dc_pixels c !! 1%nat = Some (-1)
    /\ dc_pixels c !! 4%nat = Some 11.
Proof.
  eexists. split; [vm_compute; reflexivity|].
  match goal with
  | |- dc_signal ?c = _ /\ _ =>
      assert (@exec sample_tod_lib true
                (@init sample_tod_lib None None None false []) [sample_obs]
              = Ok (c, sample_tod)) as Hc by (vm_compute; reflexivity);
      destruct (@exec_buffers_detector_major sample_tod_lib
                  (@init sample_tod_lib None None None false []) sample_obs
                  sample_tod 3%nat
                  (fun det => if String.eqb det "a" then [1; 2; 3]%Q
                              else [7; 8; 9]%Q)
                  (fun det => if String.eqb det "a" then [0; 1; 0] else [0; 0; 0])
                  (fun _ => [10; 11; 12])
                  (fun _ => [1; 1; 1; 1; 1; 1]%Q)
                  c sample_tod eq_refl eq_refl eq_refl Hc)
        as [Hsig Hpix]
  end.
  - intros det Hdet.
    apply list_elem_of_In in Hdet.
    destruct Hdet as [<-|[<-|[]]]; vm_compute; repeat split; reflexivity.
  - split; [exact Hsig|]. split.
    + exact (proj1 (Hpix 0%nat "a" 1%nat 1 eq_refl eq_refl)).
    + exact (proj1 (Hpix 1%nat "b" 1%nat 0 eq_refl eq_refl)).
Defined.

End MadamProps.
